(** * ETL pipeline (document batches to PostgreSQL): a shallow embedding

    The development follows the layout of the Python package [etl_pipeline]:

    - [Py]: the fragment of the Python object model the package relies on
      (values, exceptions, the builtins [str], [int], [float], [bool]);
    - the type transformer ([transformer.py], [type_utils.py]);
    - table names ([schema_utils.py], [split_table_name]);
    - the persistence gateway and [ensure_database] ([postgres_loader.py]);
    - audit rows, the run report and the orchestrator's collection and
      document loops ([audit.py], [reporting.py], [pipeline.py]);
    - the validation of the mapping types, the check of the input's shape
      and the database block of [run] as a whole ([config_loader.py],
      [ingestion.py], [pipeline.py]);
    - the tables that the schema source declares ([schema_utils.py]).

    Definitions come first, theorems last. *)

From Stdlib Require Import ZArith String Ascii List Bool Lia DecimalString.
From Stdlib Require Import Floats.SpecFloat.
From stdpp Require Import gmap strings list sorting.

Set Warnings "-register-all,-clear-no-such-hyp".

(* ===================================================================== *)
(** * Python object model *)
(* ===================================================================== *)

Module Py.

(** ** Exceptions and results *)

(** The exception classes that occur in the package.  No class in this list
    is a subclass of another one: [OverflowError] derives from
    [ArithmeticError], not from [ValueError]; [decimal.InvalidOperation]
    derives from [DecimalException]; [psycopg2.OperationalError] derives
    from [psycopg2.DatabaseError]; [re.error] and the package's own
    [LoadError] and [ConfigError] derive from [Exception] directly. *)
Inductive exn_class :=
| ValueError
| TypeError
| OverflowError
| InvalidOperation
| KeyError
| OperationalError
| InterfaceError
| ReError
| ConfigError
| LoadError.

#[global] Instance exn_class_eq_dec : EqDecision exn_class.
Proof. solve_decision. Defined.

(** An exception object: its class and [str(exc)]. *)
Record exn := Exn { exn_cls : exn_class; exn_msg : string }.

(** The outcome of evaluating an expression or a block. *)
Inductive result (A : Type) :=
| Return (a : A)
| Raise (e : exn).
Arguments Return {A} a.
Arguments Raise {A} e.

Definition bind {A B} (r : result A) (k : A → result B) : result B :=
  match r with
  | Return a => k a
  | Raise e => Raise e
  end.

(** [try: body  except (c1, ..., cn): handler] *)
Definition try_except {A} (body : result A) (classes : list exn_class)
    (handler : exn → result A) : result A :=
  match body with
  | Return a => Return a
  | Raise e => if bool_decide (exn_cls e ∈ classes) then handler e else Raise e
  end.

(** ** Strings

    A [string] is a sequence of code points below 256.  [str.isspace] and
    [str.lower] are those of CPython on that range, where [str.lower]
    works character by character.  Text with other code points is outside
    the model: there [str.lower] depends on the context of a character
    (the final sigma) and can change the length of the text, and
    [re.IGNORECASE] lets further characters match the letters [I], [K]
    and [S].  The statements that compare texts up to case say so by the
    hypothesis [is_ascii].  The interpreter's limit on integer/string
    conversions ([sys.set_int_max_str_digits]) is taken to be switched
    off. *)

Definition code (c : ascii) : N := N_of_ascii c.

(** [str.isascii] *)
Definition is_ascii (s : string) : bool :=
  forallb (λ c, (code c <? 128)%N) (list_ascii_of_string s).

Definition isspace (c : ascii) : bool :=
  let n := code c in
  ((9 <=? n) && (n <=? 13) || (28 <=? n) && (n <=? 32)
   || (n =? 133) || (n =? 160))%N.

Definition isdigit (c : ascii) : bool :=
  let n := code c in ((48 <=? n) && (n <=? 57))%N.

Definition lower_char (c : ascii) : ascii :=
  let n := code c in
  if ((65 <=? n) && (n <=? 90)
      || (192 <=? n) && (n <=? 222) && negb (n =? 215))%N
  then ascii_of_N (n + 32) else c.

Fixpoint lower (s : string) : string :=
  match s with
  | EmptyString => EmptyString
  | String c s' => String (lower_char c) (lower s')
  end.

Fixpoint lstrip (s : string) : string :=
  match s with
  | EmptyString => EmptyString
  | String c s' => if isspace c then lstrip s' else s
  end.

Definition rstrip (s : string) : string :=
  String.rev (lstrip (String.rev s)).

Definition strip (s : string) : string := rstrip (lstrip s).

(** [needle in hay] on strings. *)
Fixpoint contains (needle hay : string) : bool :=
  String.prefix needle hay ||
  match hay with
  | EmptyString => false
  | String _ hay' => contains needle hay'
  end.

(** [s.split(sep, maxsplit=1)] for a one-character separator: [None] when
    the separator does not occur. *)
Fixpoint split_once (sep : ascii) (s : string) : option (string * string) :=
  match s with
  | EmptyString => None
  | String c s' =>
      if bool_decide (c = sep) then Some (EmptyString, s')
      else match split_once sep s' with
           | Some (a, b) => Some (String c a, b)
           | None => None
           end
  end.

(** [x in {s1, ..., sn}] for a set literal of strings. *)
Definition in_set (x : string) (xs : list string) : bool :=
  bool_decide (x ∈ xs).

(** ** Dates *)

Record date := Date { year : Z; month : Z; day : Z }.

Record datetime := DateTime {
  dt_date : date;
  hour : Z;
  minute : Z;
  second : Z;
  microsecond : Z
}.

(** [datetime.combine(d, time.min)] *)
Definition combine_min (d : date) : datetime :=
  DateTime d 0 0 0 0.

(** ** Decimals

    A [decimal.Decimal]: sign, coefficient and exponent, or a special
    value. *)
Inductive decimal :=
| DecFinite (negative : bool) (coefficient : N) (exponent : Z)
| DecInfinity (negative : bool)
| DecNaN (negative signaling : bool) (payload : N).

(** ** Values *)

(** The values a document or a row can hold.  A [dict] keeps its items in
    insertion order, with pairwise different keys. *)
Inductive value :=
| PNone
| PBool (b : bool)
| PInt (z : Z)
| PFloat (f : spec_float)
| PStr (s : string)
| PList (items : list value)
| PDict (items : list (string * value))
| PDecimal (d : decimal)
| PDate (d : date)
| PDateTime (dt : datetime).

(** A dict with string keys, as [json.load] builds it. *)
Abbreviation dict := (list (string * value)).

(** [key in d] *)
Fixpoint dict_contains (key : string) (d : dict) : bool :=
  match d with
  | [] => false
  | (k, _) :: d' => bool_decide (k = key) || dict_contains key d'
  end.

(** [d.get(key)]: [None] (the Python object) when the key is absent. *)
Fixpoint dict_get (key : string) (d : dict) : value :=
  match d with
  | [] => PNone
  | (k, v) :: d' => if bool_decide (k = key) then v else dict_get key d'
  end.

(** Binary64 floats are [spec_float]s of precision 53. *)
Definition prec : Z := 53.
Definition emax : Z := 1024.

Definition float_is_zero (f : spec_float) : bool :=
  match f with S754_zero _ => true | _ => false end.

Definition decimal_is_zero (d : decimal) : bool :=
  match d with DecFinite _ 0%N _ => true | _ => false end.

(** Truth value of an object, as [if x:] and [bool(x)] take it. *)
Definition truthy (v : value) : bool :=
  match v with
  | PNone => false
  | PBool b => b
  | PInt z => negb (z =? 0)%Z
  | PFloat f => negb (float_is_zero f)
  | PStr s => negb (bool_decide (s = EmptyString))
  | PList l => negb (bool_decide (length l = 0%nat))
  | PDict d => negb (bool_decide (length d = 0%nat))
  | PDecimal d => negb (decimal_is_zero d)
  | PDate _ | PDateTime _ => true
  end.

(** Truth value of an optional string ([None] or a [str]). *)
Definition truthy_opt_str (o : option string) : bool :=
  match o with
  | None => false
  | Some s => negb (bool_decide (s = EmptyString))
  end.

(** ** Text forms: [str] and [repr] *)

Definition str_int (z : Z) : string := NilZero.string_of_int (Z.to_int z).

Definition hex_digit (n : N) : ascii :=
  if (n <? 10)%N then ascii_of_N (48 + n) else ascii_of_N (87 + n).

Definition isprintable (c : ascii) : bool :=
  let n := code c in
  negb ((n <? 32) || (127 <=? n) && (n <=? 160) || (n =? 173))%N.

(** The character of code 34, the double quote. *)
Definition double_quote : ascii := ascii_of_N 34.

Definition repr_char (quote c : ascii) : string :=
  if bool_decide (c = "\"%char) then "\\"
  else if bool_decide (c = quote) then String "\" (String quote "")
  else if bool_decide (c = "009"%char) then "\t"
  else if bool_decide (c = "010"%char) then "\n"
  else if bool_decide (c = "013"%char) then "\r"
  else if isprintable c then String c ""
  else String "\" (String "x" (String (hex_digit (code c / 16))
                                  (String (hex_digit (code c mod 16)) ""))).

Fixpoint repr_chars (quote : ascii) (s : string) : string :=
  match s with
  | EmptyString => EmptyString
  | String c s' => repr_char quote c +:+ repr_chars quote s'
  end.

(** [repr(s)] for a string [s]. *)
Definition repr_str (s : string) : string :=
  let quote :=
    if contains "'" s && negb (contains (String double_quote "") s)
    then double_quote else "'"%char in
  String quote (repr_chars quote s) +:+ String quote "".

Definition zfill (width : nat) (s : string) : string :=
  String.concat "" (replicate (width - String.length s) "0") +:+ s.

(** [date.isoformat()] *)
Definition isoformat (d : date) : string :=
  zfill 4 (str_int (year d)) +:+ "-" +:+ zfill 2 (str_int (month d))
  +:+ "-" +:+ zfill 2 (str_int (day d)).

(** [str(dt)] for a [datetime] without time zone. *)
Definition str_datetime (dt : datetime) : string :=
  isoformat (dt_date dt) +:+ " " +:+ zfill 2 (str_int (hour dt))
  +:+ ":" +:+ zfill 2 (str_int (minute dt))
  +:+ ":" +:+ zfill 2 (str_int (second dt))
  +:+ (if (microsecond dt =? 0)%Z then ""
       else "." +:+ zfill 6 (str_int (microsecond dt))).

Definition repr_date (d : date) : string :=
  "datetime.date(" +:+ str_int (year d) +:+ ", " +:+ str_int (month d)
  +:+ ", " +:+ str_int (day d) +:+ ")".

Definition repr_datetime (dt : datetime) : string :=
  let d := dt_date dt in
  "datetime.datetime(" +:+ str_int (year d) +:+ ", " +:+ str_int (month d)
  +:+ ", " +:+ str_int (day d) +:+ ", " +:+ str_int (hour dt)
  +:+ ", " +:+ str_int (minute dt)
  +:+ (if (microsecond dt =? 0)%Z
       then (if (second dt =? 0)%Z then "" else ", " +:+ str_int (second dt))
       else ", " +:+ str_int (second dt) +:+ ", " +:+ str_int (microsecond dt))
  +:+ ")".

(** [str(d)] for a [Decimal] (the to-scientific-string of the decimal
    arithmetic specification). *)
Definition str_decimal (d : decimal) : string :=
  match d with
  | DecInfinity neg => (if neg then "-" else "") +:+ "Infinity"
  | DecNaN neg sig payload =>
      (if neg then "-" else "") +:+ (if sig then "sNaN" else "NaN")
      +:+ (if (payload =? 0)%N then "" else str_int (Z.of_N payload))
  | DecFinite neg coeff exp =>
      let digits := str_int (Z.of_N coeff) in
      let len := Z.of_nat (String.length digits) in
      let leftdigits := (exp + len)%Z in
      let dotplace :=
        if (exp <=? 0)%Z && (-6 <? leftdigits)%Z then leftdigits else 1%Z in
      let intpart :=
        if (dotplace <=? 0)%Z then "0"
        else if (len <=? dotplace)%Z
        then digits +:+ String.concat "" (replicate (Z.to_nat (dotplace - len)) "0")
        else String.substring 0 (Z.to_nat dotplace) digits in
      let fracpart :=
        if (dotplace <=? 0)%Z
        then "." +:+ String.concat "" (replicate (Z.to_nat (- dotplace)) "0") +:+ digits
        else if (len <=? dotplace)%Z then ""
        else "." +:+ String.substring (Z.to_nat dotplace)
                       (Z.to_nat (len - dotplace)) digits in
      let e := (leftdigits - dotplace)%Z in
      let exppart :=
        if (e =? 0)%Z then ""
        else "E" +:+ (if (0 <=? e)%Z then "+" else "") +:+ str_int e in
      (if neg then "-" else "") +:+ intpart +:+ fracpart +:+ exppart
  end.

(** ** The interpreter's number and calendar routines

    What the package calls but does not define, and what this development
    does not spell out: printing and reading binary floats, reading
    decimals, and the [strptime]/[strftime] format language.  Everything
    below is stated for an arbitrary [runtime]. *)
Record runtime := Runtime {
  (** [repr(f)] for a float [f] *)
  float_repr : spec_float → string;
  (** [float(s)] for a string [s]; [None] stands for [ValueError] *)
  float_of_string : string → option spec_float;
  (** [Decimal(s)] for a string [s]; [None] stands for [InvalidOperation] *)
  decimal_of_string : string → option decimal;
  (** [datetime.strptime(s, fmt)] *)
  strptime : string → string → result datetime;
  (** [dt.strftime(fmt)] *)
  strftime : datetime → string → result string
}.

Section Builtins.
Variable rt : runtime.

Definition join (sep : string) (parts : list string) : string :=
  String.concat sep parts.

(** [repr(v)] *)
Fixpoint py_repr (v : value) : string :=
  match v with
  | PNone => "None"
  | PBool b => if b then "True" else "False"
  | PInt z => str_int z
  | PFloat f => float_repr rt f
  | PStr s => repr_str s
  | PList items => "[" +:+ join ", " (map py_repr items) +:+ "]"
  | PDict items =>
      "{" +:+ join ", "
                (map (λ kv, repr_str (fst kv) +:+ ": " +:+ py_repr (snd kv)) items)
      +:+ "}"
  | PDecimal d => "Decimal('" +:+ str_decimal d +:+ "')"
  | PDate d => repr_date d
  | PDateTime dt => repr_datetime dt
  end.

(** [str(v)] *)
Definition py_str (v : value) : string :=
  match v with
  | PStr s => s
  | PDecimal d => str_decimal d
  | PDate d => isoformat d
  | PDateTime dt => str_datetime dt
  | _ => py_repr v
  end.

(** [type(v).__name__], qualified as error messages print it. *)
Definition type_name (v : value) : string :=
  match v with
  | PNone => "NoneType"
  | PBool _ => "bool"
  | PInt _ => "int"
  | PFloat _ => "float"
  | PStr _ => "str"
  | PList _ => "list"
  | PDict _ => "dict"
  | PDecimal _ => "decimal.Decimal"
  | PDate _ => "datetime.date"
  | PDateTime _ => "datetime.datetime"
  end.

(** *** [int(v)] *)

(** White space that [int] and [float] skip around a numeric literal. *)
Definition isspace_numeric (c : ascii) : bool :=
  let n := code c in
  ((9 <=? n) && (n <=? 13) || (n =? 32) || (n =? 133) || (n =? 160))%N.

Fixpoint lstrip_numeric (s : string) : string :=
  match s with
  | EmptyString => EmptyString
  | String c s' => if isspace_numeric c then lstrip_numeric s' else s
  end.

Definition strip_numeric (s : string) : string :=
  String.rev (lstrip_numeric (String.rev (lstrip_numeric s))).

(** Decimal digits with single underscores between them. *)
Fixpoint digits_value (s : string) (acc : Z) (after_digit : bool) : option Z :=
  match s with
  | EmptyString => if after_digit then Some acc else None
  | String c s' =>
      if isdigit c
      then digits_value s' (10 * acc + Z.of_N (code c) - 48)%Z true
      else if bool_decide (c = "_"%char) && after_digit
      then digits_value s' acc false
      else None
  end.

Definition int_of_string (s : string) : option Z :=
  match strip_numeric s with
  | String "+" s' => digits_value s' 0 false
  | String "-" s' => Z.opp <$> digits_value s' 0 false
  | s' => digits_value s' 0 false
  end.

(** The integer part of [m * 2^e], towards zero. *)
Definition float_trunc (negative : bool) (m : positive) (e : Z) : Z :=
  let magnitude :=
    if (0 <=? e)%Z then (Z.pos m * 2 ^ e)%Z else (Z.pos m / 2 ^ (- e))%Z in
  if negative then (- magnitude)%Z else magnitude.

Definition decimal_trunc (negative : bool) (coeff : N) (exp : Z) : Z :=
  let magnitude :=
    if (0 <=? exp)%Z then (Z.of_N coeff * 10 ^ exp)%Z
    else (Z.of_N coeff / 10 ^ (- exp))%Z in
  if negative then (- magnitude)%Z else magnitude.

Definition py_int (v : value) : result Z :=
  match v with
  | PBool b => Return (if b then 1 else 0)%Z
  | PInt z => Return z
  | PFloat (S754_zero _) => Return 0%Z
  | PFloat (S754_finite s m e) => Return (float_trunc s m e)
  | PFloat (S754_infinity _) =>
      Raise (Exn OverflowError "cannot convert float infinity to integer")
  | PFloat S754_nan =>
      Raise (Exn ValueError "cannot convert float NaN to integer")
  | PStr s =>
      match int_of_string s with
      | Some z => Return z
      | None =>
          Raise (Exn ValueError
                   ("invalid literal for int() with base 10: " +:+ repr_str s))
      end
  | PDecimal (DecFinite s c e) => Return (decimal_trunc s c e)
  | PDecimal (DecInfinity _) =>
      Raise (Exn OverflowError "cannot convert Infinity to integer")
  | PDecimal (DecNaN _ _ _) =>
      Raise (Exn ValueError "cannot convert NaN to integer")
  | PNone | PList _ | PDict _ | PDate _ | PDateTime _ =>
      Raise (Exn TypeError
               ("int() argument must be a string, a bytes-like object or a "
                +:+ "real number, not '" +:+ type_name v +:+ "'"))
  end.

(** *** [float(v)] *)

Definition float_of_int (z : Z) : result spec_float :=
  match binary_normalize prec emax z 0 false with
  | S754_infinity _ =>
      Raise (Exn OverflowError "int too large to convert to float")
  | f => Return f
  end.

Definition float_of_text (s : string) : result spec_float :=
  match float_of_string rt s with
  | Some f => Return f
  | None =>
      Raise (Exn ValueError
               ("could not convert string to float: " +:+ repr_str s))
  end.

Definition py_float (v : value) : result spec_float :=
  match v with
  | PBool b => float_of_int (if b then 1 else 0)
  | PInt z => float_of_int z
  | PFloat f => Return f
  | PStr s => float_of_text s
  | PDecimal (DecNaN neg sig _) =>
      if sig
      then Raise (Exn ValueError "Cannot convert signaling NaN to float")
      else Return S754_nan
  | PDecimal d => float_of_text (str_decimal d)
  | PNone | PList _ | PDict _ | PDate _ | PDateTime _ =>
      Raise (Exn TypeError
               ("float() argument must be a string or a real number, not '"
                +:+ type_name v +:+ "'"))
  end.

(** *** [Decimal(s)] *)

Definition py_decimal (s : string) : result decimal :=
  match decimal_of_string rt s with
  | Some d => Return d
  | None => Raise (Exn InvalidOperation "[<class 'decimal.ConversionSyntax'>]")
  end.

(** [d.strftime(fmt)] for a [date]: the time fields read as zero. *)
Definition strftime_date (d : date) (fmt : string) : result string :=
  strftime rt (combine_min d) fmt.

End Builtins.

End Py.

Import Py.

(** Sequencing of statements that may raise. *)
Notation "'let*' x := e1 'in' e2" := (bind e1 (λ x, e2))
  (at level 10, x name, e1 at level 100, e2 at level 200).
Notation "'let*' ' x := e1 'in' e2" := (bind e1 (λ x, e2))
  (at level 10, x strict pattern, e1 at level 100, e2 at level 200).

(* ===================================================================== *)
(** * The type transformer ([type_utils.py], [transformer.py]) *)
(* ===================================================================== *)

(** [normalize_type]: [type_value.strip().lower()] *)
Definition normalize_type (type_value : string) : string :=
  lower (strip type_value).

(** [SUPPORTED_TYPES] *)
Definition SUPPORTED_TYPES : list string :=
  ["text"; "string"; "varchar"; "integer"; "int"; "bigint"; "smallint";
   "float"; "double"; "double precision"; "numeric"; "decimal";
   "boolean"; "bool"; "date"; "datetime"].

(** [normalize_boolean] *)
Definition normalize_boolean (value : value) : result bool :=
  match value with
  | PBool b => Return b
  | PInt _ | PFloat _ => Return (truthy value)
  | PStr s =>
      let normalized := lower (strip s) in
      if in_set normalized ["true"; "t"; "yes"; "y"; "1"] then Return true
      else if in_set normalized ["false"; "f"; "no"; "n"; "0"] then Return false
      else Raise (Exn ValueError "invalid boolean value")
  | _ => Raise (Exn ValueError "invalid boolean value")
  end.

(** One entry of a collection's [mappings]: [{"column": ..., "type": ...}]. *)
Record mapping := Mapping { column : string; type : string }.

Section Transformer.
Variable rt : runtime.

(** The loop [for date_format in date_formats] of [parse_date] and of
    [parse_datetime], with its [try]/[except ValueError: continue], and the
    [return None] after it. *)
Fixpoint first_format (value : string) (date_formats : list string)
    : result (option datetime) :=
  match date_formats with
  | [] => Return None
  | date_format :: rest =>
      try_except
        (let* parsed := strptime rt value date_format in
         Return (Some parsed))
        [ValueError]
        (λ _, first_format value rest)
  end.

(** [parse_date] *)
Definition parse_date (value : value) (date_formats : list string)
    : result (option date) :=
  match value with
  | PDateTime dt => Return (Some (dt_date dt))
  | PDate d => Return (Some d)
  | PStr s =>
      let* parsed := first_format s date_formats in
      Return (dt_date <$> parsed)
  | _ => Return None
  end.

(** [parse_datetime] *)
Definition parse_datetime (value : value) (date_formats : list string)
    : result (option datetime) :=
  match value with
  | PDateTime dt => Return (Some dt)
  | PDate d => Return (Some (combine_min d))
  | PStr s => first_format s date_formats
  | _ => Return None
  end.

(** The body of the [try] block of [transform_value]: [Return None] when
    control leaves the block without a [return]. *)
Definition transform_value_try (value : value) (normalized_type : string)
    (date_formats : list string)
    (date_output_format datetime_output_format : string)
    : result (option (Py.value * option string)) :=
  if in_set normalized_type ["text"; "string"; "varchar"] then
    Return (Some (PStr (py_str rt value), None))
  else if in_set normalized_type ["integer"; "int"; "bigint"; "smallint"] then
    let* z := py_int value in
    Return (Some (PInt z, None))
  else if in_set normalized_type ["float"; "double"; "double precision"] then
    let* f := py_float rt value in
    Return (Some (PFloat f, None))
  else if in_set normalized_type ["numeric"; "decimal"] then
    let* d := py_decimal rt (py_str rt value) in
    Return (Some (PDecimal d, None))
  else if in_set normalized_type ["boolean"; "bool"] then
    let* b := normalize_boolean value in
    Return (Some (PBool b, None))
  else if bool_decide (normalized_type = "date") then
    let* parsed := parse_date value date_formats in
    match parsed with
    | None => Return (Some (PNone, Some "invalid date format"))
    | Some parsed =>
        let* text := strftime_date rt parsed date_output_format in
        Return (Some (PStr text, None))
    end
  else if bool_decide (normalized_type = "datetime") then
    let* parsed := parse_datetime value date_formats in
    match parsed with
    | None => Return (Some (PNone, Some "invalid datetime format"))
    | Some parsed =>
        let* text := strftime rt parsed datetime_output_format in
        Return (Some (PStr text, None))
    end
  else Return None.

(** [transform_value]: the converted value and the error message, if any. *)
Definition transform_value (value : value) (target_type : string)
    (date_formats : list string)
    (date_output_format datetime_output_format : string)
    : result (Py.value * option string) :=
  match value with
  | PNone => Return (PNone, None)
  | _ =>
      let normalized_type := normalize_type target_type in
      let* r :=
        try_except
          (transform_value_try value normalized_type date_formats
             date_output_format datetime_output_format)
          [ValueError; TypeError; InvalidOperation]
          (λ _, Return (Some (PNone,
                   Some ("invalid value for type '" +:+ target_type +:+ "'"))))
      in
      match r with
      | Some out => Return out
      | None =>
          Return (PNone, Some ("unsupported target type '" +:+ target_type +:+ "'"))
      end
  end.

(** What [transform_document] returns:
    [(transformed, missing_columns, errors)]. *)
Record transform_result := TransformResult {
  transformed : gmap string value;
  missing_columns : list string;
  errors : list string
}.

(** One iteration of the loop [for source_attr, mapping in mappings.items()]
    of [transform_document]. *)
Definition transform_attribute (document : dict)
    (date_formats : list string)
    (date_output_format datetime_output_format : string)
    (source_attr : string) (mapping : mapping) (acc : transform_result)
    : result transform_result :=
  let target_column := column mapping in
  let target_type := type mapping in
  if negb (dict_contains source_attr document) then
    Return (TransformResult (<[target_column := PNone]> (transformed acc))
              (missing_columns acc ++ [target_column])
              (errors acc))
  else
    let value := dict_get source_attr document in
    let* '(converted, error) :=
      transform_value value target_type date_formats
        date_output_format datetime_output_format in
    if truthy_opt_str error then
      Return (TransformResult (<[target_column := PNone]> (transformed acc))
                (missing_columns acc)
                (errors acc ++ [source_attr +:+ ": " +:+ default "" error]))
    else
      Return (TransformResult (<[target_column := converted]> (transformed acc))
                (missing_columns acc)
                (errors acc)).

Fixpoint transform_loop (document : dict)
    (date_formats : list string)
    (date_output_format datetime_output_format : string)
    (items : list (string * mapping)) (acc : transform_result)
    : result transform_result :=
  match items with
  | [] => Return acc
  | (source_attr, mapping) :: rest =>
      let* acc' :=
        transform_attribute document date_formats date_output_format
          datetime_output_format source_attr mapping acc in
      transform_loop document date_formats date_output_format
        datetime_output_format rest acc'
  end.

(** [transform_document].  [mappings] lists the items of the mapping dict in
    iteration order. *)
Definition transform_document (document : dict)
    (mappings : list (string * mapping))
    (date_formats : list string)
    (date_output_format datetime_output_format : string)
    : result transform_result :=
  transform_loop document date_formats date_output_format
    datetime_output_format mappings (TransformResult ∅ [] []).

End Transformer.

(* ===================================================================== *)
(** * A reference runtime *)
(* ===================================================================== *)

(** An executable [runtime], for evaluating the package on concrete inputs:
    floats are read and printed with correct rounding and shortest digits,
    decimals are read by the grammar of the [decimal] module, and
    [strptime]/[strftime] cover the numeric directives
    [%Y %y %m %d %H %M %S %f] and [%%] as the C library and [_strptime.py]
    treat them; a [datetime] carries no time zone, so [strftime] prints
    [%z] and [%Z] as the empty string.  The remaining directives (names of
    days and months, week numbers, locale forms, time zones to read) are
    not covered: [strptime] rejects them as bad directives and [strftime]
    copies them unchanged. *)
Module Ref.

Local Open Scope Z_scope.

(** ** Reading numbers *)

(** A group of digits with single underscores between them, at the head of
    [s]: its value, its number of digits, and the rest of [s].  [None] when
    an underscore is not followed by a digit. *)
Fixpoint scan_group (s : string) (acc : Z) (count : nat)
    : option (Z * nat * string) :=
  match s with
  | EmptyString => Some (acc, count, s)
  | String c s' =>
      if isdigit c
      then scan_group s' (10 * acc + Z.of_N (code c) - 48) (S count)
      else if bool_decide (c = "_"%char) && negb (bool_decide (count = 0%nat))
      then match s' with
           | String c' _ =>
               if isdigit c' then scan_group s' acc count else None
           | EmptyString => None
           end
      else Some (acc, count, s)
  end.

Definition scan_sign (s : string) : bool * string :=
  match s with
  | String "+" s' => (false, s')
  | String "-" s' => (true, s')
  | _ => (false, s)
  end.

(** [e] or [E], an optional sign and a non-empty group of digits; the rest
    of the string must be empty. *)
Definition scan_exponent (s : string) : option Z :=
  match s with
  | EmptyString => Some 0
  | String c s' =>
      if bool_decide (lower_char c = "e"%char)
      then let '(neg, s'') := scan_sign s' in
           match scan_group s'' 0 0 with
           | Some (e, S _, EmptyString) => Some (if neg then - e else e)
           | _ => None
           end
      else None
  end.

(** A decimal literal [digits [. digits] [e digits]]: the integer [D] and
    the exponent [k] with value [D * 10^k]. *)
Definition scan_decimal_literal (s : string) : option (Z * Z) :=
  match scan_group s 0 0 with
  | None => None
  | Some (ip, ni, rest) =>
      let after_point :=
        match rest with
        | String "." rest' =>
            match scan_group rest' 0 0 with
            | Some (fp, nf, rest'') => Some (fp, nf, rest'')
            | None => None
            end
        | _ => Some (0, 0%nat, rest)
        end in
      match after_point with
      | None => None
      | Some (fp, nf, rest') =>
          if bool_decide ((ni + nf)%nat = 0%nat) then None
          else match scan_exponent rest' with
               | Some e => Some (ip * 10 ^ Z.of_nat nf + fp, e - Z.of_nat nf)
               | None => None
               end
      end
  end.

(** [num / den], rounded to the nearest binary64 float (ties to even). *)
Definition round_ratio (negative : bool) (num den : Z) : spec_float :=
  let s := Z.max 0 (64 + Z.log2 den - Z.log2 num) in
  let q := (num * 2 ^ s) / den in
  let sticky := if ((num * 2 ^ s) mod den =? 0) then 0 else 1 in
  let m := 2 * q + sticky in
  binary_normalize prec emax (if negative then - m else m) (- s - 1) negative.

(** [D * 10^k], rounded to the nearest binary64 float. *)
Definition float_of_decimal (negative : bool) (D k : Z) : spec_float :=
  if D =? 0 then S754_zero negative
  else if 0 <=? k
  then binary_normalize prec emax
         (if negative then - (D * 10 ^ k) else D * 10 ^ k) 0 negative
  else round_ratio negative D (10 ^ (- k)).

(** [float(s)] *)
Definition float_of_string (s : string) : option spec_float :=
  let '(neg, body) := scan_sign (lower (strip_numeric s)) in
  if bool_decide (body = "inf") || bool_decide (body = "infinity")
  then Some (S754_infinity neg)
  else if bool_decide (body = "nan") then Some S754_nan
  else match scan_decimal_literal body with
       | Some (D, k) => Some (float_of_decimal neg D k)
       | None => None
       end.

Fixpoint remove_underscores (s : string) : string :=
  match s with
  | EmptyString => EmptyString
  | String c s' =>
      if bool_decide (c = "_"%char) then remove_underscores s'
      else String c (remove_underscores s')
  end.

(** The payload of a NaN literal: digits up to the end of the string. *)
Definition scan_payload (s : string) : option N :=
  match scan_group s 0 0 with
  | Some (p, _, EmptyString) => Some (Z.to_N p)
  | _ => None
  end.

(** [Decimal(s)] *)
Definition decimal_of_string (s : string) : option decimal :=
  let '(neg, body) := scan_sign (lower (remove_underscores (strip s))) in
  if bool_decide (body = "inf") || bool_decide (body = "infinity")
  then Some (DecInfinity neg)
  else match body with
       | String "n" (String "a" (String "n" p)) => DecNaN neg false <$> scan_payload p
       | String "s" (String "n" (String "a" (String "n" p))) =>
           DecNaN neg true <$> scan_payload p
       | _ =>
           match scan_decimal_literal body with
           | Some (D, k) => Some (DecFinite neg (Z.to_N D) k)
           | None => None
           end
       end.

(** ** Printing floats *)

(** Is [num / den < 10^p]? *)
Definition below_pow10 (num den p : Z) : bool :=
  if 0 <=? p then num <? 10 ^ p * den else num * 10 ^ (- p) <? den.

(** The least [p], from [p0] on, with [num / den < 10^p]. *)
Fixpoint decimal_point (fuel : nat) (num den p0 : Z) : Z :=
  match fuel with
  | O => p0
  | S fuel' =>
      if below_pow10 num den p0 then p0
      else decimal_point fuel' num den (p0 + 1)
  end.

(** The shortest [D * 10^k] with at most [n + fuel] digits that reads back
    as the float [m * 2^e]; of two candidates of one length, the nearer. *)
Fixpoint shortest_digits (fuel : nat) (m : positive) (e : Z)
    (num den decpt n : Z) : Z * Z :=
  let k := decpt - n in
  let lo := if 0 <=? k then num / (den * 10 ^ k) else (num * 10 ^ (- k)) / den in
  let hi := lo + 1 in
  let reads_back D :=
    match float_of_decimal false D k with
    | S754_finite _ m' e' => bool_decide (m' = m) && (e' =? e)
    | _ => false
    end in
  (* twice the distance of [lo] to the float against the gap [10^k] *)
  let lo_nearer :=
    if 0 <=? k then 2 * (num - lo * 10 ^ k * den) <=? 10 ^ k * den
    else 2 * (num * 10 ^ (- k) - lo * den) <=? den in
  match fuel with
  | O => (lo, k)
  | S fuel' =>
      match reads_back lo, reads_back hi with
      | true, true => if lo_nearer then (lo, k) else (hi, k)
      | true, false => (lo, k)
      | false, true => (hi, k)
      | false, false => shortest_digits fuel' m e num den decpt (n + 1)
      end
  end.

Fixpoint strip_zeros (fuel : nat) (D k : Z) : Z * Z :=
  match fuel with
  | O => (D, k)
  | S fuel' =>
      if (D mod 10 =? 0) && negb (D =? 0) then strip_zeros fuel' (D / 10) (k + 1)
      else (D, k)
  end.

Definition zeros (n : Z) : string :=
  String.concat "" (replicate (Z.to_nat n) "0").

(** [repr] of the positive float [m * 2^e]. *)
Definition repr_finite (m : positive) (e : Z) : string :=
  let num := if 0 <=? e then Z.pos m * 2 ^ e else Z.pos m in
  let den := if 0 <=? e then 1 else 2 ^ (- e) in
  let L := Z.log2 (Z.pos m) + e in
  let decpt := decimal_point 4 num den (L * 30103 / 100000 - 1) in
  let '(D, k) := shortest_digits 17 m e num den decpt 1 in
  let '(D, k) := strip_zeros 20 D k in
  let ds := str_int D in
  let n := Z.of_nat (String.length ds) in
  let decpt := n + k in
  if (decpt <=? -4) || (16 <? decpt) then
    String.substring 0 1 ds
    +:+ (if 1 <? n then "." +:+ String.substring 1 (Z.to_nat (n - 1)) ds else "")
    +:+ "e" +:+ (if 0 <=? decpt - 1 then "+" else "-")
    +:+ zfill 2 (str_int (Z.abs (decpt - 1)))
  else if decpt <=? 0 then "0." +:+ zeros (- decpt) +:+ ds
  else if n <=? decpt then ds +:+ zeros (decpt - n) +:+ ".0"
  else String.substring 0 (Z.to_nat decpt) ds +:+ "."
       +:+ String.substring (Z.to_nat decpt) (Z.to_nat (n - decpt)) ds.

(** [repr(f)] *)
Definition float_repr (f : spec_float) : string :=
  match f with
  | S754_nan => "nan"
  | S754_infinity neg => if neg then "-inf" else "inf"
  | S754_zero neg => if neg then "-0.0" else "0.0"
  | S754_finite neg m e =>
      match binary_normalize prec emax (Z.pos m) e false with
      | S754_finite _ m' e' => (if neg then "-" else "") +:+ repr_finite m' e'
      | S754_infinity _ => if neg then "-inf" else "inf"
      | _ => if neg then "-0.0" else "0.0"
      end
  end.

(** ** [strptime] *)

Inductive field := FY | Fy | Fm | Fd | FH | FM | FS | Ff.

#[global] Instance field_eq_dec : EqDecision field.
Proof. solve_decision. Defined.

(** A format, cut into what its regular expression is made of: a literal
    character, a run of white space ([\s+]), or a named group. *)
Inductive token :=
| TLit (c : ascii)
| TSpace
| TField (f : field).

Definition directive (c : ascii) : option token :=
  if bool_decide (c = "%"%char) then Some (TLit "%")
  else if bool_decide (c = "Y"%char) then Some (TField FY)
  else if bool_decide (c = "y"%char) then Some (TField Fy)
  else if bool_decide (c = "m"%char) then Some (TField Fm)
  else if bool_decide (c = "d"%char) then Some (TField Fd)
  else if bool_decide (c = "H"%char) then Some (TField FH)
  else if bool_decide (c = "M"%char) then Some (TField FM)
  else if bool_decide (c = "S"%char) then Some (TField FS)
  else if bool_decide (c = "f"%char) then Some (TField Ff)
  else None.

(** The tokens of [fmt].  [after_space] says that the previous character
    was white space, [after_percent] that it was an unconsumed [%]. *)
Fixpoint tokens (whole fmt : string) (after_space after_percent : bool)
    : result (list token) :=
  match fmt with
  | EmptyString =>
      if after_percent
      then Raise (Exn ValueError ("stray % in format " +:+ repr_str whole))
      else Return []
  | String c fmt' =>
      if after_percent then
        match directive c with
        | Some t =>
            let* ts := tokens whole fmt' false false in
            Return (t :: ts)
        | None =>
            Raise (Exn ValueError
                     ("'" +:+ (if isspace c || contains (String c "") "\.^$*+?(){}[]|"
                               then "%" else String c "")
                      +:+ "' is a bad directive in format " +:+ repr_str whole))
        end
      else if bool_decide (c = "%"%char) then tokens whole fmt' false true
      else if isspace c then
        let* ts := tokens whole fmt' true false in
        Return (if after_space then ts else TSpace :: ts)
      else
        let* ts := tokens whole fmt' false false in
        Return (TLit c :: ts)
  end.

Definition token_fields (ts : list token) : list field :=
  omap (λ t, match t with TField f => Some f | _ => None end) ts.

(** The compiled format; a group that occurs twice is an [re.error]. *)
Definition compile_format (fmt : string) : result (list token) :=
  let* ts := tokens fmt fmt false false in
  if bool_decide (NoDup (token_fields ts)) then Return ts
  else Raise (Exn ReError "redefinition of group name").

Definition between (lo hi : string) (c : ascii) : bool :=
  match lo, hi with
  | String l _, String h _ => ((code l <=? code c) && (code c <=? code h))%N
  | _, _ => false
  end.

Definition digit : ascii → bool := between "0" "9".

(** The alternatives of a group, in the order of its regular expression;
    an alternative is a sequence of character classes. *)
Definition alternatives (f : field) : list (list (ascii → bool)) :=
  match f with
  | FY => [[digit; digit; digit; digit]]
  | Fy => [[digit; digit]]
  | Fm => [[between "1" "1"; between "0" "2"]; [between "0" "0"; between "1" "9"];
           [between "1" "9"]]
  | Fd => [[between "3" "3"; between "0" "1"]; [between "1" "2"; digit];
           [between "0" "0"; between "1" "9"]; [between "1" "9"];
           [between " " " "; between "1" "9"]]
  | FH => [[between "2" "2"; between "0" "3"]; [between "0" "1"; digit]; [digit]]
  | FM => [[between "0" "5"; digit]; [digit]]
  | FS => [[between "6" "6"; between "0" "1"]; [between "0" "5"; digit]; [digit]]
  | Ff => [[digit; digit; digit; digit; digit; digit];
           [digit; digit; digit; digit; digit]; [digit; digit; digit; digit];
           [digit; digit; digit]; [digit; digit]; [digit]]
  end.

(** The text an alternative matches at the head of [s], and the rest. *)
Fixpoint match_classes (classes : list (ascii → bool)) (s : string)
    : option (string * string) :=
  match classes, s with
  | [], _ => Some (EmptyString, s)
  | cl :: classes', String c s' =>
      if cl c then
        match match_classes classes' s' with
        | Some (text, rest) => Some (String c text, rest)
        | None => None
        end
      else None
  | _ :: _, EmptyString => None
  end.

(** What is left of [s] after one, two, ... white-space characters, the
    longest run first. *)
Fixpoint after_spaces (s : string) : list string :=
  match s with
  | String c s' => if isspace c then after_spaces s' ++ [s'] else []
  | EmptyString => []
  end.

Abbreviation groups := (list (field * string)).

(** The ways a token can match at the head of [s], best first. *)
Definition candidates (t : token) (s : string) (found : groups)
    : list (groups * string) :=
  match t with
  | TLit c =>
      match s with
      | String c' s' =>
          if bool_decide (lower_char c = lower_char c') then [(found, s')] else []
      | EmptyString => []
      end
  | TSpace => (λ s', (found, s')) <$> after_spaces s
  | TField f =>
      omap (λ classes,
              match match_classes classes s with
              | Some (text, rest) => Some (found ++ [(f, text)], rest)
              | None => None
              end) (alternatives f)
  end.

Fixpoint first_success {A B} (f : A → option B) (l : list A) : option B :=
  match l with
  | [] => None
  | a :: l' => match f a with Some b => Some b | None => first_success f l' end
  end.

(** [format_regex.match(data_string)]: the first match in the order of
    backtracking, and what it leaves unread. *)
Fixpoint match_tokens (ts : list token) (s : string) (found : groups)
    : option (groups * string) :=
  match ts with
  | [] => Some (found, s)
  | t :: ts' =>
      first_success (λ c, match_tokens ts' (snd c) (fst c)) (candidates t s found)
  end.

Definition int_of_text (s : string) : Z := default 0 (int_of_string s).

(** The fields of the result, in the order of the groups. *)
Definition set_field (dt : datetime) (g : field * string) : datetime :=
  let v := int_of_text (snd g) in
  let d := dt_date dt in
  match fst g with
  | FY => DateTime (Date v (month d) (day d)) (hour dt) (minute dt) (second dt)
            (microsecond dt)
  | Fy => DateTime (Date (if v <=? 68 then 2000 + v else 1900 + v) (month d) (day d))
            (hour dt) (minute dt) (second dt) (microsecond dt)
  | Fm => DateTime (Date (year d) v (day d)) (hour dt) (minute dt) (second dt)
            (microsecond dt)
  | Fd => DateTime (Date (year d) (month d) v) (hour dt) (minute dt) (second dt)
            (microsecond dt)
  | FH => DateTime d v (minute dt) (second dt) (microsecond dt)
  | FM => DateTime d (hour dt) v (second dt) (microsecond dt)
  | FS => DateTime d (hour dt) (minute dt) v (microsecond dt)
  | Ff => DateTime d (hour dt) (minute dt) (second dt)
            (int_of_text (snd g +:+ zeros (6 - Z.of_nat (String.length (snd g)))))
  end.

Definition is_leap (y : Z) : bool :=
  (y mod 4 =? 0) && (negb (y mod 100 =? 0) || (y mod 400 =? 0)).

Definition days_in_month (y m : Z) : Z :=
  if m =? 2 then (if is_leap y then 29 else 28)
  else if (m =? 4) || (m =? 6) || (m =? 9) || (m =? 11) then 30
  else 31.

(** The checks of the [datetime] constructor. *)
Definition check_datetime (dt : datetime) : result datetime :=
  let d := dt_date dt in
  if negb ((1 <=? year d) && (year d <=? 9999))
  then Raise (Exn ValueError ("year " +:+ str_int (year d) +:+ " is out of range"))
  else if negb ((1 <=? month d) && (month d <=? 12))
  then Raise (Exn ValueError "month must be in 1..12")
  else if negb ((1 <=? day d) && (day d <=? days_in_month (year d) (month d)))
  then Raise (Exn ValueError "day is out of range for month")
  else if negb ((0 <=? hour dt) && (hour dt <=? 23))
  then Raise (Exn ValueError "hour must be in 0..23")
  else if negb ((0 <=? minute dt) && (minute dt <=? 59))
  then Raise (Exn ValueError "minute must be in 0..59")
  else if negb ((0 <=? second dt) && (second dt <=? 59))
  then Raise (Exn ValueError "second must be in 0..59")
  else Return dt.

(** [datetime.strptime(data_string, fmt)] *)
Definition strptime (data_string fmt : string) : result datetime :=
  let* ts := compile_format fmt in
  match match_tokens ts data_string [] with
  | None =>
      Raise (Exn ValueError
               ("time data " +:+ repr_str data_string
                +:+ " does not match format " +:+ repr_str fmt))
  | Some (found, rest) =>
      if negb (bool_decide (rest = EmptyString))
      then Raise (Exn ValueError ("unconverted data remains: " +:+ rest))
      else check_datetime
             (foldl set_field (DateTime (Date 1900 1 1) 0 0 0 0) found)
  end.

(** ** [strftime] *)

Definition format_directive (dt : datetime) (c : ascii) : string :=
  let d := dt_date dt in
  if bool_decide (c = "%"%char) then "%"
  else if bool_decide (c = "Y"%char) then str_int (year d)
  else if bool_decide (c = "y"%char) then zfill 2 (str_int (year d mod 100))
  else if bool_decide (c = "m"%char) then zfill 2 (str_int (month d))
  else if bool_decide (c = "d"%char) then zfill 2 (str_int (day d))
  else if bool_decide (c = "H"%char) then zfill 2 (str_int (hour dt))
  else if bool_decide (c = "M"%char) then zfill 2 (str_int (minute dt))
  else if bool_decide (c = "S"%char) then zfill 2 (str_int (second dt))
  else if bool_decide (c = "f"%char) then zfill 6 (str_int (microsecond dt))
  else if bool_decide (c = "z"%char) || bool_decide (c = "Z"%char) then ""
  else String "%" (String c "").

Fixpoint format_datetime (dt : datetime) (fmt : string) (after_percent : bool)
    : string :=
  match fmt with
  | EmptyString => if after_percent then "%" else ""
  | String c fmt' =>
      if after_percent
      then format_directive dt c +:+ format_datetime dt fmt' false
      else if bool_decide (c = "%"%char) then format_datetime dt fmt' true
      else String c (format_datetime dt fmt' false)
  end.

(** [dt.strftime(fmt)] *)
Definition strftime (dt : datetime) (fmt : string) : result string :=
  Return (format_datetime dt fmt false).

(** The reference runtime. *)
Definition runtime : Py.runtime :=
  Runtime float_repr float_of_string decimal_of_string strptime strftime.

End Ref.

(* ===================================================================== *)
(** * Table names ([postgres_loader.split_table_name], [schema_utils.py]) *)
(* ===================================================================== *)

(** [split_table_name] *)
Definition split_table_name (table_name : string) : string * string :=
  match split_once "." table_name with
  | Some (schema, table) => (schema, table)
  | None => ("public", table_name)
  end.

(** [normalize_table_name] *)
Definition normalize_table_name (table_name : string) : string :=
  let '(schema, table) := split_table_name table_name in
  lower schema +:+ "." +:+ lower table.

(* ===================================================================== *)
(** * Statements with effects *)
(* ===================================================================== *)

(** A block of statements that reads and updates a state of type [S] and
    may raise: the state reached is kept when an exception leaves the
    block. *)
Definition action (S A : Type) : Type := S → result A * S.

Definition pure {S A} (a : A) : action S A := λ s, (Return a, s).

Definition throw {S A} (e : exn) : action S A := λ s, (Raise e, s).

Definition lift {S A} (r : result A) : action S A := λ s, (r, s).

Definition seq {S A B} (m : action S A) (k : A → action S B) : action S B :=
  λ s, match m s with
       | (Return a, s') => k a s'
       | (Raise e, s') => (Raise e, s')
       end.

Definition get {S} : action S S := λ s, (Return s, s).

Definition modify {S} (f : S → S) : action S unit := λ s, (Return tt, f s).

(** [try: body  except Exception as exc: handler] *)
Definition catch {S A} (body : action S A) (handler : exn → action S A)
    : action S A :=
  λ s, match body s with
       | (Return a, s') => (Return a, s')
       | (Raise e, s') => handler e s'
       end.

(** [try: body  except cls as exc: handler] *)
Definition catch_class {S A} (cls : exn_class) (body : action S A)
    (handler : exn → action S A) : action S A :=
  catch body (λ e, if bool_decide (exn_cls e = cls) then handler e else throw e).

(** [try: body  finally: cleanup] *)
Definition finally {S A} (body : action S A) (cleanup : action S unit)
    : action S A :=
  λ s, match body s with
       | (r, s') =>
           match cleanup s' with
           | (Return _, s'') => (r, s'')
           | (Raise e, s'') => (Raise e, s'')
           end
       end.

Notation "x <- e1 ;; e2" := (seq e1 (λ x, e2))
  (at level 100, e1 at next level, right associativity).
Notation "e1 ;;; e2" := (seq e1 (λ _, e2))
  (at level 100, right associativity).

(** [for x in xs: body x] *)
Fixpoint for_each {S A} (xs : list A) (body : A → action S unit)
    : action S unit :=
  match xs with
  | [] => pure tt
  | x :: xs' => body x ;;; for_each xs' body
  end.

(* ===================================================================== *)
(** * [ensure_database] ([postgres_loader.py]) *)
(* ===================================================================== *)

(** The keyword arguments of [psycopg2.connect]. *)
Record connection_params := ConnectionParams {
  cp_host : string;
  cp_port : Z;
  cp_dbname : string;
  cp_user : string;
  cp_password : string;
  cp_sslmode : option string
}.

(** The [database] section of the application config.  The five keys that
    [validate_app_config] requires are fields; the optional keys are [Some]
    when the dict has them. *)
Record db_config := DbConfig {
  host : string;
  port : Z;
  name : string;
  user : string;
  password : string;
  sslmode : option string;
  create_if_missing : option value;
  admin_db : option string
}.

(** What [ensure_database] asks of the database server, in order. *)
Inductive server_event :=
| Connect (params : connection_params)
| Close
| SelectDatabase (datname : string)
| CreateDatabase (datname : string).

(** How the server answers.  [select_database] is the truth of
    [cursor.fetchone() is not None] after the query on [pg_database].
    Switching the administrative connection to autocommit and opening its
    cursor happen on the client and leave no event. *)
Record server := Server {
  connect : connection_params → result unit;
  select_database : string → result bool;
  create_database : string → result unit
}.

Section EnsureDatabase.
Variable srv : server.

Definition ask {A} (ev : server_event) (answer : result A)
    : action (list server_event) A :=
  λ trace, (answer, trace ++ [ev]).

Definition psycopg2_connect (params : connection_params)
    : action (list server_event) unit :=
  ask (Connect params) (connect srv params).

Definition connection_close : action (list server_event) unit :=
  ask Close (Return tt).

(** [db_config.get("create_if_missing", True)], as a condition. *)
Definition auto_create (db_config : db_config) : bool :=
  truthy (default (PBool true) (create_if_missing db_config)).

(** [sslmode = db_config.get("sslmode")]; [if sslmode: params["sslmode"] = sslmode] *)
Definition sslmode_param (db_config : db_config) : option string :=
  match sslmode db_config with
  | Some s => if truthy (PStr s) then Some s else None
  | None => None
  end.

(** [ensure_database].  The local variable [connection] is bound in the
    second [try] exactly when the administrative connect has returned, so
    the [finally] clause closes that connection and only then. *)
Definition ensure_database (db_config : db_config)
    : action (list server_event) unit :=
  if negb (auto_create db_config) then pure tt
  else
    let connection_params :=
      ConnectionParams (host db_config) (port db_config) (name db_config)
        (user db_config) (password db_config) (sslmode_param db_config) in
    reachable <-
      catch_class OperationalError
        (psycopg2_connect connection_params ;;;
         connection_close ;;;
         pure true)
        (λ exc,
           let message := exn_msg exc in
           if negb (contains "does not exist" message) then
             throw (Exn LoadError ("Failed to connect to PostgreSQL: " +:+ message))
           else if negb (auto_create db_config) then
             throw (Exn LoadError
                      ("Database '" +:+ name db_config
                       +:+ "' does not exist and auto-create is disabled."))
           else pure false) ;;
    if (reachable : bool) then pure tt
    else
      let admin_db := default "postgres" (admin_db db_config) in
      let admin_params :=
        ConnectionParams (host db_config) (port db_config) admin_db
          (user db_config) (password db_config) (sslmode_param db_config) in
      let wrap exc :=
        throw (Exn LoadError ("Failed to create database '" +:+ name db_config
                              +:+ "': " +:+ exn_msg exc)) in
      catch (psycopg2_connect admin_params) wrap ;;;
      finally
        (catch
           (exists_ <- ask (SelectDatabase (name db_config))
                         (select_database srv (name db_config)) ;;
            if (exists_ : bool) then pure tt
            else ask (CreateDatabase (name db_config))
                   (create_database srv (name db_config)))
           wrap)
        connection_close.

End EnsureDatabase.

(* ===================================================================== *)
(** * Configuration, as [validate_app_config] and
      [validate_mapping_config] let it through *)
(* ===================================================================== *)

(** [audit.status_values] *)
Record status_values := StatusValues {
  sv_success : string;
  sv_error : string;
  sv_missing : string
}.

(** [audit.object_status_values] *)
Record object_status_values := ObjectStatusValues {
  osv_new : string;
  osv_missing : string;
  osv_already_exists : string
}.

(** [audit.audit_columns]: the column of the audit table that holds each
    logical field. *)
Record audit_columns := AuditColumns {
  ac_ingested_at : string;
  ac_object_id : string;
  ac_source_collection : string;
  ac_object_name : string;
  ac_object_status : string;
  ac_missing_columns : string;
  ac_processing_status : string
}.

(** The [audit] section.  [business_columns] and [business_column_types]
    are dicts from logical names to column names and to SQL types, in
    iteration order. *)
Record audit_config := AuditConfig {
  audit_table : string;
  audit_schema : option string;
  audit_columns_of : audit_columns;
  business_columns : list (string * string);
  business_column_types : list (string * string);
  status_values_of : status_values;
  object_status_values_of : object_status_values
}.

(** The [runtime] section. *)
Record runtime_config := RuntimeConfig {
  date_formats : list string;
  date_output_format : string;
  datetime_output_format : string;
  type_mappings : list (string * string)
}.

(** One entry of [collections] in the mapping config. *)
Record collection_config := CollectionConfig {
  target_table : string;
  raw_json_column : string;
  object_id_attribute : string;
  mappings : list (string * mapping)
}.

(** [d[key]] and [key in d] for a dict from strings to strings. *)
Fixpoint str_item (key : string) (d : list (string * string)) : result string :=
  match d with
  | [] => Raise (Exn KeyError ("'" +:+ key +:+ "'"))
  | (k, v) :: d' => if bool_decide (k = key) then Return v else str_item key d'
  end.

Definition str_contains (key : string) (d : list (string * string)) : bool :=
  bool_decide (key ∈ d.*1).

(** [get_collection_mapping]: [collections.get(collection_name)] *)
Fixpoint get_collection_mapping
    (mapping_config : list (string * collection_config))
    (collection_name : string) : option collection_config :=
  match mapping_config with
  | [] => None
  | (k, c) :: rest =>
      if bool_decide (k = collection_name) then Some c
      else get_collection_mapping rest collection_name
  end.

(* ===================================================================== *)
(** * Table provisioning ([schema_manager.py]) *)
(* ===================================================================== *)

(** A column of [create_table]: [{"name": .., "type": .., "not_null": ..}]. *)
Record column_def := ColumnDef {
  col_name : string;
  col_type : string;
  col_not_null : bool
}.

(** [normalize_type_mappings]: a dict comprehension, so of two keys with
    one normal form the later one decides. *)
Definition normalize_type_mappings (type_mappings : list (string * string))
    : gmap string string :=
  foldl (λ acc kv, <[normalize_type (fst kv) := snd kv]> acc) ∅ type_mappings.

(** [_add_column] on the pair [(columns, column_names)]. *)
Definition _add_column (acc : list column_def * gset string)
    (name sql_type : string) (not_null : bool)
    : result (list column_def * gset string) :=
  let '(columns, column_names) := acc in
  if bool_decide (name ∈ column_names)
  then Raise (Exn ConfigError ("Duplicate column name detected: " +:+ name))
  else Return (columns ++ [ColumnDef name sql_type not_null],
               column_names ∪ {[name]}).

Fixpoint add_mapping_columns (normalized_type_mappings : gmap string string)
    (entries : list (string * mapping)) (acc : list column_def * gset string)
    : result (list column_def * gset string) :=
  match entries with
  | [] => Return acc
  | (_, mapping) :: rest =>
      let column_name := column mapping in
      let normalized_type := normalize_type (type mapping) in
      match normalized_type_mappings !! normalized_type with
      | None =>
          Raise (Exn ConfigError
                   ("Missing SQL type mapping for '" +:+ type mapping
                    +:+ "' in runtime.type_mappings."))
      | Some sql_type =>
          let* acc' := _add_column acc column_name sql_type false in
          add_mapping_columns normalized_type_mappings rest acc'
      end
  end.

Fixpoint add_business_columns (business_column_types : list (string * string))
    (entries : list (string * string)) (acc : list column_def * gset string)
    : result (list column_def * gset string) :=
  match entries with
  | [] => Return acc
  | (logical_name, column_name) :: rest =>
      if negb (str_contains logical_name business_column_types)
      then Raise (Exn ConfigError
                    ("Missing audit.business_column_types for '"
                     +:+ logical_name +:+ "'."))
      else
        let* sql_type := str_item logical_name business_column_types in
        let* acc' := _add_column acc column_name sql_type true in
        add_business_columns business_column_types rest acc'
  end.

(** [build_table_columns] *)
Definition build_table_columns (mappings : list (string * mapping))
    (raw_json_column : string) (type_mappings : list (string * string))
    (business_columns business_column_types : list (string * string))
    : result (list column_def) :=
  let normalized_type_mappings := normalize_type_mappings type_mappings in
  let* acc := add_mapping_columns normalized_type_mappings mappings ([], ∅) in
  let* acc := _add_column acc raw_json_column "JSONB" true in
  let* acc := add_business_columns business_column_types business_columns acc in
  Return (fst acc).

(* ===================================================================== *)
(** * Audit rows ([audit.py]) *)
(* ===================================================================== *)

(** A row handed to [insert_row]: column name to value. *)
Abbreviation row := (gmap string value).

(** [build_business_audit_fields]; [now] is [datetime.now(timezone.utc)]. *)
Definition build_business_audit_fields (audit_config : audit_config)
    (now : datetime) (collection_name status : string) : result row :=
  let columns := business_columns audit_config in
  let* ingested_at := str_item "ingested_at" columns in
  let* source_collection := str_item "source_collection" columns in
  let* status_column := str_item "status" columns in
  Return (<[status_column := PStr status]>
            (<[source_collection := PStr collection_name]>
               (<[ingested_at := PDateTime now]> ∅))).

(** [build_audit_row]; [now] is [datetime.now(timezone.utc)].  A dict
    display: of two entries with one key the later one stays. *)
Definition build_audit_row (audit_config : audit_config) (now : datetime)
    (object_id source_collection : value) (object_name object_status : string)
    (missing_columns : list string) (processing_status : string) : row :=
  let columns := audit_columns_of audit_config in
  <[ac_processing_status columns := PStr processing_status]>
    (<[ac_missing_columns columns := PList (PStr <$> missing_columns)]>
       (<[ac_object_status columns := PStr object_status]>
          (<[ac_object_name columns := PStr object_name]>
             (<[ac_source_collection columns := source_collection]>
                (<[ac_object_id columns := object_id]>
                   (<[ac_ingested_at columns := PDateTime now]> ∅)))))).

(* ===================================================================== *)
(** * The run report ([reporting.py]) *)
(* ===================================================================== *)

Record PipelineReport := Report {
  missing_collections : gset string;
  unmapped_collections : gset string;
  missing_tables_db : gset string;
  missing_tables_input : gset string;
  processed_counts : gmap string nat;
  error_counts : gmap string nat;
  insert_failures : gmap string nat;
  object_statuses : gmap string string;
  missing_columns_by_object : gmap string (gset string);
  missing_columns_count : nat;
  ingestion_date : string
}.

Definition empty_report : PipelineReport :=
  Report ∅ ∅ ∅ ∅ ∅ ∅ ∅ ∅ ∅ 0 "".

(** [counts[key] += 1] on a [defaultdict(int)] *)
Definition increment (key : string) (counts : gmap string nat) : gmap string nat :=
  <[key := S (default 0 (counts !! key))]> counts.

(** [PipelineReport.record_document] *)
Definition record_document (collection_name : string)
    (had_errors insert_failed : bool) (r : PipelineReport) : PipelineReport :=
  if insert_failed then
    Report (missing_collections r) (unmapped_collections r) (missing_tables_db r)
      (missing_tables_input r) (processed_counts r) (error_counts r)
      (increment collection_name (insert_failures r)) (object_statuses r)
      (missing_columns_by_object r) (missing_columns_count r) (ingestion_date r)
  else
    Report (missing_collections r) (unmapped_collections r) (missing_tables_db r)
      (missing_tables_input r) (increment collection_name (processed_counts r))
      (if had_errors then increment collection_name (error_counts r)
       else error_counts r)
      (insert_failures r) (object_statuses r)
      (missing_columns_by_object r) (missing_columns_count r) (ingestion_date r).

(** [PipelineReport.record_object_status] *)
Definition record_object_status (object_name status : string)
    (r : PipelineReport) : PipelineReport :=
  Report (missing_collections r) (unmapped_collections r) (missing_tables_db r)
    (missing_tables_input r) (processed_counts r) (error_counts r)
    (insert_failures r) (<[object_name := status]> (object_statuses r))
    (missing_columns_by_object r) (missing_columns_count r) (ingestion_date r).

(** [PipelineReport.record_missing_columns] *)
Definition record_missing_columns (object_name : string)
    (missing_columns : list string) (r : PipelineReport) : PipelineReport :=
  match missing_columns with
  | [] => r
  | _ =>
      Report (missing_collections r) (unmapped_collections r) (missing_tables_db r)
        (missing_tables_input r) (processed_counts r) (error_counts r)
        (insert_failures r) (object_statuses r)
        (<[object_name :=
             default ∅ (missing_columns_by_object r !! object_name)
             ∪ list_to_set missing_columns]> (missing_columns_by_object r))
        (S (missing_columns_count r)) (ingestion_date r)
  end.

Definition add_unmapped_collection (collection_name : string)
    (r : PipelineReport) : PipelineReport :=
  Report (missing_collections r) (unmapped_collections r ∪ {[collection_name]})
    (missing_tables_db r) (missing_tables_input r) (processed_counts r)
    (error_counts r) (insert_failures r) (object_statuses r)
    (missing_columns_by_object r) (missing_columns_count r) (ingestion_date r).

Definition add_missing_table_db (table : string)
    (r : PipelineReport) : PipelineReport :=
  Report (missing_collections r) (unmapped_collections r)
    (missing_tables_db r ∪ {[table]}) (missing_tables_input r)
    (processed_counts r) (error_counts r) (insert_failures r)
    (object_statuses r) (missing_columns_by_object r)
    (missing_columns_count r) (ingestion_date r).

(* ===================================================================== *)
(** * The persistence gateway ([PostgresLoader]) *)
(* ===================================================================== *)

(** What the gateway sends over its connection. *)
Inductive statement :=
| SelectTable (schema table : string)
| CreateSchema (schema : string)
| CreateTable (schema table : string) (columns : list column_def)
| InsertRow (schema table : string) (values : row)
| Commit
| Rollback.

(** The state of a run between the opening and the closing of the
    connection.
    - [tables]: the rows [(table_schema, table_name)] of
      [information_schema.tables].  The orchestrator commits right after it
      creates a table, so what a roll back would take out of the catalog
      is not tracked.
    - [sent]: the statements sent so far, oldest first, whether they
      succeeded or not.
    - [ticks]: how often the clock was read.
    - [report]: the run's [PipelineReport]. *)
Record state := State {
  tables : gset (string * string);
  sent : list statement;
  ticks : nat;
  report : PipelineReport
}.

Definition with_report (f : PipelineReport → PipelineReport)
    : action state unit :=
  modify (λ st, State (tables st) (sent st) (ticks st) (f (report st))).

Section Gateway.

(** The environment of a run: [fault n] is the exception with which the
    server answers the [n]-th statement ([None]: the statement succeeds),
    and [clock n] is the [n]-th reading of [datetime.now(timezone.utc)]. *)
Variable fault : nat → option exn.
Variable clock : nat → datetime.

Definition effect (stmt : statement) (cat : gset (string * string))
    : gset (string * string) :=
  match stmt with
  | CreateTable schema table _ => cat ∪ {[(schema, table)]}
  | _ => cat
  end.

(** [cursor.execute(...)], [connection.commit()], [connection.rollback()] *)
Definition execute (stmt : statement) : action state unit :=
  λ st,
    let n := length (sent st) in
    match fault n with
    | Some e => (Raise e, State (tables st) (sent st ++ [stmt]) (ticks st) (report st))
    | None =>
        (Return tt,
         State (effect stmt (tables st)) (sent st ++ [stmt]) (ticks st) (report st))
    end.

(** [datetime.now(timezone.utc)] *)
Definition now : action state datetime :=
  λ st, (Return (clock (ticks st)),
         State (tables st) (sent st) (S (ticks st)) (report st)).

(** [PostgresLoader.commit] *)
Definition commit : action state unit := execute Commit.

(** [PostgresLoader.rollback]: [connection.rollback()] is a call to the
    server like the others, and can fail. *)
Definition rollback : action state unit := execute Rollback.

(** [PostgresLoader.table_exists]: the query compares [table_schema] and
    [table_name] with the two parts of [split_table_name(table_name)]. *)
Definition table_exists (table_name : string) : action state bool :=
  let '(schema, table) := split_table_name table_name in
  execute (SelectTable schema table) ;;;
  st <- get ;;
  pure (bool_decide ((schema, table) ∈ tables st)).

(** [PostgresLoader.insert_row].  The statement carries the row as it is
    given; adapting dict and list values for the driver ([prepare_value]) is
    part of sending it. *)
Definition insert_row (table_name : string) (values : row) : action state unit :=
  if bool_decide (values = ∅)
  then throw (Exn LoadError "Cannot insert empty row.")
  else
    let '(schema, table) := split_table_name table_name in
    execute (InsertRow schema table values).

(** [PostgresLoader.create_table] *)
Definition create_table (table_name : string) (columns : list column_def)
    : action state unit :=
  match columns with
  | [] => throw (Exn LoadError "Cannot create table without columns.")
  | _ =>
      let '(schema, table) := split_table_name table_name in
      execute (CreateTable schema table columns)
  end.

(** [PostgresLoader.create_schema] *)
Definition create_schema (schema_name : string) : action state unit :=
  if negb (truthy (PStr schema_name))
  then throw (Exn LoadError "Schema name is required.")
  else execute (CreateSchema schema_name).

End Gateway.

(* ===================================================================== *)
(** * The orchestrator ([pipeline.run], from the collection loop on) *)
(* ===================================================================== *)

(** The calls to the logger are left out: they change neither the state of
    the run nor its control flow. *)

(** Whether the loop that builds [schema_tables_no_audit] keeps a table of
    the schema source: not when its schema is the audit schema, and not
    when it is the audit table. *)
Definition keeps_schema_table (audit_config : audit_config) (table : string)
    : bool :=
  let schema := (split_table_name table).1 in
  let in_audit_schema :=
    match audit_schema audit_config with
    | Some audit_schema =>
        truthy (PStr audit_schema)
        && bool_decide (lower schema = lower audit_schema)
    | None => false
    end in
  negb in_audit_schema
  && negb (bool_decide
             (table = normalize_table_name (audit_table audit_config))).

(** [schema_tables_no_audit], from [schema_tables], the names that
    [load_schema_tables] has read in the schema source and normalized. *)
Definition schema_tables_without_audit (audit_config : audit_config)
    (schema_tables : gset string) : gset string :=
  filter (λ table, keeps_schema_table audit_config table = true) schema_tables.

Section Orchestrator.
Variable rt : runtime.
Variable fault : nat → option exn.
Variable clock : nat → datetime.

(** What [run] has read and computed before it opens the connection. *)
Variable runtime_config : runtime_config.
Variable audit_config : audit_config.
Variable mapping_config : list (string * collection_config).
Variable schema_tables_no_audit : gset string.

(** [audit_config["status_values"]["error"] if errors else
     audit_config["status_values"]["success"]] *)
Definition business_status_of (errors : list string) : string :=
  match errors with
  | [] => sv_success (status_values_of audit_config)
  | _ => sv_error (status_values_of audit_config)
  end.

(** [bool(errors)] *)
Definition had_errors (errors : list string) : bool :=
  match errors with [] => false | _ => true end.

(** The business insert of a document: the [if table_exists: ... else: ...]
    of the document loop.  Returns [(processing_status, insert_failed)]. *)
Definition insert_business_row (collection_name : string)
    (collection_config : collection_config) (table_exists : bool)
    (document : dict) (transformed : row) (business_status : string)
    : action state (string * bool) :=
  let processing_status := business_status in
  if table_exists then
    ingested_at <- now clock ;;
    fields <- lift (build_business_audit_fields audit_config ingested_at
                      collection_name business_status) ;;
    let values : row :=
      fields ∪ <[raw_json_column collection_config := PDict document]> transformed in
    catch
      (insert_row fault (target_table collection_config) values ;;;
       pure (processing_status, false))
      (λ exc,
         rollback fault ;;;
         pure (sv_error (status_values_of audit_config), true))
  else pure (sv_missing (status_values_of audit_config), true).

(** The audit insert of a document: the [try]/[except] around
    [loader.insert_row(audit_table, audit_row)]. *)
Definition insert_audit_row (collection_name : string) (audit_row : row)
    (had_errors insert_failed : bool) : action state unit :=
  catch
    (insert_row fault (audit_table audit_config) audit_row ;;;
     commit fault ;;;
     with_report (record_document collection_name had_errors insert_failed))
    (λ exc,
       rollback fault ;;;
       with_report (record_document collection_name had_errors true)).

(** The body of [for index, document in enumerate(documents)]. *)
Definition process_document (collection_name : string)
    (collection_config : collection_config) (object_status : string)
    (table_exists : bool) (document : dict) : action state unit :=
  let target_table := target_table collection_config in
  result <- lift (transform_document rt document (mappings collection_config)
                    (date_formats runtime_config)
                    (date_output_format runtime_config)
                    (datetime_output_format runtime_config)) ;;
  let missing_columns := missing_columns result in
  let errors := errors result in
  with_report (record_missing_columns target_table missing_columns) ;;;
  let business_status := business_status_of errors in
  let object_id := dict_get (object_id_attribute collection_config) document in
  outcome <- insert_business_row collection_name collection_config table_exists
               document (transformed result) business_status ;;
  let '(processing_status, insert_failed) := outcome in
  ingested_at <- now clock ;;
  let audit_row :=
    build_audit_row audit_config ingested_at
      (match object_id with PNone => PNone | _ => PStr (py_str rt object_id) end)
      (PStr collection_name) target_table object_status missing_columns
      processing_status in
  insert_audit_row collection_name audit_row (had_errors errors) insert_failed.

(** The object status of a collection's table. *)
Definition object_status_of (table_exists table_in_schema : bool) : string :=
  if table_exists then osv_already_exists (object_status_values_of audit_config)
  else if negb table_in_schema then osv_new (object_status_values_of audit_config)
  else osv_missing (object_status_values_of audit_config).

(** [_ensure_schema] *)
Definition _ensure_schema (table_name : string) : action state unit :=
  create_schema fault (fst (split_table_name table_name)).

(** The table of a collection, from [loader.table_exists(target_table)] to
    [report.missing_tables_db.add(target_table)]: the object status, and
    whether the table exists when the documents are processed. *)
Definition provision_table (collection_config : collection_config)
    : action state (string * bool) :=
  let target_table := target_table collection_config in
  let normalized_table := normalize_table_name target_table in
  let table_in_schema :=
    bool_decide (normalized_table ∈ schema_tables_no_audit) in
  table_exists <- table_exists fault target_table ;;
  let object_status := object_status_of table_exists table_in_schema in
  with_report (record_object_status target_table object_status) ;;;
  table_exists <-
    (if negb table_exists && negb table_in_schema then
       _ensure_schema target_table ;;;
       table_columns <-
         lift (build_table_columns (mappings collection_config)
                 (raw_json_column collection_config)
                 (type_mappings runtime_config)
                 (business_columns audit_config)
                 (business_column_types audit_config)) ;;
       create_table fault target_table table_columns ;;;
       commit fault ;;;
       pure true
     else pure table_exists) ;;
  (if table_in_schema && negb table_exists
   then with_report (add_missing_table_db target_table)
   else pure tt) ;;;
  pure (object_status, table_exists).

(** The body of [for collection_name, documents in input_data.items()]. *)
Definition process_collection (collection_name : string)
    (documents : list dict) : action state unit :=
  match get_collection_mapping mapping_config collection_name with
  | None => with_report (add_unmapped_collection collection_name)
  | Some collection_config =>
      provisioned <- provision_table collection_config ;;
      for_each documents
        (process_document collection_name collection_config provisioned.1
           provisioned.2)
  end.

(** The loop over [input_data.items()] inside [with PostgresLoader(...)],
    the loader's [__exit__] (roll back when an exception leaves the block,
    commit otherwise), and the two [except] clauses of [run] around it. *)
Definition load_collections (input_data : list (string * list dict))
    : action state unit :=
  catch
    (catch
       (for_each input_data (λ kv, process_collection (fst kv) (snd kv)))
       (λ exc, rollback fault ;;; throw exc) ;;;
     commit fault)
    (λ exc,
       if bool_decide (exn_cls exc = LoadError) then throw exc
       else throw (Exn LoadError (exn_msg exc))).

End Orchestrator.

(* ===================================================================== *)
(** * The totals of the summary ([PipelineReport.log_summary]) *)
(* ===================================================================== *)

(** The totals that [PipelineReport.log_summary] computes for its KPI
    lines.  [sum_values counts] is [sum(counts.values())]. *)
Definition sum_values (counts : gmap string nat) : nat :=
  map_fold (λ _ n total, n + total) 0 counts.

Definition total_processed (r : PipelineReport) : nat :=
  sum_values (processed_counts r).

Definition total_failures (r : PipelineReport) : nat :=
  sum_values (insert_failures r).

Definition total_errors (r : PipelineReport) : nat :=
  sum_values (error_counts r).

Definition total_docs (r : PipelineReport) : nat :=
  total_processed r + total_failures r.

(** [max(total_processed - total_errors, 0)] *)
Definition successful_docs (r : PipelineReport) : Z :=
  Z.max (Z.of_nat (total_processed r) - Z.of_nat (total_errors r)) 0.

(* ===================================================================== *)
(** * Validation of the mapping types ([config_loader.py]) *)
(* ===================================================================== *)

(** The loop over the mappings of one collection in
    [validate_mapping_types]. *)
Fixpoint validate_collection_types
    (normalized_type_mappings : gmap string string) (collection_name : string)
    (entries : list (string * mapping)) : result unit :=
  match entries with
  | [] => Return tt
  | (source_attr, mapping) :: rest =>
      let normalized_type := normalize_type (type mapping) in
      if negb (in_set normalized_type SUPPORTED_TYPES) then
        Raise (Exn ConfigError
                 ("Unsupported mapping type '" +:+ type mapping
                  +:+ "' for attribute '" +:+ source_attr
                  +:+ "' in collection '" +:+ collection_name +:+ "'."))
      else
        match normalized_type_mappings !! normalized_type with
        | None =>
            Raise (Exn ConfigError
                     ("Missing runtime.type_mappings entry for '"
                      +:+ type mapping +:+ "' in collection '"
                      +:+ collection_name +:+ "'."))
        | Some _ =>
            validate_collection_types normalized_type_mappings collection_name rest
        end
  end.

Fixpoint validate_collections_types
    (normalized_type_mappings : gmap string string)
    (collections : list (string * collection_config)) : result unit :=
  match collections with
  | [] => Return tt
  | (collection_name, collection_config) :: rest =>
      let* _ := validate_collection_types normalized_type_mappings
                  collection_name (mappings collection_config) in
      validate_collections_types normalized_type_mappings rest
  end.

(** [validate_mapping_types], on a mapping configuration that
    [validate_mapping_config] has let through; the type names are
    strings. *)
Definition validate_mapping_types
    (mapping_config : list (string * collection_config))
    (type_mappings : list (string * string)) : result unit :=
  validate_collections_types (normalize_type_mappings type_mappings)
    mapping_config.

(* ===================================================================== *)
(** * The shape of the input ([ingestion.py]) *)
(* ===================================================================== *)

(** What [load_input_json] does with the object that [json.load] has
    read: [InputError message] stands for [raise InputError(message)]. *)
Inductive input_outcome :=
| InputData (data : list (string * list dict))
| InputError (message : string).

(** The loop [for index, document in enumerate(documents)]. *)
Fixpoint check_documents (collection_name : string) (index : nat)
    (documents : list value) : string + list dict :=
  match documents with
  | [] => inr []
  | PDict document :: rest =>
      match check_documents collection_name (S index) rest with
      | inr checked => inr (document :: checked)
      | inl message => inl message
      end
  | _ :: _ =>
      inl ("Document at index " +:+ str_int (Z.of_nat index)
           +:+ " in collection '" +:+ collection_name
           +:+ "' must be an object.")
  end.

(** The loop [for collection_name, documents in data.items()]. *)
Fixpoint check_collections (items : list (string * value))
    : string + list (string * list dict) :=
  match items with
  | [] => inr []
  | (collection_name, PList documents) :: rest =>
      match check_documents collection_name 0 documents with
      | inr checked =>
          match check_collections rest with
          | inr data => inr ((collection_name, checked) :: data)
          | inl message => inl message
          end
      | inl message => inl message
      end
  | (collection_name, _) :: _ =>
      inl ("Collection '" +:+ collection_name
           +:+ "' must map to a list of documents.")
  end.

(** [load_input_json], from [data = json.load(handle)] on. *)
Definition load_input_json (data : value) : input_outcome :=
  match data with
  | PDict items =>
      match check_collections items with
      | inr data => InputData data
      | inl message => InputError message
      end
  | _ => InputError "Input JSON must be an object keyed by collection name."
  end.

(** The object that [json.load] reads for an input of collections. *)
Definition input_object (data : list (string * list dict)) : value :=
  PDict ((λ kv, (kv.1, PList (PDict <$> kv.2))) <$> data).

(* ===================================================================== *)
(** * The database block of [pipeline.run] *)
(* ===================================================================== *)

(** The order of [sorted] on strings: by code points. *)
Definition str_le (s1 s2 : string) : Prop := String.leb s1 s2 = true.

#[global] Instance str_le_dec : RelDecision str_le.
Proof. intros s1 s2. unfold str_le. apply _. Defined.

(** [sorted(names)] for a set of strings. *)
Definition sorted (names : gset string) : list string :=
  merge_sort str_le (elements names).

(** [d.get(key)] for a dict from strings to strings. *)
Fixpoint str_get (key : string) (d : list (string * string)) : option string :=
  match d with
  | [] => None
  | (k, v) :: d' => if bool_decide (k = key) then Some v else str_get key d'
  end.

(** [report.missing_collections.update(names)],
    [report.missing_tables_input.update(names)] and
    [report.ingestion_date = ingestion_date]. *)
Definition add_missing_collections (names : gset string)
    (r : PipelineReport) : PipelineReport :=
  Report (missing_collections r ∪ names) (unmapped_collections r)
    (missing_tables_db r) (missing_tables_input r) (processed_counts r)
    (error_counts r) (insert_failures r) (object_statuses r)
    (missing_columns_by_object r) (missing_columns_count r) (ingestion_date r).

Definition add_missing_tables_input (names : gset string)
    (r : PipelineReport) : PipelineReport :=
  Report (missing_collections r) (unmapped_collections r)
    (missing_tables_db r) (missing_tables_input r ∪ names) (processed_counts r)
    (error_counts r) (insert_failures r) (object_statuses r)
    (missing_columns_by_object r) (missing_columns_count r) (ingestion_date r).

Definition set_ingestion_date (ingestion_date : string)
    (r : PipelineReport) : PipelineReport :=
  Report (missing_collections r) (unmapped_collections r)
    (missing_tables_db r) (missing_tables_input r) (processed_counts r)
    (error_counts r) (insert_failures r) (object_statuses r)
    (missing_columns_by_object r) (missing_columns_count r) ingestion_date.

Section Run.
Variable rt : runtime.
Variable fault : nat → option exn.
Variable clock : nat → datetime.

(** What [run] has read before it opens the connection: the two
    configurations, and [schema_tables], the normalized names that
    [load_schema_tables] has found in the schema source.
    [audit_columns_items] and [audit_column_types] are the items of
    [audit.audit_columns], in iteration order, and the dict
    [audit.audit_column_types]. *)
Variable runtime_config : runtime_config.
Variable audit_config : audit_config.
Variable audit_columns_items : list (string * string).
Variable audit_column_types : list (string * string).
Variable mapping_config : list (string * collection_config).
Variable schema_tables : gset string.

(** [expected_collections - input_collections] *)
Definition missing_collections_of (input_data : list (string * list dict))
    : gset string :=
  list_to_set mapping_config.*1 ∖ list_to_set input_data.*1.

(** [table_lookup] and [table_to_collection]: of two collections whose
    tables have one normal form the later one stays. *)
Definition table_lookup : gmap string string :=
  foldl (λ acc kv,
           <[normalize_table_name (target_table kv.2) := target_table kv.2]> acc)
    ∅ mapping_config.

Definition table_to_collection : gmap string string :=
  foldl (λ acc kv, <[normalize_table_name (target_table kv.2) := kv.1]> acc)
    ∅ mapping_config.

(** [input_tables]: the normalized tables of the input collections that
    have a mapping. *)
Definition input_tables (input_data : list (string * list dict))
    : gset string :=
  list_to_set
    (omap (λ kv, (λ collection_config,
                    normalize_table_name (target_table collection_config))
                 <$> get_collection_mapping mapping_config kv.1)
       input_data).

(** [missing_input_tables = schema_tables_no_audit - input_tables] *)
Definition missing_input_tables (input_data : list (string * list dict))
    : gset string :=
  schema_tables_without_audit audit_config schema_tables
  ∖ input_tables input_data.

(** [_build_audit_table_columns]: an audit column without a type, or
    with an empty one, is left out. *)
Definition _build_audit_table_columns : list column_def :=
  omap (λ kv,
          match str_get kv.1 audit_column_types with
          | Some column_type =>
              if truthy (PStr column_type)
              then Some (ColumnDef kv.2 column_type false) else None
          | None => None
          end)
    audit_columns_items.

(** [target_schema = audit_schema or schema] in [_ensure_audit_tables]. *)
Definition target_schema : string :=
  let schema := (split_table_name (audit_table audit_config)).1 in
  match audit_schema audit_config with
  | Some audit_schema =>
      if truthy (PStr audit_schema) then audit_schema else schema
  | None => schema
  end.

(** [report_tables] in [_ensure_audit_tables]. *)
Definition report_tables : list (string * list column_def) :=
  [(target_schema +:+ ".missing_attributes_report",
    [ColumnDef "ingestion_date" "DATE" false;
     ColumnDef "object_name" "TEXT" false;
     ColumnDef "missing_columns" "JSONB" false]);
   (target_schema +:+ ".missing_collections_report",
    [ColumnDef "ingestion_date" "DATE" false;
     ColumnDef "object_name" "TEXT" false;
     ColumnDef "object_status" "TEXT" false])].

(** [if not loader.table_exists(table_name):
       loader.create_table(table_name, columns)] *)
Definition create_table_if_missing (table_name : string)
    (columns : list column_def) : action state unit :=
  table_exists <- table_exists fault table_name ;;
  if negb table_exists then create_table fault table_name columns else pure tt.

(** [_ensure_audit_tables] *)
Definition _ensure_audit_tables : action state unit :=
  create_schema fault target_schema ;;;
  create_table_if_missing (audit_table audit_config) _build_audit_table_columns ;;;
  for_each report_tables (λ kv, create_table_if_missing kv.1 kv.2) ;;;
  commit fault.

(** The body of [for table in sorted(missing_input_tables)]. *)
Definition audit_missing_table (table : string) : action state unit :=
  let object_name := default table (table_lookup !! table) in
  let missing := osv_missing (object_status_values_of audit_config) in
  with_report (record_object_status object_name missing) ;;;
  ingested_at <- now clock ;;
  let audit_row :=
    build_audit_row audit_config ingested_at PNone
      (match table_to_collection !! table with
       | Some collection_name => PStr collection_name
       | None => PNone
       end)
      object_name missing [] (sv_missing (status_values_of audit_config)) in
  catch
    (insert_row fault (audit_table audit_config) audit_row ;;;
     commit fault)
    (λ exc, rollback fault).

(** The body of the block [with PostgresLoader(...) as loader] of [run],
    once [ensure_database] has returned and the loader has connected. *)
Definition loader_block (input_data : list (string * list dict))
    : action state unit :=
  let audit_table := audit_table audit_config in
  let schema_tables_no_audit :=
    schema_tables_without_audit audit_config schema_tables in
  _ensure_audit_tables ;;;
  audit_table_exists <- table_exists fault audit_table ;;
  (if negb audit_table_exists then
     throw (Exn LoadError ("Audit table '" +:+ audit_table
                           +:+ "' is missing in the database."))
   else pure tt) ;;;
  for_each (sorted (missing_input_tables input_data)) audit_missing_table ;;;
  for_each input_data
    (λ kv, process_collection rt fault clock runtime_config audit_config
             mapping_config schema_tables_no_audit kv.1 kv.2).

(** The block with the loader's [__exit__] (a roll back when an exception
    leaves the body, a commit otherwise; an exception of either replaces
    the one of the body) and the two [except] clauses of [run] around
    it. *)
Definition database_block (input_data : list (string * list dict))
    : action state unit :=
  catch
    (catch (loader_block input_data) (λ exc, rollback fault ;;; throw exc) ;;;
     commit fault)
    (λ exc,
       if bool_decide (exn_cls exc = LoadError) then throw exc
       else throw (Exn LoadError (exn_msg exc))).

(** [run], from [report = PipelineReport()] to [return report], without
    the calls to the logger. *)
Definition run_loaded (input_data : list (string * list dict))
    : action state PipelineReport :=
  modify (λ st, State (tables st) (sent st) (ticks st) empty_report) ;;;
  with_report (add_missing_collections (missing_collections_of input_data)) ;;;
  with_report
    (add_missing_tables_input
       (set_map (λ table, default table (table_lookup !! table))
          (missing_input_tables input_data))) ;;;
  today <- now clock ;;
  with_report (set_ingestion_date (isoformat (dt_date today))) ;;;
  database_block input_data ;;;
  st <- get ;;
  pure (report st).

End Run.

(* ===================================================================== *)
(** * The tables of the schema source ([schema_utils.load_schema_tables]) *)
(* ===================================================================== *)

(** [CREATE_TABLE_PATTERN] is
    [CREATE\s+TABLE\s+IF\s+NOT\s+EXISTS\s+([^\s(]+)], compiled with
    [re.IGNORECASE].  On code points below 256 a letter of the pattern
    matches itself in either case and nothing else, and [\s] matches the
    characters of [str.isspace]; beyond them, which the model leaves out,
    the pattern also takes U+0130 and U+0131 for [I] and U+017F for [S].
    Every repetition is greedy and is
    followed by something that matches none of the characters it runs
    over, so that the greedy reading finds the match whenever there is
    one. *)

(** A word of the pattern at the head of [s], in any case: what follows
    it. *)
Fixpoint keyword (word s : string) : option string :=
  match word, s with
  | EmptyString, _ => Some s
  | String k word', String c s' =>
      if bool_decide (lower_char c = lower_char k) then keyword word' s'
      else None
  | String _ _, EmptyString => None
  end.

(** [\s+] at the head of [s]: what follows the longest run of white space,
    which has one character at least. *)
Definition spaces (s : string) : option string :=
  match s with
  | String c s' => if isspace c then Some (lstrip s') else None
  | EmptyString => None
  end.

(** The characters of the class [[^\s(]]. *)
Definition name_char (c : ascii) : bool :=
  negb (isspace c) && negb (bool_decide (c = "("%char)).

(** [[^\s(]*] at the head of [s], greedy: the longest run of characters of
    the class, and what follows it. *)
Fixpoint name_run (s : string) : string * string :=
  match s with
  | EmptyString => (EmptyString, EmptyString)
  | String c s' =>
      if name_char c
      then let '(name, rest) := name_run s' in (String c name, rest)
      else (EmptyString, s)
  end.

(** A match of the pattern that starts at the head of [s]: its group 1
    and what follows the match. *)
Definition match_create_table (s : string) : option (string * string) :=
  s ← keyword "CREATE" s; s ← spaces s;
  s ← keyword "TABLE" s; s ← spaces s;
  s ← keyword "IF" s; s ← spaces s;
  s ← keyword "NOT" s; s ← spaces s;
  s ← keyword "EXISTS" s; s ← spaces s;
  let '(name, rest) := name_run s in
  if bool_decide (name = EmptyString) then None else Some (name, rest).

(** [CREATE_TABLE_PATTERN.findall]: group 1 of the matches, from left to
    right, where the search for the next match starts behind the last
    one.  [skip] counts the characters of the last match that are still
    ahead. *)
Fixpoint findall_from (skip : nat) (s : string) : list string :=
  match s with
  | EmptyString => []
  | String _ s' =>
      match skip with
      | S skip' => findall_from skip' s'
      | O =>
          match match_create_table s with
          | Some (name, rest) =>
              name :: findall_from (String.length s' - String.length rest) s'
          | None => findall_from 0 s'
          end
      end
  end.

Definition findall (content : string) : list string := findall_from 0 content.

(** [load_schema_tables], on the file at [schema_path]: [None] when there
    is no such file, its text otherwise. *)
Definition load_schema_tables (schema_path : string) (file : option string)
    : result (gset string) :=
  match file with
  | None => Raise (Exn ConfigError ("Schema file not found: " +:+ schema_path))
  | Some content =>
      let matches := findall content in
      Return (list_to_set (normalize_table_name <$> matches))
  end.

(* ===================================================================== *)
(** * Vocabulary of the statements *)
(* ===================================================================== *)

(** The attributes of a mapping that a document does not have. *)
Definition absent (document : dict) (items : list (string * mapping))
    : list (string * mapping) :=
  filter (λ kv, dict_contains kv.1 document = false) items.

(** No field error: every attribute that the document has converts without
    an error message. *)
Definition converts_cleanly (rt : runtime) (document : dict)
    (date_formats : list string)
    (date_output_format datetime_output_format : string)
    (items : list (string * mapping)) : Prop :=
  ∀ source_attr mapping,
    (source_attr, mapping) ∈ items →
    dict_contains source_attr document = true →
    ∃ converted error,
      transform_value rt (dict_get source_attr document) (type mapping)
        date_formats date_output_format datetime_output_format
        = Return (converted, error)
      ∧ truthy_opt_str error = false.

(** The entry that one mapped attribute leaves in [errors]: the attribute's
    name and the message of its conversion, when the document has the
    attribute and the conversion gives a message. *)
Definition attribute_error (rt : runtime) (document : dict)
    (date_formats : list string)
    (date_output_format datetime_output_format : string)
    (item : string * mapping) : option string :=
  if dict_contains item.1 document then
    match transform_value rt (dict_get item.1 document) (type item.2)
            date_formats date_output_format datetime_output_format with
    | Return (_, error) =>
        if truthy_opt_str error
        then Some (item.1 +:+ ": " +:+ default "" error) else None
    | Raise _ => None
    end
  else None.

(** The insert into the audit table and into a collection's table, as
    [insert_row] sends them. *)
Definition audit_insert (audit_config : audit_config) (values : row)
    : statement :=
  InsertRow (split_table_name (audit_table audit_config)).1
    (split_table_name (audit_table audit_config)).2 values.

Definition business_insert (collection_config : collection_config)
    (values : row) : statement :=
  InsertRow (split_table_name (target_table collection_config)).1
    (split_table_name (target_table collection_config)).2 values.

Definition is_insert (stmt : statement) : bool :=
  match stmt with InsertRow _ _ _ => true | _ => false end.

Definition is_ddl (stmt : statement) : bool :=
  match stmt with CreateSchema _ | CreateTable _ _ _ => true | _ => false end.

(** [str(object_id) if object_id is not None else None] for a document. *)
Definition audit_object_id (rt : runtime) (collection_config : collection_config)
    (document : dict) : value :=
  let object_id := dict_get (object_id_attribute collection_config) document in
  match object_id with
  | PNone => PNone
  | _ => PStr (py_str rt object_id)
  end.

(** The audit row of a document. *)
Definition document_audit_row (rt : runtime) (audit_config : audit_config)
    (collection_name : string) (collection_config : collection_config)
    (object_status : string) (document : dict) (result : transform_result)
    (ingested_at : datetime) (processing_status : string) : row :=
  build_audit_row audit_config ingested_at
    (audit_object_id rt collection_config document) (PStr collection_name)
    (target_table collection_config) object_status (missing_columns result)
    processing_status.

(** The last statement sent is a roll back, which the server answered
    with the exception [e]. *)
Definition rollback_failed (fault : nat → option exn) (st : state) (e : exn)
    : Prop :=
  last (sent st) = Some Rollback ∧ fault (length (sent st) - 1) = Some e.

(** The state after more statements, clock readings and report updates. *)
Definition advance (st : state) (stmts : list statement) (readings : nat)
    (update : PipelineReport → PipelineReport) : state :=
  State (tables st) (sent st ++ stmts) (readings + ticks st) (update (report st)).

(** The parameters of the probe and of the administrative connection. *)
Definition probe_params (db_config : db_config) : connection_params :=
  ConnectionParams (host db_config) (port db_config) (name db_config)
    (user db_config) (password db_config) (sslmode_param db_config).

Definition admin_params (db_config : db_config) : connection_params :=
  ConnectionParams (host db_config) (port db_config)
    (default "postgres" (admin_db db_config))
    (user db_config) (password db_config) (sslmode_param db_config).

(** What [transform_document] stores under the target column of one mapped
    attribute: the converted value, and null when the attribute is absent
    or its conversion gives an error message. *)
Definition column_value (rt : runtime) (document : dict)
    (date_formats : list string)
    (date_output_format datetime_output_format : string)
    (item : string * mapping) : value :=
  if dict_contains item.1 document then
    match transform_value rt (dict_get item.1 document) (type item.2)
            date_formats date_output_format datetime_output_format with
    | Return (converted, error) =>
        if truthy_opt_str error then PNone else converted
    | Raise _ => PNone
    end
  else PNone.

(** The four error messages of [transform_value] for a target type. *)
Definition error_messages (target_type : string) : list string :=
  ["invalid value for type '" +:+ target_type +:+ "'";
   "unsupported target type '" +:+ target_type +:+ "'";
   "invalid date format";
   "invalid datetime format"].

(** The SQL type that a dict of type mappings gives for a normalized type
    name: that of the last entry whose key has this normal form. *)
Definition last_type_mapping (type_mappings : list (string * string))
    (normalized_type : string) : option string :=
  last (omap (λ kv, if bool_decide (normalize_type kv.1 = normalized_type)
                    then Some kv.2 else None) type_mappings).

(** The column that [build_table_columns] derives from one entry of the
    mapping, and from one entry of [business_columns]. *)
Definition is_mapped_column (normalized_type_mappings : gmap string string)
    (entry : string * mapping) (col : column_def) : Prop :=
  col_name col = column entry.2
  ∧ normalized_type_mappings !! normalize_type (type entry.2) = Some (col_type col)
  ∧ col_not_null col = false.

Definition is_business_column (business_column_types : list (string * string))
    (entry : string * string) (col : column_def) : Prop :=
  col_name col = entry.2
  ∧ str_item entry.1 business_column_types = Return (col_type col)
  ∧ col_not_null col = true.

(** The names of the columns of a collection's table, in the order in which
    [build_table_columns] adds them. *)
Definition table_column_names (mappings : list (string * mapping))
    (raw_json_column : string) (business_columns : list (string * string))
    : list string :=
  (column <$> mappings.*2) ++ raw_json_column :: business_columns.*2.

(** The pair on which [_add_column] works: the set holds the names of the
    columns in the list. *)
Definition tracks (acc : list column_def * gset string) : Prop :=
  acc.2 = list_to_set (col_name <$> acc.1).

(** Events of [ensure_database]: a connection that the server has granted,
    and the closing of a connection. *)
Definition is_granted (srv : server) (ev : server_event) : bool :=
  match ev with
  | Connect params =>
      match connect srv params with Return _ => true | Raise _ => false end
  | _ => false
  end.

Definition is_close (ev : server_event) : bool :=
  match ev with Close => true | _ => false end.

Definition is_create_database (ev : server_event) : bool :=
  match ev with CreateDatabase _ => true | _ => false end.

(** A sequence of calls [record_document(collection_name, had_errors,
    insert_failed)], oldest first. *)
Definition record_documents (calls : list (string * bool * bool))
    (r : PipelineReport) : PipelineReport :=
  foldl (λ r call, record_document call.1.1 call.1.2 call.2 r) r calls.

(** A sequence of calls [record_missing_columns(object_name,
    missing_columns)], oldest first. *)
Definition record_missing_calls (calls : list (string * list string))
    (r : PipelineReport) : PipelineReport :=
  foldl (λ r call, record_missing_columns call.1 call.2 r) r calls.

(** The three keys of [audit.business_columns] that
    [validate_app_config] requires. *)
Definition has_business_columns (audit_config : audit_config) : Prop :=
  ∀ key, key ∈ ["ingested_at"; "source_collection"; "status"] →
    str_contains key (business_columns audit_config) = true.

(** What the two [except] clauses of [run] raise for an exception that
    leaves the block of the loader: a [LoadError] is raised again, another
    exception becomes a [LoadError] with its message. *)
Definition as_load_error (exc : exn) : exn :=
  if bool_decide (exn_cls exc = LoadError) then exc
  else Exn LoadError (exn_msg exc).

(** The three tables that [_ensure_audit_tables] looks after: the audit
    table and the two report tables, as the catalog names them. *)
Definition audit_tables (audit_config : audit_config)
    : list (string * string) :=
  split_table_name (audit_table audit_config)
  :: (split_table_name <$> (report_tables audit_config).*1).

Definition creates_table (stmt : statement) (table : string * string) : Prop :=
  ∃ columns, stmt = CreateTable table.1 table.2 columns.

(** The number of documents of the input that belong to a collection with
    a mapping. *)
Definition mapped_documents (mapping_config : list (string * collection_config))
    (input_data : list (string * list dict)) : nat :=
  sum_list
    ((λ kv, match get_collection_mapping mapping_config kv.1 with
            | Some _ => length kv.2
            | None => 0
            end) <$> input_data).

(** A collection that the orchestrator can provision and load: the schema
    part of its table name is not empty, [build_table_columns] returns for
    its mapping, and the transformation of each of its documents
    returns. *)
Definition loadable (rt : runtime) (runtime_config : runtime_config)
    (audit_config : audit_config) (collection_config : collection_config)
    (documents : list dict) : Prop :=
  (split_table_name (target_table collection_config)).1 ≠ EmptyString
  ∧ (∃ table_columns,
       build_table_columns (mappings collection_config)
         (raw_json_column collection_config) (type_mappings runtime_config)
         (business_columns audit_config) (business_column_types audit_config)
       = Return table_columns)
  ∧ ∀ document, document ∈ documents →
      ∃ r, transform_document rt document (mappings collection_config)
             (date_formats runtime_config) (date_output_format runtime_config)
             (datetime_output_format runtime_config) = Return r.

(** The characters of a string. *)
Definition chars (s : string) : list ascii := list_ascii_of_string s.

(** A name that the pattern takes as a whole: not empty, no white space
    and no opening parenthesis in it. *)
Definition is_table_name (name : string) : Prop :=
  name ≠ EmptyString ∧ ∀ c, c ∈ chars name → name_char c = true.

(** Whether [CREATE], white space and [TABLE] stand at the head of [s],
    in any case, and whether they stand anywhere in [s]. *)
Definition create_table_at (s : string) : bool :=
  match s ← keyword "CREATE" s; s ← spaces s; keyword "TABLE" s with
  | Some _ => true
  | None => false
  end.

Fixpoint mentions_create_table (s : string) : bool :=
  create_table_at s
  || match s with
     | EmptyString => false
     | String _ s' => mentions_create_table s'
     end.

(** One declaration of a schema source: the table's name behind
    [CREATE TABLE IF NOT EXISTS], then the columns and whatever else stands
    before the semicolon that ends the line above the next declaration. *)
Definition create_table_statement (name body : string) : string :=
  "CREATE TABLE IF NOT EXISTS " +:+ name +:+ " (" +:+ body +:+ ";"
  +:+ String "010" EmptyString.

Definition schema_source (statements : list (string * string)) : string :=
  foldr (λ statement rest,
           create_table_statement statement.1 statement.2 +:+ rest)
    EmptyString statements.

(** The statements that one document of the loop sends: the insert of its
    audit row, behind the business insert and its roll back when there are
    any, and before a commit or a roll back. *)
Definition document_statements (rt : runtime) (clock : nat → datetime)
    (runtime_config : runtime_config) (audit_config : audit_config)
    (collection_name : string) (collection_config : collection_config)
    (object_status : string) (table_exists : bool) (document : dict)
    (block : list statement) : Prop :=
  ∃ result before reading status after,
    transform_document rt document (mappings collection_config)
      (date_formats runtime_config) (date_output_format runtime_config)
      (datetime_output_format runtime_config) = Return result
    ∧ block
      = before
        ++ audit_insert audit_config
             (document_audit_row rt audit_config collection_name
                collection_config object_status document result
                (clock reading) status)
           :: after
    ∧ Forall (λ stmt, is_insert stmt = false) after
    ∧ (table_exists = false → before = [])
    ∧ (∀ stmt, stmt ∈ before →
         stmt = Rollback
         ∨ ∃ values, stmt = business_insert collection_config values)
    ∧ length (filter (λ stmt, is_insert stmt = true) before) ≤ 1.

(** ** Concrete inputs *)

(** The mapping [users → public.users] with [id:int, name:text, joined:date]. *)
Definition users_mappings : list (string * mapping) :=
  [("id", Mapping "id" "int"); ("name", Mapping "name" "text");
   ("joined", Mapping "joined" "date")].

Definition ymd_then_dmy : list string := ["%Y-%m-%d"; "%d-%m-%Y"].

Definition iso_date : string := "%Y-%m-%d".
Definition iso_datetime : string := "%Y-%m-%dT%H:%M:%S".

(** [{"id": 1, "joined": "2024-01-05"}]: the attribute [name] is absent. *)
Definition document_without_name : dict :=
  [("id", PInt 1); ("joined", PStr "2024-01-05")].

(** [{"id": 1, "name": null, "joined": "2024-01-05"}] *)
Definition document_with_null_name : dict :=
  [("id", PInt 1); ("name", PNone); ("joined", PStr "2024-01-05")].

(** A mapping whose two attributes [a] and [b] have the target column [x],
    and the document [{"b": 5}]. *)
Definition shared_column_mappings : list (string * mapping) :=
  [("a", Mapping "x" "int"); ("b", Mapping "x" "int")].

Definition document_with_b_only : dict := [("b", PInt 5)].

(** [{"id": Infinity}], as [json.load] reads [{"id": 1e999}]. *)
Definition document_with_infinite_id : dict :=
  [("id", PFloat (S754_infinity false))].

(** The audit section that the interactive runner writes. *)
Definition default_audit_config : audit_config :=
  AuditConfig "etl_audit.ingestion_audit" (Some "etl_audit")
    (AuditColumns "ingested_at" "object_id" "source_collection" "object_name"
       "object_status" "missing_columns" "processing_status")
    [("ingested_at", "ingested_at"); ("source_collection", "source_collection");
     ("status", "status")]
    [("ingested_at", "TIMESTAMPTZ"); ("source_collection", "TEXT");
     ("status", "TEXT")]
    (StatusValues "success" "error" "missing")
    (ObjectStatusValues "NEW" "MISSING" "ALREADY_EXISTS").

Definition default_runtime_config : runtime_config :=
  RuntimeConfig ymd_then_dmy "%Y-%m-%d" "%Y-%m-%dT%H:%M:%S%z"
    [("text", "TEXT"); ("int", "INTEGER"); ("date", "DATE")].

Definition users_collection : collection_config :=
  CollectionConfig "public.users" "raw_json" "id" users_mappings.

Definition users_mapping_config : list (string * collection_config) :=
  [("users", users_collection)].

(** A collection whose table lies in the audit schema. *)
Definition events_collection : collection_config :=
  CollectionConfig "etl_audit.events" "raw_json" "id" [("id", Mapping "id" "int")].

(** A server that answers every statement. *)
Definition no_fault : nat → option exn := λ _, None.

(** A clock that starts on 2026-11-03 12:00:00 and advances by a second. *)
Definition seconds_clock : nat → datetime :=
  λ n, DateTime (Date 2026 11 3) 12 0 (Z.of_nat n) 0.

(** A database without tables, and one with [public.users]. *)
Definition empty_database : state := State ∅ [] 0 empty_report.
Definition users_database : state :=
  State {[("public", "users")]} [] 0 empty_report.

(** A database section with auto-create switched off. *)
Definition no_auto_create : db_config :=
  DbConfig "localhost" 5432 "etl" "etl_user" "secret" None
    (Some (PBool false)) None.

(** A server on which the configured database does not exist. *)
Definition server_without_database : server :=
  Server
    (λ params,
       if bool_decide (cp_dbname params = "etl")
       then Raise (Exn OperationalError
                     ("FATAL:  database " +:+ String double_quote "etl"
                      +:+ String double_quote " does not exist"))
       else Return tt)
    (λ _, Return false)
    (λ _, Return tt).

(** [{"id": "12x", "name": 5, "joined": "05/01/2024"}] *)
Definition document_with_two_errors : dict :=
  [("id", PStr "12x"); ("name", PInt 5); ("joined", PStr "05/01/2024")].

(** A server that fails the inserts into the audit table of a run that
    sends a business insert, an audit insert and a roll back per document,
    and answers the other statements. *)
Definition audit_inserts_fail : nat → option exn :=
  λ n, if bool_decide (n `mod` 3 = 1)
       then Some (Exn OperationalError "relation does not exist")
       else None.

(** A server that fails every statement. *)
Definition failing_server : nat → option exn :=
  λ _, Some (Exn OperationalError "server closed the connection unexpectedly").

(** The audit columns and their types, as the interactive runner writes
    them. *)
Definition default_audit_columns : list (string * string) :=
  [("ingested_at", "ingested_at"); ("object_id", "object_id");
   ("source_collection", "source_collection"); ("object_name", "object_name");
   ("object_status", "object_status"); ("missing_columns", "missing_columns");
   ("processing_status", "processing_status")].

Definition default_audit_column_types : list (string * string) :=
  [("ingested_at", "TIMESTAMPTZ"); ("object_id", "TEXT");
   ("source_collection", "TEXT"); ("object_name", "TEXT");
   ("object_status", "TEXT"); ("missing_columns", "JSONB");
   ("processing_status", "TEXT")].

(* ===================================================================== *)
(** * Properties of the type transformer *)
(* ===================================================================== *)

Section TransformerFacts.
Variable rt : runtime.
Variable document : dict.
Variable date_formats : list string.
Variable date_output_format datetime_output_format : string.

Local Abbreviation converts_cleanly :=
  (converts_cleanly rt document date_formats date_output_format
     datetime_output_format).

Local Abbreviation attribute :=
  (transform_attribute rt document date_formats date_output_format
     datetime_output_format).
Local Abbreviation loop :=
  (transform_loop rt document date_formats date_output_format
     datetime_output_format).
Local Abbreviation convert v ty :=
  (transform_value rt v ty date_formats date_output_format
     datetime_output_format).
Local Abbreviation error_of :=
  (attribute_error rt document date_formats date_output_format
     datetime_output_format).

Lemma attribute_absent source_attr mapping acc :
  dict_contains source_attr document = false →
  attribute source_attr mapping acc =
    Return (TransformResult (<[column mapping := PNone]> (transformed acc))
              (missing_columns acc ++ [column mapping]) (errors acc)).
Proof. intros H. unfold transform_attribute. by rewrite H. Qed.

Lemma attribute_present source_attr mapping acc :
  dict_contains source_attr document = true →
  attribute source_attr mapping acc =
    let* '(converted, error) :=
      convert (dict_get source_attr document) (type mapping) in
    if truthy_opt_str error then
      Return (TransformResult (<[column mapping := PNone]> (transformed acc))
                (missing_columns acc)
                (errors acc ++ [source_attr +:+ ": " +:+ default "" error]))
    else
      Return (TransformResult (<[column mapping := converted]> (transformed acc))
                (missing_columns acc) (errors acc)).
Proof. intros H. unfold transform_attribute. by rewrite H. Qed.

(** One iteration writes the target column and nothing else of the row. *)
Lemma attribute_row source_attr mapping acc acc' :
  attribute source_attr mapping acc = Return acc' →
  ∃ v, transformed acc' = <[column mapping := v]> (transformed acc).
Proof.
  unfold transform_attribute.
  destruct (dict_contains source_attr document); simpl.
  - destruct (convert _ _) as [[converted error]|e]; simpl; [|done].
    destruct (truthy_opt_str error); intros [= <-]; eauto.
  - intros [= <-]; eauto.
Qed.

Lemma loop_cons source_attr mapping rest acc :
  loop ((source_attr, mapping) :: rest) acc =
    let* acc' := attribute source_attr mapping acc in loop rest acc'.
Proof. reflexivity. Qed.

(** The columns that the loop does not name keep their value. *)
Lemma loop_row_other items acc r col :
  loop items acc = Return r →
  col ∉ column <$> items.*2 →
  transformed r !! col = transformed acc !! col.
Proof.
  revert acc. induction items as [|[source_attr mapping] rest IH]; intros acc.
  - by intros [= <-].
  - rewrite loop_cons, !fmap_cons, not_elem_of_cons. simpl.
    destruct (attribute source_attr mapping acc) as [acc'|e] eqn:Hstep; [|done].
    simpl. intros Hloop [Hne Hrest].
    destruct (attribute_row _ _ _ _ Hstep) as [v Hrow].
    rewrite (IH _ Hloop Hrest), Hrow. by apply lookup_insert_ne.
Qed.

(** The loop writes every target column of the mapping. *)
Lemma loop_row_dom items acc r :
  loop items acc = Return r →
  dom (transformed r) = dom (transformed acc) ∪ list_to_set (column <$> items.*2).
Proof.
  revert acc. induction items as [|[source_attr mapping] rest IH]; intros acc.
  - intros [= <-]. simpl. set_solver.
  - rewrite loop_cons.
    destruct (attribute source_attr mapping acc) as [acc'|e] eqn:Hstep; [|done].
    simpl. intros Hloop.
    destruct (attribute_row _ _ _ _ Hstep) as [v Hrow].
    rewrite (IH _ Hloop), Hrow, dom_insert_L. set_solver.
Qed.

(** [missing_columns] lists the target columns of the absent attributes, in
    the order of the mapping. *)
Lemma loop_missing items acc r :
  loop items acc = Return r →
  missing_columns r = missing_columns acc ++ (column <$> (absent document items).*2).
Proof.
  revert acc. induction items as [|[source_attr mapping] rest IH]; intros acc.
  - intros [= <-]. simpl. by rewrite app_nil_r.
  - rewrite loop_cons. unfold absent. rewrite filter_cons. simpl.
    destruct (decide (dict_contains source_attr document = false)) as [Hin|Hin].
    + rewrite attribute_absent by done. simpl. intros Hloop.
      rewrite (IH _ Hloop). simpl. by rewrite <- app_assoc.
    + apply not_false_is_true in Hin. rewrite attribute_present by done.
      destruct (convert _ _) as [[converted error]|e]; simpl; [|done].
      destruct (truthy_opt_str error); intros Hloop; by rewrite (IH _ Hloop).
Qed.

Lemma loop_clean items acc :
  converts_cleanly items →
  ∃ r, loop items acc = Return r ∧ errors r = errors acc.
Proof.
  revert acc. induction items as [|[source_attr mapping] rest IH];
    intros acc Hclean.
  - by eexists.
  - rewrite loop_cons.
    assert (converts_cleanly rest) as Hrest.
    { intros a m Hin. apply Hclean. by right. }
    destruct (dict_contains source_attr document) eqn:Hin.
    + rewrite attribute_present by done.
      destruct (Hclean source_attr mapping) as (c & e & -> & He);
        [by left|done|].
      cbn [bind]. rewrite He.
      edestruct IH as (r & Hr & Herr); [exact Hrest|].
      exists r. split; [exact Hr|exact Herr].
    + rewrite attribute_absent by done. cbn [bind].
      edestruct IH as (r & Hr & Herr); [exact Hrest|].
      exists r. split; [exact Hr|exact Herr].
Qed.

(** When no conversion of a present attribute raises, the loop returns, and
    [errors] holds one entry per attribute whose conversion gave a message,
    in the order of the mapping. *)
Lemma loop_records_errors items acc :
  (∀ source_attr mapping,
     (source_attr, mapping) ∈ items →
     dict_contains source_attr document = true →
     ∃ outcome, convert (dict_get source_attr document) (type mapping)
                = Return outcome) →
  ∃ r, loop items acc = Return r
       ∧ errors r = errors acc ++ omap error_of items.
Proof.
  revert acc. induction items as [|[source_attr mapping] rest IH];
    intros acc Hreturns.
  - eexists. split; [reflexivity|]. simpl. by rewrite app_nil_r.
  - rewrite loop_cons.
    assert (∀ a m, (a, m) ∈ rest → dict_contains a document = true →
              ∃ outcome, convert (dict_get a document) (type m) = Return outcome)
      as Hrest.
    { intros a m Hin. apply Hreturns. by right. }
    cbn [omap list_omap]. unfold attribute_error at 1. cbn [fst snd].
    destruct (dict_contains source_attr document) eqn:Hin.
    + rewrite attribute_present by done.
      destruct (Hreturns source_attr mapping) as ([converted error] & ->);
        [by left|done|].
      cbn [bind].
      destruct (truthy_opt_str error);
        (edestruct IH as (r & Hr & Herr); [exact Hrest|]);
        exists r; (split; [exact Hr|]); rewrite Herr;
        cbn [errors]; by rewrite <- ?app_assoc.
    + rewrite attribute_absent by done. cbn [bind].
      edestruct IH as (r & Hr & Herr); [exact Hrest|].
      exists r. split; [exact Hr|]. by rewrite Herr.
Qed.

(** With pairwise different target columns, the column of an absent
    attribute is null in the row. *)
Lemma loop_missing_null items acc r :
  NoDup (column <$> items.*2) →
  loop items acc = Return r →
  ∀ col, col ∈ column <$> (absent document items).*2 → transformed r !! col = Some PNone.
Proof.
  revert acc. induction items as [|[source_attr mapping] rest IH]; intros acc.
  - intros _ _ col. unfold absent. simpl. by intros ?%elem_of_nil.
  - rewrite !fmap_cons, NoDup_cons, loop_cons. simpl.
    intros [Hfresh Hnodup].
    destruct (attribute source_attr mapping acc) as [acc'|e] eqn:Hstep; [|done].
    simpl. intros Hloop col. unfold absent. rewrite filter_cons. simpl.
    destruct (decide (dict_contains source_attr document = false)) as [Hin|Hin].
    + rewrite !fmap_cons, elem_of_cons. simpl. intros [->|Hcol].
      * rewrite (loop_row_other _ _ _ _ Hloop Hfresh).
        rewrite attribute_absent in Hstep by done.
        injection Hstep as <-. simpl. by rewrite lookup_insert_eq.
      * by eapply IH.
    + intros Hcol. by eapply IH.
Qed.

(** Whenever the loop returns, [errors] holds one entry per attribute whose
    conversion gave a message, in the order of the mapping. *)
Lemma loop_errors items acc r :
  loop items acc = Return r →
  errors r = errors acc ++ omap error_of items.
Proof.
  revert acc. induction items as [|[source_attr mapping] rest IH]; intros acc.
  - intros [= <-]. cbn. by rewrite app_nil_r.
  - rewrite loop_cons. cbn [omap list_omap].
    unfold attribute_error at 1. cbn [fst snd].
    destruct (dict_contains source_attr document) eqn:Hin.
    + rewrite attribute_present by done.
      destruct (convert _ _) as [[converted error]|e]; cbn [bind]; [|done].
      destruct (truthy_opt_str error); intros Hloop;
        rewrite (IH _ Hloop); cbn [errors]; by rewrite <- ?app_assoc.
    + rewrite attribute_absent by done. cbn [bind]. intros Hloop.
      by rewrite (IH _ Hloop).
Qed.

(** With pairwise different target columns, the column of an attribute
    that is absent, or present with the value null, is null in the row. *)
Lemma loop_null_column items acc r :
  NoDup (column <$> items.*2) →
  loop items acc = Return r →
  ∀ source_attr mapping,
    (source_attr, mapping) ∈ items →
    dict_contains source_attr document = false
    ∨ dict_get source_attr document = PNone →
    transformed r !! column mapping = Some PNone.
Proof.
  revert acc. induction items as [|[source_attr mapping] rest IH]; intros acc.
  - intros _ _ a m Hin. by apply elem_of_nil in Hin.
  - rewrite !fmap_cons, NoDup_cons, loop_cons. cbn [fst snd].
    intros [Hfresh Hnodup].
    destruct (attribute source_attr mapping acc) as [acc'|e] eqn:Hstep;
      cbn [bind]; [|done].
    intros Hloop a m [[= -> ->]|Hin]%elem_of_cons Hnull; [|by eapply IH].
    rewrite (loop_row_other _ _ _ _ Hloop Hfresh).
    destruct (dict_contains source_attr document) eqn:Hcontains.
    + destruct Hnull as [|Hnull]; [done|].
      rewrite attribute_present, Hnull in Hstep by done.
      injection Hstep as <-. cbn. by rewrite lookup_insert_eq.
    + rewrite attribute_absent in Hstep by done.
      injection Hstep as <-. cbn. by rewrite lookup_insert_eq.
Qed.

End TransformerFacts.

(** A type name outside [SUPPORTED_TYPES] leaves the [try] block of
    [transform_value] without a [return]. *)
Lemma unsupported_type_falls_through rt value normalized_type
    date_formats date_output_format datetime_output_format :
  normalized_type ∉ SUPPORTED_TYPES →
  transform_value_try rt value normalized_type date_formats
    date_output_format datetime_output_format = Return None.
Proof.
  intros Hty. unfold transform_value_try, in_set.
  repeat (case_bool_decide as Hin;
          [exfalso; apply Hty; unfold SUPPORTED_TYPES; set_solver|clear Hin]).
  reflexivity.
Qed.

(** The format loop stops at the first format that [strptime] accepts, when
    the formats before it are rejected with [ValueError]. *)
Lemma first_format_first_match rt value before date_format after parsed :
  (∀ f, f ∈ before → ∃ msg, strptime rt value f = Raise (Exn ValueError msg)) →
  strptime rt value date_format = Return parsed →
  first_format rt value (before ++ date_format :: after) = Return (Some parsed).
Proof.
  intros Hbefore Hmatch. induction before as [|f before IH]; simpl.
  - by rewrite Hmatch.
  - destruct (Hbefore f) as [msg ->]; [by left|]. simpl.
    apply IH. intros g Hg. apply Hbefore. by right.
Qed.

(** When [strptime] rejects every format with [ValueError], the loop ends
    with [None]. *)
Lemma first_format_no_match rt value date_formats :
  (∀ f, f ∈ date_formats → ∃ msg, strptime rt value f = Raise (Exn ValueError msg)) →
  first_format rt value date_formats = Return None.
Proof.
  induction date_formats as [|f rest IH]; intros Hall; simpl; [done|].
  destruct (Hall f) as [msg ->]; [by left|]. simpl.
  apply IH. intros g Hg. apply Hall. by right.
Qed.

(** Membership in a list of literals, by evaluation. *)
Ltac by_evaluation :=
  lazymatch goal with
  | |- ?x ∉ ?l => apply (bool_decide_eq_false_1 (x ∈ l)); vm_compute; reflexivity
  | |- ?x ∈ ?l => apply (bool_decide_eq_true_1 (x ∈ l)); vm_compute; reflexivity
  end.

(** An exception that leaves [transform_value] is none of the three that
    its [except] clause names. *)
Lemma transform_value_raises rt value target_type date_formats
    date_output_format datetime_output_format e :
  transform_value rt value target_type date_formats date_output_format
    datetime_output_format = Raise e →
  exn_cls e ∉ [ValueError; TypeError; InvalidOperation].
Proof.
  unfold transform_value. destruct value; try done;
    (destruct (transform_value_try _ _ _ _ _ _) as [[out|]|e'] eqn:Htry;
     simpl; [done|done|];
     case_bool_decide as Hcls; simpl; [done|]; by intros [= <-]).
Qed.

(** C10.  A null input value returns (null, no error) for every target type
    name, supported or not, before any type dispatch; the same unsupported
    type name applied to a value that is not null gives the
    unsupported-target-type error. *)
Theorem null_value_skips_dispatch :
  (∀ rt target_type date_formats date_output_format datetime_output_format,
     transform_value rt PNone target_type date_formats date_output_format
       datetime_output_format = Return (PNone, None))
  ∧ (∀ rt value target_type date_formats date_output_format
       datetime_output_format,
       value ≠ PNone →
       normalize_type target_type ∉ SUPPORTED_TYPES →
       transform_value rt value target_type date_formats date_output_format
         datetime_output_format
       = Return (PNone,
                 Some ("unsupported target type '" +:+ target_type +:+ "'"))).
Proof.
  split; [reflexivity|].
  intros rt value target_type date_formats dof dtof Hvalue Hty.
  unfold transform_value.
  rewrite (unsupported_type_falls_through rt value _ date_formats dof dtof Hty).
  by destruct value.
Qed.

Lemma null_value_skips_dispatch_witness :
  transform_value Ref.runtime PNone "uuid" ymd_then_dmy iso_date iso_datetime
    = Return (PNone, None)
  ∧ transform_value Ref.runtime (PInt 7) "uuid" ymd_then_dmy iso_date iso_datetime
    = Return (PNone, Some "unsupported target type 'uuid'").
Proof.
  split.
  - apply (proj1 null_value_skips_dispatch).
  - apply (proj2 null_value_skips_dispatch Ref.runtime (PInt 7) "uuid").
    + discriminate.
    + by_evaluation.
Defined.

(** C7.  [normalize_boolean] returns a native boolean unchanged, maps a
    native number by its truth value, maps the trimmed, lower-cased strings
    true/t/yes/y/1 to true and false/f/no/n/0 to false, and fails with an
    error on every other string, among them "maybe" and the empty string. *)
Theorem normalize_boolean_vocabulary :
  (∀ b, normalize_boolean (PBool b) = Return b)
  ∧ (∀ z, normalize_boolean (PInt z) = Return (negb (z =? 0)%Z))
  ∧ (∀ f, normalize_boolean (PFloat f) = Return (negb (float_is_zero f)))
  ∧ (∀ s, lower (strip s) ∈ ["true"; "t"; "yes"; "y"; "1"] →
          normalize_boolean (PStr s) = Return true)
  ∧ (∀ s, lower (strip s) ∈ ["false"; "f"; "no"; "n"; "0"] →
          normalize_boolean (PStr s) = Return false)
  ∧ (∀ s, lower (strip s) ∉ ["true"; "t"; "yes"; "y"; "1";
                             "false"; "f"; "no"; "n"; "0"] →
          normalize_boolean (PStr s)
          = Raise (Exn ValueError "invalid boolean value"))
  ∧ normalize_boolean (PStr "maybe") = Raise (Exn ValueError "invalid boolean value")
  ∧ normalize_boolean (PStr "") = Raise (Exn ValueError "invalid boolean value").
Proof.
  repeat split; try reflexivity.
  - intros s Hs. unfold normalize_boolean, in_set.
    by rewrite bool_decide_eq_true_2.
  - intros s Hs. unfold normalize_boolean, in_set.
    rewrite bool_decide_eq_false_2; [by rewrite bool_decide_eq_true_2|].
    intros Htrue. revert Hs Htrue. generalize (lower (strip s)). intros n.
    rewrite !elem_of_cons, !elem_of_nil. naive_solver.
  - intros s Hs. unfold normalize_boolean, in_set.
    rewrite !bool_decide_eq_false_2; [done|..];
      intros Hin; apply Hs; revert Hin; rewrite !elem_of_cons; naive_solver.
Qed.

Lemma normalize_boolean_vocabulary_witness :
  normalize_boolean (PStr " YES ") = Return true
  ∧ normalize_boolean (PStr "F") = Return false
  ∧ normalize_boolean (PStr "1.0") = Raise (Exn ValueError "invalid boolean value").
Proof.
  destruct normalize_boolean_vocabulary as (_ & _ & _ & Htrue & Hfalse & Hother & _).
  split; [|split].
  - apply Htrue. by_evaluation.
  - apply Hfalse. by_evaluation.
  - apply Hother. by_evaluation.
Defined.

(** A counterexample to the parity of absent and null fields: the document
    [{"id": 1, "name": null, "joined": "2024-01-05"}] has the key [name]
    with a null value, and [transform_document] returns an empty
    [missing_columns] for it, while the same document without the key gets
    [missing_columns = ["name"]]. *)
Lemma present_null_is_not_reported_missing :
  (∃ r,
     transform_document Ref.runtime document_with_null_name users_mappings
       ymd_then_dmy iso_date iso_datetime = Return r
     ∧ dict_contains "name" document_with_null_name = true
     ∧ dict_get "name" document_with_null_name = PNone
     ∧ missing_columns r = []
     ∧ "name" ∉ missing_columns r)
  ∧ (∃ r,
       transform_document Ref.runtime document_without_name users_mappings
         ymd_then_dmy iso_date iso_datetime = Return r
       ∧ dict_contains "name" document_without_name = false
       ∧ missing_columns r = ["name"]).
Proof.
  split.
  - eexists. split; [vm_compute; reflexivity|]. simpl.
    repeat split. by intros ?%elem_of_nil.
  - eexists. split; [vm_compute; reflexivity|]. by repeat split.
Qed.

(** C5, as the code has it.  The iteration of an attribute whose key is
    absent and the iteration of an attribute whose key is present with the
    value null both write null to the target column and add no error; they
    differ in [missing_columns], to which only the absent one adds its
    target column.  So for a document that [transform_document] accepts,
    [missing_columns] lists exactly the target columns of the attributes
    whose key is absent, in mapping order, neither kind of attribute has an
    entry in [errors], and with pairwise different target columns the
    column of either is null in the row. *)
Theorem missing_columns_are_absent_keys :
  ∀ rt document mappings date_formats date_output_format
    datetime_output_format,
    (∀ source_attr mapping acc,
       dict_contains source_attr document = false →
       transform_attribute rt document date_formats date_output_format
         datetime_output_format source_attr mapping acc
       = Return (TransformResult
                   (<[column mapping := PNone]> (transformed acc))
                   (missing_columns acc ++ [column mapping]) (errors acc)))
    ∧ (∀ source_attr mapping acc,
         dict_contains source_attr document = true →
         dict_get source_attr document = PNone →
         transform_attribute rt document date_formats date_output_format
           datetime_output_format source_attr mapping acc
         = Return (TransformResult
                     (<[column mapping := PNone]> (transformed acc))
                     (missing_columns acc) (errors acc)))
    ∧ (∀ r,
         transform_document rt document mappings date_formats
           date_output_format datetime_output_format = Return r →
         missing_columns r = column <$> (absent document mappings).*2
         ∧ errors r
           = omap (attribute_error rt document date_formats date_output_format
                     datetime_output_format) mappings
         ∧ ∀ source_attr mapping,
             (source_attr, mapping) ∈ mappings →
             dict_contains source_attr document = false
             ∨ dict_get source_attr document = PNone →
             attribute_error rt document date_formats date_output_format
               datetime_output_format (source_attr, mapping) = None
             ∧ (NoDup (column <$> mappings.*2) →
                transformed r !! column mapping = Some PNone)).
Proof.
  intros rt document mappings date_formats dof dtof. split; [|split].
  - intros source_attr mapping acc Hout. by apply attribute_absent.
  - intros source_attr mapping acc Hin Hnull.
    rewrite attribute_present by done. by rewrite Hnull.
  - intros r Hr. split; [by rewrite (loop_missing _ _ _ _ _ _ _ _ Hr)|].
    split; [by rewrite (loop_errors _ _ _ _ _ _ _ _ Hr)|].
    intros source_attr mapping Hin Hnull. split.
    + unfold attribute_error. cbn [fst snd].
      destruct (dict_contains source_attr document); [|done].
      destruct Hnull as [Hnull|Hnull]; [done|]. by rewrite Hnull.
    + intros Hnodup. by eapply loop_null_column.
Qed.

Lemma missing_columns_are_absent_keys_witness :
  (missing_columns
     (TransformResult
        (<["joined" := PStr "2024-01-05"]>
           (<["name" := PNone]> (<["id" := PInt 1]> ∅))) ["name"] [])
   = column <$> (absent document_without_name users_mappings).*2
   ∧ (<["joined" := PStr "2024-01-05"]>
        (<["name" := PNone]> (<["id" := PInt 1]> ∅)) : row) !! "name"
     = Some PNone)
  ∧ transform_attribute Ref.runtime document_with_null_name ymd_then_dmy
      iso_date iso_datetime "name" (Mapping "name" "text")
      (TransformResult ∅ [] [])
    = Return (TransformResult (<["name" := PNone]> ∅) [] []).
Proof.
  destruct (missing_columns_are_absent_keys Ref.runtime document_without_name
              users_mappings ymd_then_dmy iso_date iso_datetime)
    as (_ & _ & Hdocument).
  destruct (missing_columns_are_absent_keys Ref.runtime document_with_null_name
              users_mappings ymd_then_dmy iso_date iso_datetime)
    as (_ & Hnull & _).
  split.
  - destruct (Hdocument
                (TransformResult
                   (<["joined" := PStr "2024-01-05"]>
                      (<["name" := PNone]> (<["id" := PInt 1]> ∅)))
                   ["name"] []))
      as (Hlist & _ & Hrow); [vm_compute; reflexivity|].
    split; [exact Hlist|].
    apply (Hrow "name" (Mapping "name" "text")).
    + set_solver.
    + by left.
    + apply (bool_decide_eq_true_1 (NoDup _)). vm_compute. reflexivity.
  - apply (Hnull "name" (Mapping "name" "text") (TransformResult ∅ [] []));
      reflexivity.
Defined.

(** C1, at a failing input.  For the document [{"id": Infinity}] and the
    mapping [id → int], [int(value)] raises [OverflowError], which the
    [except] clause of [transform_value] does not name: the exception leaves
    [transform_value] and [transform_document], and the document gets
    neither an error string nor a row.  The same holds for an integer too
    large for a float under a float type. *)
Theorem overflow_leaves_transform_document :
  ∀ rt date_formats date_output_format datetime_output_format,
    transform_value rt (PFloat (S754_infinity false)) "int" date_formats
      date_output_format datetime_output_format
    = Raise (Exn OverflowError "cannot convert float infinity to integer")
    ∧ transform_document rt document_with_infinite_id users_mappings
        date_formats date_output_format datetime_output_format
      = Raise (Exn OverflowError "cannot convert float infinity to integer")
    ∧ transform_document rt [("ratio", PInt (10 ^ 400))]
        [("ratio", Mapping "ratio" "float")]
        date_formats date_output_format datetime_output_format
      = Raise (Exn OverflowError "int too large to convert to float").
Proof.
  intros rt date_formats dof dtof. split; [|split].
  - reflexivity.
  - reflexivity.
  - vm_compute. reflexivity.
Qed.

(** C8.  Date coercion tries the configured formats in list order and the
    first format that [strptime] accepts decides; the result is printed
    with the configured output format.  With the formats
    [["%Y-%m-%d"; "%d-%m-%Y"]] the string "2024-01-05" is read as year 2024,
    month 1, day 5.  A value that is already a date or a datetime is taken
    as it is, whatever the formats are. *)
Theorem first_matching_date_format_wins :
  (∀ rt value before date_format after parsed,
     (∀ f, f ∈ before → ∃ msg, strptime rt value f = Raise (Exn ValueError msg)) →
     strptime rt value date_format = Return parsed →
     parse_date rt (PStr value) (before ++ date_format :: after)
       = Return (Some (dt_date parsed))
     ∧ ∀ date_output_format datetime_output_format text,
         strftime rt (combine_min (dt_date parsed)) date_output_format
           = Return text →
         transform_value rt (PStr value) "date" (before ++ date_format :: after)
           date_output_format datetime_output_format
         = Return (PStr text, None))
  ∧ (strptime Ref.runtime "2024-01-05" "%Y-%m-%d"
       = Return (DateTime (Date 2024 1 5) 0 0 0 0)
     ∧ parse_date Ref.runtime (PStr "2024-01-05") ymd_then_dmy
       = Return (Some (Date 2024 1 5))
     ∧ transform_value Ref.runtime (PStr "2024-01-05") "date" ymd_then_dmy
         "%Y-%m-%d" iso_datetime
       = Return (PStr "2024-01-05", None)
     ∧ transform_value Ref.runtime (PStr "2024-01-05") "date" ymd_then_dmy
         "%d/%m/%Y" iso_datetime
       = Return (PStr "05/01/2024", None))
  ∧ (∀ rt d dt date_formats,
       parse_date rt (PDate d) date_formats = Return (Some d)
       ∧ parse_date rt (PDateTime dt) date_formats = Return (Some (dt_date dt)))
  ∧ (∀ rt d date_formats date_output_format datetime_output_format text,
       strftime rt (combine_min d) date_output_format = Return text →
       transform_value rt (PDate d) "date" date_formats date_output_format
         datetime_output_format
       = Return (PStr text, None)).
Proof.
  split; [|split; [|split]].
  - intros rt value before date_format after parsed Hbefore Hmatch.
    assert (parse_date rt (PStr value) (before ++ date_format :: after)
            = Return (Some (dt_date parsed))) as Hparse.
    { unfold parse_date.
      by rewrite (first_format_first_match _ _ _ _ _ _ Hbefore Hmatch). }
    split; [exact Hparse|].
    intros dof dtof text Hprint.
    unfold transform_value.
    change (normalize_type "date") with "date".
    unfold transform_value_try, in_set.
    repeat (rewrite bool_decide_eq_false_2 by by_evaluation).
    rewrite bool_decide_eq_true_2 by done.
    rewrite Hparse. cbn [bind]. unfold strftime_date. by rewrite Hprint.
  - repeat split; vm_compute; reflexivity.
  - by intros.
  - intros rt d date_formats dof dtof text Hprint.
    unfold transform_value.
    change (normalize_type "date") with "date".
    unfold transform_value_try, in_set.
    repeat (rewrite bool_decide_eq_false_2 by by_evaluation).
    rewrite bool_decide_eq_true_2 by done.
    cbn [parse_date bind]. unfold strftime_date. by rewrite Hprint.
Qed.

(** At "01-02-03" both [%d-%m-%y] and [%y-%m-%d] match: the one listed
    first decides. *)
Lemma first_matching_date_format_wins_witness :
  (parse_date Ref.runtime (PStr "01-02-03") (["%Y-%m-%d"] ++ "%d-%m-%y" :: ["%y-%m-%d"])
     = Return (Some (Date 2003 2 1))
   ∧ transform_value Ref.runtime (PStr "01-02-03") "date"
       (["%Y-%m-%d"] ++ "%d-%m-%y" :: ["%y-%m-%d"]) "%Y-%m-%d" iso_datetime
     = Return (PStr "2003-02-01", None))
  ∧ transform_value Ref.runtime (PDate (Date 2024 1 5)) "date" ymd_then_dmy
      "%d/%m/%Y" iso_datetime
    = Return (PStr "05/01/2024", None).
Proof.
  destruct first_matching_date_format_wins as (Hfirst & _ & _ & Hdate).
  split.
  - destruct (Hfirst Ref.runtime "01-02-03" ["%Y-%m-%d"] "%d-%m-%y" ["%y-%m-%d"]
                (DateTime (Date 2003 2 1) 0 0 0 0)) as [Hparse Hvalue].
    + intros f Hf. apply list_elem_of_singleton in Hf as ->.
      eexists. vm_compute. reflexivity.
    + vm_compute. reflexivity.
    + split; [exact Hparse|]. apply Hvalue. vm_compute. reflexivity.
  - apply Hdate. vm_compute. reflexivity.
Defined.

(* ===================================================================== *)
(** * Properties of the document loop *)
(* ===================================================================== *)

Lemma audit_row_nonempty audit_config now object_id source_collection
    object_name object_status missing_columns processing_status :
  build_audit_row audit_config now object_id source_collection object_name
    object_status missing_columns processing_status ≠ ∅.
Proof. apply insert_non_empty. Qed.

(** The last entry of the dict display decides the processing status. *)
Lemma audit_row_processing_status audit_config now object_id
    source_collection object_name object_status missing_columns
    processing_status :
  build_audit_row audit_config now object_id source_collection object_name
    object_status missing_columns processing_status
    !! ac_processing_status (audit_columns_of audit_config)
  = Some (PStr processing_status).
Proof. apply lookup_insert_eq. Qed.

Lemma business_row_nonempty (fields transformed : row) key value :
  fields ∪ <[key := value]> transformed ≠ ∅.
Proof.
  intros Hempty. apply (f_equal (λ m : row, m !! key)) in Hempty.
  rewrite lookup_empty, lookup_union, lookup_insert_eq in Hempty.
  by destruct (fields !! key).
Qed.

Lemma length_sent_snoc_list (stmts : list statement) stmt :
  length (stmts ++ [stmt]) = S (length stmts).
Proof. rewrite length_app. simpl. lia. Qed.

(** The goal [rollback_failed fault st e] for a state whose statements are
    written out, from the answer of the server in the context. *)
Ltac rollback_has_failed :=
  unfold rollback_failed; cbn [sent]; split;
  [ rewrite last_app; reflexivity
  | rewrite length_app; cbn [length];
    match goal with
    | H : ?fault ?n = Some ?e |- ?fault ?m = Some ?e =>
        replace m with n by lia; exact H
    end ].

Section DocumentFacts.
Variable rt : runtime.
Variable fault : nat → option exn.
Variable clock : nat → datetime.
Variable runtime_config : runtime_config.
Variable audit_config : audit_config.

Local Abbreviation business_step :=
  (insert_business_row fault clock audit_config).
Local Abbreviation audit_step := (insert_audit_row fault audit_config).
Local Abbreviation document_step :=
  (process_document rt fault clock runtime_config audit_config).

Lemma insert_row_sends table_name values st :
  values ≠ ∅ →
  insert_row fault table_name values st =
    execute fault (InsertRow (split_table_name table_name).1
                     (split_table_name table_name).2 values) st.
Proof.
  intros Hne. unfold insert_row. rewrite bool_decide_eq_false_2 by done.
  by destruct (split_table_name table_name).
Qed.

Lemma length_sent_snoc (st : state) stmt :
  length (sent st ++ [stmt]) = S (length (sent st)).
Proof. rewrite length_app. simpl. lia. Qed.

(** Without the destination table nothing is sent. *)
Lemma insert_business_row_missing_table collection_name collection_config
    document transformed business_status st :
  business_step collection_name collection_config false document
    transformed business_status st
  = (Return (sv_missing (status_values_of audit_config), true), st).
Proof. reflexivity. Qed.

(** With the destination table one insert is sent, and a roll back after
    it when it fails; a roll back that fails ends the step with its
    exception. *)
Lemma insert_business_row_existing_table collection_name collection_config
    document transformed business_status st fields :
  build_business_audit_fields audit_config (clock (ticks st)) collection_name
    business_status = Return fields →
  business_step collection_name collection_config true document
    transformed business_status st
  = let values :=
      fields ∪ <[raw_json_column collection_config := PDict document]> transformed in
    match fault (length (sent st)) with
    | None =>
        (Return (business_status, false),
         advance st [business_insert collection_config values] 1 id)
    | Some _ =>
        match fault (S (length (sent st))) with
        | None =>
            (Return (sv_error (status_values_of audit_config), true),
             advance st [business_insert collection_config values; Rollback] 1 id)
        | Some e =>
            (Raise e,
             advance st [business_insert collection_config values; Rollback] 1 id)
        end
    end.
Proof.
  intros Hfields. unfold insert_business_row, seq, now, lift, catch.
  cbn [ticks]. rewrite Hfields.
  rewrite insert_row_sends by apply business_row_nonempty.
  unfold rollback, execute, pure, advance, business_insert.
  cbn [sent tables ticks report effect].
  destruct (fault (length (sent st))); cbn; [|done].
  rewrite length_sent_snoc.
  destruct (fault (S (length (sent st)))); cbn; by rewrite <- ?app_assoc.
Qed.

(** The audit insert: one insert into the audit table is sent, then a
    commit, or a roll back after the statement that failed.  The step
    returns unless that roll back fails; then it ends with the exception of
    the roll back, and the document is not recorded. *)
Lemma insert_audit_row_runs collection_name audit_row had_errors
    insert_failed st :
  audit_row ≠ ∅ →
  audit_step collection_name audit_row had_errors insert_failed st
  = let n := length (sent st) in
    let audit := audit_insert audit_config audit_row in
    match fault n with
    | None =>
        match fault (S n) with
        | None =>
            (Return tt,
             advance st [audit; Commit] 0
               (record_document collection_name had_errors insert_failed))
        | Some _ =>
            match fault (S (S n)) with
            | None =>
                (Return tt,
                 advance st [audit; Commit; Rollback] 0
                   (record_document collection_name had_errors true))
            | Some e => (Raise e, advance st [audit; Commit; Rollback] 0 id)
            end
        end
    | Some _ =>
        match fault (S n) with
        | None =>
            (Return tt,
             advance st [audit; Rollback] 0
               (record_document collection_name had_errors true))
        | Some e => (Raise e, advance st [audit; Rollback] 0 id)
        end
    end.
Proof.
  intros Hne. unfold insert_audit_row, seq, catch, commit.
  rewrite insert_row_sends by done.
  unfold rollback, execute, with_report, modify, advance, audit_insert.
  cbn [sent tables ticks report effect].
  destruct (fault (length (sent st))) eqn:Hfirst; cbn.
  - rewrite length_sent_snoc.
    destruct (fault (S (length (sent st)))) eqn:Hsecond; cbn;
      by rewrite <- ?app_assoc.
  - rewrite length_sent_snoc.
    destruct (fault (S (length (sent st)))) eqn:Hsecond; cbn.
    + rewrite !length_app. cbn [length]. rewrite !Nat.add_1_r.
      destruct (fault (S (S (length (sent st))))); cbn;
        by rewrite <- ?app_assoc.
    + by rewrite <- ?app_assoc.
Qed.

Section OneDocument.
Variable collection_name : string.
Variable collection_config : collection_config.
Variable object_status : string.
Variable document : dict.
Variable result : transform_result.
Hypothesis Hresult :
  transform_document rt document (mappings collection_config)
    (date_formats runtime_config) (date_output_format runtime_config)
    (datetime_output_format runtime_config) = Return result.

Local Abbreviation audit_at reading status :=
  (audit_insert audit_config
     (document_audit_row rt audit_config collection_name collection_config
        object_status document result (clock reading) status)).
Local Abbreviation count failed :=
  (record_document collection_name (had_errors (errors result)) failed
   ∘ record_missing_columns (target_table collection_config)
       (missing_columns result)).
Local Abbreviation noted :=
  (record_missing_columns (target_table collection_config)
     (missing_columns result)).

Lemma process_document_unfold table_exists st :
  document_step collection_name collection_config object_status table_exists
    document st
  = (outcome <- business_step collection_name collection_config table_exists
                  document (transformed result)
                  (business_status_of audit_config (errors result)) ;;
     ingested_at <- now clock ;;
     audit_step collection_name
       (document_audit_row rt audit_config collection_name collection_config
          object_status document result ingested_at outcome.1)
       (had_errors (errors result)) outcome.2)
      (advance st [] 0
         (record_missing_columns (target_table collection_config)
            (missing_columns result))).
Proof.
  unfold process_document, seq at 1, lift. rewrite Hresult.
  unfold seq at 1, with_report, modify, advance. rewrite app_nil_r.
  cbn [tables sent ticks report Nat.add].
  unfold seq. destruct (business_step _ _ _ _ _ _ _) as [[[ps failed]|e] st1];
    reflexivity.
Qed.

(** A document of a collection whose table is missing: no business insert,
    one audit insert with the processing status [missing], and one more
    insert failure in the report, unless the roll back after a failed
    audit insert or commit fails too. *)
Lemma process_document_missing_table st :
  document_step collection_name collection_config object_status false
    document st
  = let n := length (sent st) in
    let audit := audit_at (ticks st) (sv_missing (status_values_of audit_config)) in
    match fault n with
    | None =>
        match fault (S n) with
        | None => (Return tt, advance st [audit; Commit] 1 (count true))
        | Some _ =>
            match fault (S (S n)) with
            | None =>
                (Return tt, advance st [audit; Commit; Rollback] 1 (count true))
            | Some e => (Raise e, advance st [audit; Commit; Rollback] 1 noted)
            end
        end
    | Some _ =>
        match fault (S n) with
        | None => (Return tt, advance st [audit; Rollback] 1 (count true))
        | Some e => (Raise e, advance st [audit; Rollback] 1 noted)
        end
    end.
Proof.
  rewrite process_document_unfold.
  unfold seq at 1. rewrite insert_business_row_missing_table.
  unfold seq, now. cbn [fst snd].
  rewrite insert_audit_row_runs by apply audit_row_nonempty.
  cbn zeta. unfold advance. cbn [tables sent ticks report].
  rewrite !app_nil_r.
  repeat match goal with |- context [fault ?n] => destruct (fault n) end;
    reflexivity.
Qed.

(** A document of a collection whose table exists: one business insert,
    rolled back when it fails, then one audit insert.  A roll back that
    fails ends the step with its exception. *)
Lemma process_document_existing_table st fields :
  build_business_audit_fields audit_config (clock (ticks st)) collection_name
    (business_status_of audit_config (errors result)) = Return fields →
  document_step collection_name collection_config object_status true
    document st
  = let n := length (sent st) in
    let business :=
      business_insert collection_config
        (fields ∪ <[raw_json_column collection_config := PDict document]>
                    (transformed result)) in
    let status := business_status_of audit_config (errors result) in
    let error := sv_error (status_values_of audit_config) in
    match fault n with
    | None =>
        let audit := audit_at (S (ticks st)) status in
        match fault (S n) with
        | None =>
            match fault (S (S n)) with
            | None =>
                (Return tt, advance st [business; audit; Commit] 2 (count false))
            | Some _ =>
                match fault (S (S (S n))) with
                | None =>
                    (Return tt,
                     advance st [business; audit; Commit; Rollback] 2 (count true))
                | Some e =>
                    (Raise e,
                     advance st [business; audit; Commit; Rollback] 2 noted)
                end
            end
        | Some _ =>
            match fault (S (S n)) with
            | None =>
                (Return tt, advance st [business; audit; Rollback] 2 (count true))
            | Some e => (Raise e, advance st [business; audit; Rollback] 2 noted)
            end
        end
    | Some _ =>
        let audit := audit_at (S (ticks st)) error in
        match fault (S n) with
        | Some e => (Raise e, advance st [business; Rollback] 1 noted)
        | None =>
            match fault (S (S n)) with
            | None =>
                match fault (S (S (S n))) with
                | None =>
                    (Return tt,
                     advance st [business; Rollback; audit; Commit] 2 (count true))
                | Some _ =>
                    match fault (S (S (S (S n)))) with
                    | None =>
                        (Return tt,
                         advance st [business; Rollback; audit; Commit; Rollback]
                           2 (count true))
                    | Some e =>
                        (Raise e,
                         advance st [business; Rollback; audit; Commit; Rollback]
                           2 noted)
                    end
                end
            | Some _ =>
                match fault (S (S (S n))) with
                | None =>
                    (Return tt,
                     advance st [business; Rollback; audit; Rollback] 2
                       (count true))
                | Some e =>
                    (Raise e,
                     advance st [business; Rollback; audit; Rollback] 2 noted)
                end
            end
        end
    end.
Proof.
  intros Hfields. rewrite process_document_unfold.
  unfold seq at 1.
  rewrite (insert_business_row_existing_table _ _ _ _ _ _ fields)
    by (unfold advance; cbn [ticks]; exact Hfields).
  cbn zeta. unfold advance. cbn [sent ticks tables report Nat.add].
  rewrite !app_nil_r.
  destruct (fault (length (sent st))) eqn:Hfirst;
    [destruct (fault (S (length (sent st)))) eqn:Hsecond|];
    unfold seq, now; cbn [fst snd];
    rewrite ?insert_audit_row_runs by apply audit_row_nonempty;
    cbn zeta; unfold advance; cbn [tables sent ticks report Nat.add id];
    rewrite ?length_app; cbn [length Nat.add];
    rewrite ?Nat.add_1_r, ?Nat.add_0_r;
    replace (length (sent st) + 2) with (S (S (length (sent st)))) by lia;
    repeat match goal with |- context [fault ?n] => destruct (fault n) end;
    simplify_eq; rewrite <- ?app_assoc; reflexivity.
Qed.

(** A document whose transformation has returned gets exactly one audit
    insert, which follows the business insert (and its roll back), if
    there is one, and which only a commit or a roll back follow; or else
    the roll back of the business insert failed and the step ends with its
    exception before the audit insert.  The step raises only the exception
    of a roll back that failed, which then is the last statement sent. *)
Lemma process_document_audits_once table_exists st :
  (table_exists = true →
   ∃ fields,
     build_business_audit_fields audit_config (clock (ticks st)) collection_name
       (business_status_of audit_config (errors result)) = Return fields) →
  ∃ outcome st' new,
    document_step collection_name collection_config object_status table_exists
      document st = (outcome, st')
    ∧ sent st' = sent st ++ new
    ∧ tables st' = tables st
    ∧ (∀ e, outcome = Raise e → rollback_failed fault st' e)
    ∧ ((∃ before reading status after,
          new = before ++ audit_at reading status :: after
          ∧ Forall (λ stmt, is_insert stmt = false) after
          ∧ (table_exists = false → before = [])
          ∧ (∀ stmt, stmt ∈ before →
               stmt = Rollback
               ∨ ∃ values, stmt = business_insert collection_config values)
          ∧ length (filter (λ stmt, is_insert stmt = true) before) ≤ 1)
       ∨ (∃ values e,
            table_exists = true
            ∧ new = [business_insert collection_config values; Rollback]
            ∧ outcome = Raise e)).
Proof.
  intros Hfields.
  destruct table_exists.
  - destruct Hfields as [fields Hfields]; [done|].
    rewrite (process_document_existing_table st fields Hfields). cbn zeta.
    set (business := business_insert collection_config _).
    repeat match goal with
           | |- context [fault ?n] => destruct (fault n) eqn:?
           end;
      eexists _, _, _; (split; [reflexivity|]);
      unfold advance; cbn [sent tables];
      (split; [reflexivity|]); (split; [reflexivity|]);
      (split; [intros ? [= <-]; rollback_has_failed|]);
      first
        [ right; eexists _, _; repeat split; reflexivity
        | left; eexists [business; Rollback], (S (ticks st)),
            (sv_error (status_values_of audit_config)), _;
          (split; [reflexivity|])
        | left; eexists [business], (S (ticks st)),
            (business_status_of audit_config (errors result)), _;
          (split; [reflexivity|]) ];
      try ((split; [repeat first [apply List.Forall_nil
                                 |apply List.Forall_cons; [reflexivity|]]|]);
           (split; [done|]); subst business; unfold business_insert;
           (split; [|rewrite !filter_cons, filter_nil; cbn [is_insert];
                     repeat case_decide; try done; cbn; lia]);
           intros stmt Hin; set_solver).
  - rewrite process_document_missing_table. cbn zeta.
    repeat match goal with
           | |- context [fault ?n] => destruct (fault n) eqn:?
           end;
      eexists _, _, _; (split; [reflexivity|]);
      unfold advance; cbn [sent tables];
      (split; [reflexivity|]); (split; [reflexivity|]);
      (split; [intros ? [= <-]; rollback_has_failed|]);
      left;
      eexists [], (ticks st), (sv_missing (status_values_of audit_config)), _;
      (split; [reflexivity|]);
      (split; [repeat first [apply List.Forall_nil
                            |apply List.Forall_cons; [reflexivity|]]|]);
      (split; [done|]); (split; [|cbn; lia]);
      intros stmt Hin; set_solver.
Qed.

End OneDocument.

End DocumentFacts.

(* ===================================================================== *)
(** * Properties of table names *)
(* ===================================================================== *)

Lemma lower_char_dot c : lower_char c = "."%char ↔ c = "."%char.
Proof.
  destruct c as [[] [] [] [] [] [] [] []]; vm_compute; split; congruence.
Qed.

Lemma lower_char_idemp c : lower_char (lower_char c) = lower_char c.
Proof. destruct c as [[] [] [] [] [] [] [] []]; reflexivity. Qed.

Lemma lower_idemp s : lower (lower s) = lower s.
Proof. induction s as [|c s IH]; simpl; [done|]. by rewrite lower_char_idemp, IH. Qed.

Lemma split_once_lower s :
  split_once "." (lower s)
  = (λ parts, (lower parts.1, lower parts.2)) <$> split_once "." s.
Proof.
  induction s as [|c s IH]; simpl; [done|].
  destruct (decide (c = "."%char)) as [->|Hc].
  - reflexivity.
  - rewrite (bool_decide_eq_false_2 (c = _)) by done.
    rewrite bool_decide_eq_false_2 by by rewrite lower_char_dot.
    rewrite IH. by destruct (split_once "." s) as [[a b]|].
Qed.

(** Lower-casing a name before normalizing it changes nothing. *)
Lemma normalize_table_name_lower table_name :
  normalize_table_name (lower table_name) = normalize_table_name table_name.
Proof.
  unfold normalize_table_name, split_table_name.
  rewrite split_once_lower.
  destruct (split_once "." table_name) as [[schema table]|]; simpl;
    by rewrite !lower_idemp.
Qed.

(** Two names that differ in case only, of which [table_exists] finds one
    and not the other. *)
Lemma table_exists_is_case_sensitive :
  normalize_table_name "Public.Users" = normalize_table_name "public.users"
  ∧ (table_exists no_fault "public.users" users_database).1 = Return true
  ∧ (table_exists no_fault "Public.Users" users_database).1 = Return false.
Proof. repeat split; vm_compute; reflexivity. Qed.

(* ===================================================================== *)
(** * Properties of [ensure_database] *)
(* ===================================================================== *)

Section EnsureDatabaseFacts.
Variable srv : server.
Variable db_config : db_config.
Variable trace : list server_event.

(** With auto-create off, [ensure_database] returns at its first
    statement: no connection is opened and nothing is raised. *)
Lemma ensure_database_disabled :
  auto_create db_config = false →
  ensure_database srv db_config trace = (Return tt, trace).
Proof. intros Hoff. unfold ensure_database. by rewrite Hoff. Qed.

(** The probe connects; when it succeeds the connection is closed and
    nothing else happens. *)
Lemma ensure_database_reachable :
  auto_create db_config = true →
  connect srv (probe_params db_config) = Return tt →
  ensure_database srv db_config trace
  = (Return tt, trace ++ [Connect (probe_params db_config); Close]).
Proof.
  intros Hon Hconnect. unfold ensure_database. rewrite Hon. cbn [negb].
  fold (probe_params db_config).
  unfold seq, catch_class, catch, psycopg2_connect, connection_close, ask, pure.
  rewrite Hconnect. by rewrite <- app_assoc.
Qed.

(** A probe that fails with an [OperationalError] whose message does not
    say "does not exist" is fatal at once: a [LoadError], after one
    connection attempt. *)
Lemma ensure_database_unreachable message :
  auto_create db_config = true →
  connect srv (probe_params db_config) = Raise (Exn OperationalError message) →
  contains "does not exist" message = false →
  ensure_database srv db_config trace
  = (Raise (Exn LoadError ("Failed to connect to PostgreSQL: " +:+ message)),
     trace ++ [Connect (probe_params db_config)]).
Proof.
  intros Hon Hconnect Hmessage. unfold ensure_database. rewrite Hon. cbn [negb].
  fold (probe_params db_config).
  unfold seq, catch_class, catch, psycopg2_connect, ask.
  rewrite Hconnect. cbn. by rewrite Hmessage.
Qed.

(** A probe that fails because the database does not exist leads to the
    administrative database, where the database is looked up in
    [pg_database] and created when it is not listed. *)
Lemma ensure_database_creates message :
  auto_create db_config = true →
  connect srv (probe_params db_config) = Raise (Exn OperationalError message) →
  contains "does not exist" message = true →
  connect srv (admin_params db_config) = Return tt →
  select_database srv (name db_config) = Return false →
  create_database srv (name db_config) = Return tt →
  ensure_database srv db_config trace
  = (Return tt,
     trace ++ [Connect (probe_params db_config); Connect (admin_params db_config);
               SelectDatabase (name db_config); CreateDatabase (name db_config);
               Close]).
Proof.
  intros Hon Hconnect Hmessage Hadmin Hselect Hcreate.
  unfold ensure_database. rewrite Hon. cbn [negb].
  fold (probe_params db_config). fold (admin_params db_config).
  unfold seq, catch_class, catch, finally, psycopg2_connect, connection_close,
    ask, pure.
  rewrite Hconnect. cbn. rewrite Hmessage. cbn.
  rewrite Hadmin, Hselect. cbn. rewrite Hcreate.
  rewrite bool_decide_eq_true_2 by done. cbn.
  by rewrite <- !app_assoc.
Qed.

(** When [pg_database] lists the database after all, nothing is created. *)
Lemma ensure_database_listed message :
  auto_create db_config = true →
  connect srv (probe_params db_config) = Raise (Exn OperationalError message) →
  contains "does not exist" message = true →
  connect srv (admin_params db_config) = Return tt →
  select_database srv (name db_config) = Return true →
  ensure_database srv db_config trace
  = (Return tt,
     trace ++ [Connect (probe_params db_config); Connect (admin_params db_config);
               SelectDatabase (name db_config); Close]).
Proof.
  intros Hon Hconnect Hmessage Hadmin Hselect.
  unfold ensure_database. rewrite Hon. cbn [negb].
  fold (probe_params db_config). fold (admin_params db_config).
  unfold seq, catch_class, catch, finally, psycopg2_connect, connection_close,
    ask, pure.
  rewrite Hconnect. cbn. rewrite Hmessage. cbn.
  rewrite Hadmin, Hselect. cbn.
  rewrite bool_decide_eq_true_2 by done. cbn.
  by rewrite <- !app_assoc.
Qed.

End EnsureDatabaseFacts.

(** C6, at a failing input.  The database section has
    [create_if_missing: false] and the server has no database [etl]: a
    connection attempt would fail with "database does not exist".
    [ensure_database] returns without opening a connection and without
    raising; its statement that raises the load error "does not exist and
    auto-create is disabled" is never reached. *)
Theorem ensure_database_returns_when_auto_create_is_off :
  auto_create no_auto_create = false
  ∧ (∃ message,
       connect server_without_database (probe_params no_auto_create)
         = Raise (Exn OperationalError message)
       ∧ contains "does not exist" message = true)
  ∧ ensure_database server_without_database no_auto_create [] = (Return tt, []).
Proof.
  split; [reflexivity|split].
  - eexists. split; [reflexivity|]. vm_compute. reflexivity.
  - reflexivity.
Qed.

(* ===================================================================== *)
(** * Properties of the collection loop *)
(* ===================================================================== *)

Section CollectionFacts.
Variable rt : runtime.
Variable fault : nat → option exn.
Variable clock : nat → datetime.
Variable runtime_config : runtime_config.
Variable audit_config : audit_config.
Variable schema_tables_no_audit : gset string.

Local Abbreviation provision :=
  (provision_table fault runtime_config audit_config schema_tables_no_audit).
Local Abbreviation document_step :=
  (process_document rt fault clock runtime_config audit_config).

(** The three object statuses, in the order in which the orchestrator
    decides them. *)
Lemma object_status_priority :
  (∀ table_in_schema,
     object_status_of audit_config true table_in_schema
     = osv_already_exists (object_status_values_of audit_config))
  ∧ object_status_of audit_config false false
    = osv_new (object_status_values_of audit_config)
  ∧ object_status_of audit_config false true
    = osv_missing (object_status_values_of audit_config).
Proof. by repeat split. Qed.

(** A table that the database has: status [already_exists], nothing created. *)
Lemma provision_existing collection_config st :
  fault (length (sent st)) = None →
  split_table_name (target_table collection_config) ∈ tables st →
  provision collection_config st
  = (Return (osv_already_exists (object_status_values_of audit_config), true),
     advance st
       [SelectTable (split_table_name (target_table collection_config)).1
          (split_table_name (target_table collection_config)).2] 0
       (record_object_status (target_table collection_config)
          (osv_already_exists (object_status_values_of audit_config)))).
Proof.
  intros Hok Hin. unfold provision_table, table_exists.
  destruct (split_table_name (target_table collection_config))
    as [schema table] eqn:Hsplit.
  unfold seq, execute, get, pure, with_report, modify, advance.
  rewrite Hok. cbn [tables sent ticks report effect fst snd].
  rewrite bool_decide_eq_true_2 by done. cbn.
  by rewrite andb_false_r.
Qed.

(** A table that the database lacks and the schema source declares: status
    [missing], nothing created, the table noted in [missing_tables_db]. *)
Lemma provision_missing collection_config st :
  fault (length (sent st)) = None →
  split_table_name (target_table collection_config) ∉ tables st →
  normalize_table_name (target_table collection_config) ∈ schema_tables_no_audit →
  provision collection_config st
  = (Return (osv_missing (object_status_values_of audit_config), false),
     advance st
       [SelectTable (split_table_name (target_table collection_config)).1
          (split_table_name (target_table collection_config)).2] 0
       (add_missing_table_db (target_table collection_config)
        ∘ record_object_status (target_table collection_config)
            (osv_missing (object_status_values_of audit_config)))).
Proof.
  intros Hok Hout Hdeclared. unfold provision_table, table_exists.
  destruct (split_table_name (target_table collection_config))
    as [schema table] eqn:Hsplit.
  unfold seq, execute, get, pure, with_report, modify, advance.
  rewrite Hok. cbn [tables sent ticks report effect fst snd].
  rewrite bool_decide_eq_false_2 by done.
  rewrite bool_decide_eq_true_2 by done. reflexivity.
Qed.

(** A table that the database lacks and the schema source does not
    declare: status [new]; the schema and the table are created with the
    columns that [build_table_columns] derives from the mapping, and the
    creation is committed. *)
Lemma provision_new collection_config st table_columns :
  split_table_name (target_table collection_config) ∉ tables st →
  normalize_table_name (target_table collection_config) ∉ schema_tables_no_audit →
  build_table_columns (mappings collection_config)
    (raw_json_column collection_config) (type_mappings runtime_config)
    (business_columns audit_config) (business_column_types audit_config)
    = Return table_columns →
  (split_table_name (target_table collection_config)).1 ≠ EmptyString →
  (∀ k, k < 4 → fault (k + length (sent st)) = None) →
  provision collection_config st
  = (Return (osv_new (object_status_values_of audit_config), true),
     let schema := (split_table_name (target_table collection_config)).1 in
     let table := (split_table_name (target_table collection_config)).2 in
     State (tables st ∪ {[(schema, table)]})
       (sent st ++ [SelectTable schema table; CreateSchema schema;
                    CreateTable schema table table_columns; Commit])
       (ticks st)
       (record_object_status (target_table collection_config)
          (osv_new (object_status_values_of audit_config)) (report st))).
Proof.
  intros Hout Hundeclared Hcolumns Hschema Hok.
  assert (table_columns ≠ []) as Hnonempty.
  { intros ->. revert Hcolumns. unfold build_table_columns.
    destruct (add_mapping_columns _ _ _) as [acc|]; [|done]. cbn [bind].
    destruct acc as [columns names]. unfold _add_column at 1.
    case_bool_decide; [done|]. cbn [bind].
    destruct (add_business_columns _ _ _) as [acc'|] eqn:Hbusiness; [|done].
    cbn [bind]. intros [= Hempty].
    assert (∀ entries acc out,
              add_business_columns (business_column_types audit_config)
                entries acc = Return out →
              length acc.1 ≤ length out.1) as Hgrow.
    { clear. induction entries as [|[logical column] rest IH]; intros acc out.
      - by intros [= <-].
      - cbn [add_business_columns].
        destruct (negb _); [done|].
        destruct (str_item _ _) as [sql_type|]; [|done]. cbn [bind].
        destruct acc as [columns names]. unfold _add_column.
        case_bool_decide; [done|]. cbn [bind].
        intros Hrest%IH. cbn [fst] in *. rewrite length_app in Hrest.
        cbn in Hrest. lia. }
    apply Hgrow in Hbusiness. rewrite Hempty in Hbusiness.
    cbn [fst] in Hbusiness. rewrite length_app in Hbusiness.
    cbn in Hbusiness. lia. }
  pose proof (Hok 0 ltac:(lia)) as Hok0.
  pose proof (Hok 1 ltac:(lia)) as Hok1.
  pose proof (Hok 2 ltac:(lia)) as Hok2.
  pose proof (Hok 3 ltac:(lia)) as Hok3.
  cbn [Nat.add] in Hok0, Hok1, Hok2, Hok3.
  unfold provision_table, table_exists, _ensure_schema, create_schema,
    create_table, commit.
  destruct (split_table_name (target_table collection_config))
    as [schema table] eqn:Hsplit.
  cbn [fst snd] in *.
  unfold truthy. rewrite (bool_decide_eq_false_2 (schema = _)) by done.
  cbn [negb].
  destruct table_columns as [|column table_columns]; [done|].
  unfold seq, execute, get, pure, with_report, modify, lift.
  rewrite Hok0. cbn [tables sent ticks report effect fst snd].
  rewrite bool_decide_eq_false_2 by done.
  rewrite bool_decide_eq_false_2 by done.
  cbn. rewrite length_app. cbn [length]. rewrite Nat.add_1_r, Hok1. cbn.
  rewrite Hcolumns. cbn.
  rewrite !length_app. cbn [length]. rewrite !Nat.add_1_r, Hok2. cbn.
  rewrite !length_app. cbn [length]. rewrite !Nat.add_1_r, Hok3. cbn.
  by rewrite <- !app_assoc.
Qed.

Lemma record_missing_columns_counts object_name missing report :
  insert_failures (record_missing_columns object_name missing report)
    = insert_failures report
  ∧ processed_counts (record_missing_columns object_name missing report)
    = processed_counts report.
Proof. by destruct missing. Qed.

(** The documents of a collection whose table is missing, when each of them
    transforms: nothing but audit inserts with the processing status
    [missing] is written, and no document counts as processed.  The loop
    returns unless a roll back fails: then it has written one such insert
    per document, and each document counts as an insert failure.  It
    raises only the exception of a roll back that failed, which then is
    the last statement sent. *)
Lemma missing_table_documents collection_name collection_config object_status
    documents st :
  Forall (λ document,
            ∃ result,
              transform_document rt document (mappings collection_config)
                (date_formats runtime_config) (date_output_format runtime_config)
                (datetime_output_format runtime_config) = Return result)
    documents →
  ∃ outcome st' new,
    for_each documents
      (document_step collection_name collection_config object_status false) st
    = (outcome, st')
    ∧ sent st' = sent st ++ new
    ∧ tables st' = tables st
    ∧ Forall (λ stmt,
                is_ddl stmt = false
                ∧ (is_insert stmt = true →
                   ∃ values,
                     stmt = audit_insert audit_config values
                     ∧ values !! ac_processing_status (audit_columns_of audit_config)
                       = Some (PStr (sv_missing (status_values_of audit_config)))))
        new
    ∧ processed_counts (report st') = processed_counts (report st)
    ∧ match outcome with
      | Return _ =>
          length (filter (λ stmt, is_insert stmt = true) new) = length documents
          ∧ insert_failures (report st')
            = Nat.iter (length documents) (increment collection_name)
                (insert_failures (report st))
      | Raise e => rollback_failed fault st' e
      end.
Proof.
  intros Hall. revert st.
  induction Hall as [|document documents [result Hresult] _ IH]; intros st.
  - exists (Return tt), st, []. rewrite app_nil_r. by repeat split.
  - cbn [for_each]. unfold seq at 1.
    rewrite (process_document_missing_table rt fault clock runtime_config
               audit_config collection_name collection_config object_status
               document result Hresult st).
    cbn zeta.
    set (audit := audit_insert audit_config _).
    assert (is_ddl audit = false
            ∧ (is_insert audit = true →
               ∃ values,
                 audit = audit_insert audit_config values
                 ∧ values !! ac_processing_status (audit_columns_of audit_config)
                   = Some (PStr (sv_missing (status_values_of audit_config)))))
      as Haudit.
    { split; [done|]. intros _. eexists. split; [reflexivity|].
      apply audit_row_processing_status. }
    assert (is_insert audit = true) as Hinsert by done.
    clearbody audit.
    repeat match goal with
           | |- context [fault ?n] => destruct (fault n) eqn:?
           end;
      first
        [ (* the step has returned *)
          match goal with
          | |- context [for_each _ _ ?st1] =>
              destruct (IH st1)
                as (outcome & st' & new & -> & Hsent & Htables & Hnew & Hproc
                    & Hout)
          end;
          eexists outcome, st', _; (split; [reflexivity|]);
          rewrite Hsent, Htables, Hproc;
          unfold advance; cbn [sent tables report compose];
          unfold record_document; cbn [insert_failures processed_counts];
          rewrite ?(proj2 (record_missing_columns_counts _ _ _));
          (split; [by rewrite <- app_assoc|]); (split; [done|]);
          cbn [app];
          (split; [repeat (apply List.Forall_cons; [by auto|]); exact Hnew|]);
          (split; [done|]);
          destruct outcome; [|exact Hout];
          destruct Hout as [Hcount Hfail];
          revert Hfail; unfold advance; cbn [report compose];
          unfold record_document; cbn [insert_failures];
          rewrite ?(proj1 (record_missing_columns_counts _ _ _));
          intros Hfail;
          (split; [|cbn [length]; by rewrite Nat.iter_succ_r]);
          rewrite !filter_cons; rewrite Hinsert; cbn [is_insert];
          repeat case_decide; try done; cbn [length]; by rewrite Hcount
        | (* the step has raised *)
          eexists (Raise _), _, _; (split; [reflexivity|]);
          unfold advance; cbn [sent tables report];
          rewrite ?(proj2 (record_missing_columns_counts _ _ _));
          (split; [reflexivity|]); (split; [done|]);
          (split; [repeat (apply List.Forall_cons; [by auto|]);
                   apply List.Forall_nil|]);
          (split; [done|]); rollback_has_failed ].
Qed.

End CollectionFacts.

(* ===================================================================== *)
(** * The claims about the orchestrator *)
(* ===================================================================== *)

(** C3, at a failing input.  The document [{"id": Infinity}] of the
    collection [users] (mapping [id → int]) is iterated by the document
    loop, and its transformation raises [OverflowError] before anything is
    sent: no audit row is built or inserted for it, whether the destination
    table exists or not.  The exception leaves the loop, so the documents
    after it are not processed either, and the run ends with a load error. *)
Theorem infinite_id_document_gets_no_audit_row :
  (∀ rt fault clock object_status table_exists st,
     process_document rt fault clock default_runtime_config
       default_audit_config "users" users_collection object_status
       table_exists document_with_infinite_id st
     = (Raise (Exn OverflowError "cannot convert float infinity to integer"),
        st))
  ∧ (let run :=
       load_collections Ref.runtime no_fault seconds_clock
         default_runtime_config default_audit_config users_mapping_config ∅
         [("users", [document_with_infinite_id; document_without_name])]
         users_database in
     run.1 = Raise (Exn LoadError "cannot convert float infinity to integer")
     ∧ sent run.2 = [SelectTable "public" "users"; Rollback]).
Proof.
  split.
  - reflexivity.
  - split; vm_compute; reflexivity.
Qed.

(** Two mapped attributes with one target column: the document lacks the
    first one and has the second, nothing else is wrong with it, and the
    column that [missing_columns] names is not null in the row. *)
Lemma shared_target_column_is_not_null :
  absent document_with_b_only shared_column_mappings = [("a", Mapping "x" "int")]
  ∧ ∃ result,
      transform_document Ref.runtime document_with_b_only
        shared_column_mappings ymd_then_dmy iso_date iso_datetime
      = Return result
      ∧ missing_columns result = ["x"]
      ∧ errors result = []
      ∧ transformed result !! "x" = Some (PInt 5).
Proof.
  split; [reflexivity|].
  eexists. split; [vm_compute; reflexivity|]. by repeat split.
Qed.

(** C4, as the code has it.  A document that lacks N mapped attributes and
    whose other attributes convert without error: [transform_document]
    returns the N target columns as [missing_columns] and no errors; each
    of the N columns is null in the row when the target columns of the
    mapping are pairwise different; the orchestrator takes [success] as
    business and processing status, and when the destination table exists
    and the business insert succeeds, the audit row carries [success]. *)
Theorem missing_attributes_keep_success :
  ∀ rt runtime_config collection_config document,
    converts_cleanly rt document (date_formats runtime_config)
      (date_output_format runtime_config)
      (datetime_output_format runtime_config) (mappings collection_config) →
    ∃ result,
      transform_document rt document (mappings collection_config)
        (date_formats runtime_config) (date_output_format runtime_config)
        (datetime_output_format runtime_config) = Return result
      ∧ missing_columns result
        = column <$> (absent document (mappings collection_config)).*2
      ∧ length (missing_columns result)
        = length (absent document (mappings collection_config))
      ∧ (NoDup (column <$> (mappings collection_config).*2) →
         ∀ col, col ∈ missing_columns result →
                transformed result !! col = Some PNone)
      ∧ errors result = []
      ∧ ∀ audit_config,
          business_status_of audit_config (errors result)
          = sv_success (status_values_of audit_config)
          ∧ ∀ fault clock collection_name object_status st fields,
              build_business_audit_fields audit_config (clock (ticks st))
                collection_name (sv_success (status_values_of audit_config))
                = Return fields →
              fault (length (sent st)) = None →
              ∃ outcome st' after,
                process_document rt fault clock runtime_config audit_config
                  collection_name collection_config object_status true
                  document st = (outcome, st')
                ∧ sent st'
                  = sent st
                    ++ business_insert collection_config
                         (fields
                          ∪ <[raw_json_column collection_config := PDict document]>
                              (transformed result))
                    :: audit_insert audit_config
                         (document_audit_row rt audit_config collection_name
                            collection_config object_status document result
                            (clock (S (ticks st)))
                            (sv_success (status_values_of audit_config)))
                    :: after
                ∧ Forall (λ stmt, is_insert stmt = false) after
                ∧ (fault (S (length (sent st))) = None →
                   fault (S (S (length (sent st)))) = None →
                   outcome = Return tt ∧ after = [Commit]).
Proof.
  intros rt runtime_config collection_config document Hclean.
  destruct (loop_clean rt document _ _ _ _ (TransformResult ∅ [] []) Hclean)
    as (result & Hresult & Herrors).
  fold (transform_document rt document (mappings collection_config)
          (date_formats runtime_config) (date_output_format runtime_config)
          (datetime_output_format runtime_config)) in Hresult.
  cbn [errors] in Herrors.
  pose proof (loop_missing _ _ _ _ _ _ _ _ Hresult) as Hmissing.
  cbn [missing_columns app] in Hmissing.
  exists result. split; [exact Hresult|]. split; [exact Hmissing|].
  split; [by rewrite Hmissing, !length_fmap|].
  split.
  { intros Hnodup col Hcol. rewrite Hmissing in Hcol.
    by eapply loop_missing_null. }
  split; [exact Herrors|].
  intros audit_config.
  assert (business_status_of audit_config (errors result)
          = sv_success (status_values_of audit_config)) as Hstatus
    by by rewrite Herrors.
  split; [exact Hstatus|].
  intros fault clock collection_name object_status st fields Hfields Hok.
  rewrite <- Hstatus in Hfields.
  rewrite (process_document_existing_table rt fault clock runtime_config
             audit_config collection_name collection_config object_status
             document result Hresult st fields Hfields).
  cbn zeta. rewrite Hok, Hstatus.
  repeat match goal with
         | |- context [fault ?n] => destruct (fault n) eqn:?
         end;
    eexists _, _, _; (split; [reflexivity|]); unfold advance; cbn [sent];
    (split; [reflexivity|]);
    (split; [repeat first [apply List.Forall_nil
                          |apply List.Forall_cons; [reflexivity|]]|]);
    by intros ? ?.
Qed.

Lemma missing_attributes_keep_success_witness :
  ∃ result,
    transform_document Ref.runtime document_without_name users_mappings
      ymd_then_dmy "%Y-%m-%d" "%Y-%m-%dT%H:%M:%S%z" = Return result
    ∧ missing_columns result = ["name"]
    ∧ transformed result !! "name" = Some PNone
    ∧ errors result = []
    ∧ business_status_of default_audit_config (errors result) = "success"
    ∧ ∃ outcome st' fields after,
        process_document Ref.runtime no_fault seconds_clock
          default_runtime_config default_audit_config "users" users_collection
          "ALREADY_EXISTS" true document_without_name users_database
        = (outcome, st')
        ∧ sent st'
          = sent users_database
            ++ business_insert users_collection
                 (fields ∪ <["raw_json" := PDict document_without_name]>
                             (transformed result))
            :: audit_insert default_audit_config
                 (document_audit_row Ref.runtime default_audit_config "users"
                    users_collection "ALREADY_EXISTS" document_without_name
                    result (seconds_clock 1) "success")
            :: after
        ∧ outcome = Return tt ∧ after = [Commit].
Proof.
  destruct (missing_attributes_keep_success Ref.runtime default_runtime_config
              users_collection document_without_name)
    as (result & Hresult & Hmissing & _ & Hnull & Herrors & Hstatus).
  - intros source_attr mapping Hin Hpresent.
    repeat (apply elem_of_cons in Hin as [[= -> ->]|Hin]);
      [eexists _, _; split; vm_compute; reflexivity
      |discriminate Hpresent
      |eexists _, _; split; vm_compute; reflexivity
      |by apply elem_of_nil in Hin].
  - exists result. split; [exact Hresult|].
    assert (missing_columns result = ["name"]) as Hname by exact Hmissing.
    split; [exact Hname|]. split.
    { apply Hnull; [|rewrite Hname; by left].
      apply (bool_decide_eq_true_1 (NoDup _)). vm_compute. reflexivity. }
    split; [exact Herrors|].
    destruct (Hstatus default_audit_config) as [Hsuccess Hrun].
    split; [exact Hsuccess|].
    edestruct (Hrun no_fault seconds_clock "users" "ALREADY_EXISTS"
                 users_database)
      as (outcome & st' & after & Hdocument & Hsent & _ & Hhealthy);
      [vm_compute; reflexivity|reflexivity|].
    eexists outcome, st', _, after. split; [exact Hdocument|].
    split; [exact Hsent|]. by apply Hhealthy.
Defined.

(** A collection whose table is declared in the schema source and absent
    from the database, and is created all the same: the table
    [etl_audit.events] lies in the audit schema, and the orchestrator takes
    the tables of the audit schema out of the declared ones before it
    resolves a collection's table. *)
Lemma declared_audit_schema_table_is_created :
  let schema_tables : gset string := {["etl_audit.events"]} in
  let run :=
    provision_table no_fault default_runtime_config default_audit_config
      (schema_tables_without_audit default_audit_config schema_tables)
      events_collection empty_database in
  normalize_table_name (target_table events_collection) ∈ schema_tables
  ∧ (split_table_name (target_table events_collection) ∉ tables empty_database)
  ∧ run.1 = Return ("NEW", true)
  ∧ sent run.2
    = [SelectTable "etl_audit" "events"; CreateSchema "etl_audit";
       CreateTable "etl_audit" "events"
         [ColumnDef "id" "INTEGER" false; ColumnDef "raw_json" "JSONB" true;
          ColumnDef "ingested_at" "TIMESTAMPTZ" true;
          ColumnDef "source_collection" "TEXT" true;
          ColumnDef "status" "TEXT" true];
       Commit].
Proof.
  cbn zeta. split; [|split; [|split]].
  - apply (bool_decide_eq_true_1 (_ ∈ _)). vm_compute. reflexivity.
  - apply (bool_decide_eq_false_1 (_ ∈ _)). vm_compute. reflexivity.
  - vm_compute. reflexivity.
  - vm_compute. reflexivity.
Qed.

(** C2, as the code has it.  A table counts as declared when the schema
    source declares it outside the audit schema and it is not the audit
    table.  In this order: a table that the database has gets the status
    [already_exists]; else a table that is not declared gets the status
    [new], and its schema and the table are created with the columns
    derived from the mapping; else the table gets the status [missing],
    nothing is created, and of the documents of the collection, when each
    of them transforms, nothing is written but audit rows with the
    processing status [missing], and no document counts as processed:
    one audit row per document, each document counting as an insert
    failure, unless a roll back fails.  The document loop raises only the
    exception of a roll back that failed, after the audit insert or the
    commit of a document has failed. *)
Theorem table_resolution_policy :
  ∀ rt fault clock runtime_config audit_config schema_tables
    collection_name collection_config,
    let declared :=
      normalize_table_name (target_table collection_config)
      ∈ schema_tables_without_audit audit_config schema_tables in
    let found st :=
      split_table_name (target_table collection_config) ∈ tables st in
    let schema := (split_table_name (target_table collection_config)).1 in
    let table := (split_table_name (target_table collection_config)).2 in
    let provision :=
      provision_table fault runtime_config audit_config
        (schema_tables_without_audit audit_config schema_tables)
        collection_config in
    let statuses := object_status_values_of audit_config in
    (declared ↔
       normalize_table_name (target_table collection_config) ∈ schema_tables
       ∧ keeps_schema_table audit_config
           (normalize_table_name (target_table collection_config)) = true)
    ∧ (∀ st,
         fault (length (sent st)) = None →
         found st →
         provision st
         = (Return (osv_already_exists statuses, true),
            advance st [SelectTable schema table] 0
              (record_object_status (target_table collection_config)
                 (osv_already_exists statuses))))
    ∧ (∀ st table_columns,
         ¬ found st →
         ¬ declared →
         build_table_columns (mappings collection_config)
           (raw_json_column collection_config) (type_mappings runtime_config)
           (business_columns audit_config) (business_column_types audit_config)
           = Return table_columns →
         schema ≠ EmptyString →
         (∀ k, k < 4 → fault (k + length (sent st)) = None) →
         provision st
         = (Return (osv_new statuses, true),
            State (tables st ∪ {[(schema, table)]})
              (sent st ++ [SelectTable schema table; CreateSchema schema;
                           CreateTable schema table table_columns; Commit])
              (ticks st)
              (record_object_status (target_table collection_config)
                 (osv_new statuses) (report st))))
    ∧ (∀ st,
         fault (length (sent st)) = None →
         ¬ found st →
         declared →
         provision st
         = (Return (osv_missing statuses, false),
            advance st [SelectTable schema table] 0
              (add_missing_table_db (target_table collection_config)
               ∘ record_object_status (target_table collection_config)
                   (osv_missing statuses))))
    ∧ (∀ documents st,
         Forall (λ document,
                   ∃ result,
                     transform_document rt document (mappings collection_config)
                       (date_formats runtime_config)
                       (date_output_format runtime_config)
                       (datetime_output_format runtime_config) = Return result)
           documents →
         ∃ outcome st' new,
           for_each documents
             (process_document rt fault clock runtime_config audit_config
                collection_name collection_config (osv_missing statuses) false)
             st
           = (outcome, st')
           ∧ sent st' = sent st ++ new
           ∧ tables st' = tables st
           ∧ Forall (λ stmt,
                       is_ddl stmt = false
                       ∧ (is_insert stmt = true →
                          ∃ values,
                            stmt = audit_insert audit_config values
                            ∧ values
                              !! ac_processing_status (audit_columns_of audit_config)
                              = Some (PStr (sv_missing
                                              (status_values_of audit_config)))))
               new
           ∧ processed_counts (report st') = processed_counts (report st)
           ∧ match outcome with
             | Return _ =>
                 length (filter (λ stmt, is_insert stmt = true) new)
                 = length documents
                 ∧ insert_failures (report st')
                   = Nat.iter (length documents) (increment collection_name)
                       (insert_failures (report st))
             | Raise e => rollback_failed fault st' e
             end).
Proof.
  intros rt fault clock runtime_config audit_config schema_tables
    collection_name collection_config. cbn zeta.
  split; [|split; [|split; [|split]]].
  - unfold schema_tables_without_audit. rewrite elem_of_filter. tauto.
  - intros st Hok Hfound. by apply provision_existing.
  - intros st table_columns Hfound Hdeclared Hcolumns Hschema Hok.
    by apply provision_new.
  - intros st Hok Hfound Hdeclared. by apply provision_missing.
  - intros documents st Hall. by apply missing_table_documents.
Qed.

Lemma table_resolution_policy_witness :
  (provision_table no_fault default_runtime_config default_audit_config
     (schema_tables_without_audit default_audit_config {["public.users"]})
     users_collection users_database).1
  = Return ("ALREADY_EXISTS", true)
  ∧ (provision_table no_fault default_runtime_config default_audit_config
       (schema_tables_without_audit default_audit_config ∅)
       users_collection empty_database).1
    = Return ("NEW", true)
  ∧ (provision_table no_fault default_runtime_config default_audit_config
       (schema_tables_without_audit default_audit_config {["public.users"]})
       users_collection empty_database)
    = (Return ("MISSING", false),
       advance empty_database [SelectTable "public" "users"] 0
         (add_missing_table_db "public.users"
          ∘ record_object_status "public.users" "MISSING"))
  ∧ ∃ st' new,
      for_each [document_without_name; document_with_null_name]
        (process_document Ref.runtime no_fault seconds_clock
           default_runtime_config default_audit_config "users" users_collection
           "MISSING" false) empty_database
      = (Return tt, st')
      ∧ sent st' = sent empty_database ++ new
      ∧ length (filter (λ stmt, is_insert stmt = true) new) = 2
      ∧ insert_failures (report st') = {["users" := 2]}.
Proof.
  destruct (table_resolution_policy Ref.runtime no_fault seconds_clock
              default_runtime_config default_audit_config {["public.users"]}
              "users" users_collection)
    as (Hdeclared & Hexisting & _ & Hmissing & Hdocuments).
  destruct (table_resolution_policy Ref.runtime no_fault seconds_clock
              default_runtime_config default_audit_config ∅
              "users" users_collection)
    as (_ & _ & Hnew & _ & _).
  split; [|split; [|split]].
  - rewrite (Hexisting users_database); [reflexivity|reflexivity|].
    apply (bool_decide_eq_true_1 (_ ∈ _)). vm_compute. reflexivity.
  - erewrite (Hnew empty_database); [reflexivity| | |vm_compute; reflexivity
                                     |discriminate|reflexivity].
    + apply (bool_decide_eq_false_1 (_ ∈ _)). vm_compute. reflexivity.
    + apply (bool_decide_eq_false_1 (_ ∈ _)). vm_compute. reflexivity.
  - apply (Hmissing empty_database); [reflexivity| |].
    + apply (bool_decide_eq_false_1 (_ ∈ _)). vm_compute. reflexivity.
    + apply (bool_decide_eq_true_1 (_ ∈ _)). vm_compute. reflexivity.
  - destruct (Hdocuments [document_without_name; document_with_null_name]
                empty_database)
      as (outcome & st' & new & Hrun & Hsent & _ & _ & _ & Hout).
    + repeat (apply List.Forall_cons; [eexists; vm_compute; reflexivity|]).
      apply List.Forall_nil.
    + assert (outcome = Return tt) as ->.
      { pose proof (f_equal fst Hrun) as Houtcome.
        vm_compute in Houtcome. congruence. }
      destruct Hout as [Hcount Hfailures].
      exists st', new. split; [exact Hrun|]. split; [exact Hsent|].
      split; [exact Hcount|]. rewrite Hfailures. vm_compute. reflexivity.
Defined.

(* ===================================================================== *)
(** * More properties of the type transformer *)
(* ===================================================================== *)

Section RowFacts.
Variable rt : runtime.
Variable document : dict.
Variable date_formats : list string.
Variable date_output_format datetime_output_format : string.

Local Abbreviation loop :=
  (transform_loop rt document date_formats date_output_format
     datetime_output_format).
Local Abbreviation value_of :=
  (column_value rt document date_formats date_output_format
     datetime_output_format).

Lemma attribute_value source_attr mapping acc acc' :
  transform_attribute rt document date_formats date_output_format
    datetime_output_format source_attr mapping acc = Return acc' →
  transformed acc'
  = <[column mapping := value_of (source_attr, mapping)]> (transformed acc).
Proof.
  unfold transform_attribute, column_value. cbn [fst snd].
  destruct (dict_contains source_attr document); cbn [negb].
  - destruct (transform_value _ _ _ _ _ _) as [[converted error]|e];
      cbn [bind]; [|done].
    destruct (truthy_opt_str error); by intros [= <-].
  - by intros [= <-].
Qed.

Lemma loop_row_values items acc r :
  NoDup (column <$> items.*2) →
  loop items acc = Return r →
  ∀ item, item ∈ items → transformed r !! column item.2 = Some (value_of item).
Proof.
  revert acc. induction items as [|[source_attr mapping] rest IH]; intros acc.
  - intros _ _ item Hin. by apply elem_of_nil in Hin.
  - rewrite !fmap_cons, NoDup_cons, loop_cons. cbn [fst snd].
    intros [Hfresh Hnodup].
    destruct (transform_attribute _ _ _ _ _ _ _ _) as [acc'|e] eqn:Hstep;
      cbn [bind]; [|done].
    intros Hloop item [->|Hin]%elem_of_cons.
    + cbn [snd].
      rewrite (loop_row_other _ _ _ _ _ _ _ _ _ Hloop Hfresh).
      rewrite (attribute_value _ _ _ _ Hstep). apply lookup_insert_eq.
    + by eapply IH.
Qed.

End RowFacts.

(** X1.  When the target columns of a mapping are pairwise different and
    [transform_document] returns, the row has exactly the target columns as
    keys, and each column holds the conversion of its attribute: null when
    the attribute is absent or the conversion gave an error message. *)
Theorem transformed_row_holds_every_column :
  ∀ rt document mappings date_formats date_output_format
    datetime_output_format r,
    NoDup (column <$> mappings.*2) →
    transform_document rt document mappings date_formats date_output_format
      datetime_output_format = Return r →
    dom (transformed r) = list_to_set (column <$> mappings.*2)
    ∧ ∀ item, item ∈ mappings →
        transformed r !! column item.2
        = Some (column_value rt document date_formats date_output_format
                  datetime_output_format item).
Proof.
  intros rt document mappings date_formats dof dtof r Hnodup Hret. split.
  - rewrite (loop_row_dom _ _ _ _ _ _ _ _ Hret). cbn [transformed].
    by rewrite dom_empty_L, (left_id_L ∅ (∪)).
  - by apply (loop_row_values rt document date_formats dof dtof mappings
                (TransformResult ∅ [] [])).
Qed.

Lemma transformed_row_holds_every_column_witness :
  ∃ r,
    transform_document Ref.runtime document_without_name users_mappings
      ymd_then_dmy iso_date iso_datetime = Return r
    ∧ dom (transformed r) = list_to_set (column <$> users_mappings.*2)
    ∧ transformed r !! "joined" = Some (PStr "2024-01-05")
    ∧ transformed r !! "name" = Some PNone.
Proof.
  destruct (transform_document Ref.runtime document_without_name users_mappings
              ymd_then_dmy iso_date iso_datetime) as [r|e] eqn:Hret;
    [|by vm_compute in Hret].
  assert (NoDup (column <$> users_mappings.*2)) as Hnodup.
  { apply (bool_decide_eq_true_1 _). vm_compute. reflexivity. }
  destruct (transformed_row_holds_every_column _ _ _ _ _ _ r Hnodup Hret)
    as [Hdom Hvalues].
  exists r. split; [reflexivity|]. split; [exact Hdom|]. split.
  - etrans; [apply (Hvalues ("joined", Mapping "joined" "date"));
             unfold users_mappings; set_solver|].
    vm_compute. reflexivity.
  - etrans; [apply (Hvalues ("name", Mapping "name" "text"));
             unfold users_mappings; set_solver|].
    vm_compute. reflexivity.
Defined.

(** An error message that the [try] block returns is one of the two about
    formats, and comes with a null value. *)
Lemma transform_value_try_error rt value normalized_type date_formats
    date_output_format datetime_output_format converted msg :
  transform_value_try rt value normalized_type date_formats
    date_output_format datetime_output_format
  = Return (Some (converted, Some msg)) →
  converted = PNone ∧ msg ∈ ["invalid date format"; "invalid datetime format"].
Proof.
  unfold transform_value_try.
  repeat (destruct (in_set normalized_type _);
          [ first [ by intros [=]
                  | match goal with |- context [bind ?x _] => destruct x end;
                    simpl; by intros [=] ]
          |]).
  repeat case_bool_decide.
  - destruct (parse_date _ _ _) as [[parsed|]|e]; simpl; [| |done].
    + destruct (strftime_date _ _ _); simpl; by intros [=].
    + intros [= <- <-]. split; [done|set_solver].
  - destruct (parse_datetime _ _ _) as [[parsed|]|e]; simpl; [| |done].
    + destruct (strftime _ _ _); simpl; by intros [=].
    + intros [= <- <-]. split; [done|set_solver].
  - done.
Qed.

(** X2.  Whatever [transform_value] returns, an error message comes with a
    null value, is not empty, and is one of four: invalid value for the
    type, unsupported target type, invalid date format, invalid datetime
    format. *)
Theorem transform_value_error_vocabulary :
  ∀ rt value target_type date_formats date_output_format
    datetime_output_format converted error,
    transform_value rt value target_type date_formats date_output_format
      datetime_output_format = Return (converted, error) →
    error = None
    ∨ (converted = PNone
       ∧ truthy_opt_str error = true
       ∧ ∃ msg, error = Some msg ∧ msg ∈ error_messages target_type).
Proof.
  intros rt value target_type date_formats dof dtof converted error.
  assert (∀ msg, msg ∈ error_messages target_type →
            truthy_opt_str (Some msg) = true) as Htruthy.
  { intros msg. unfold error_messages. rewrite !elem_of_cons, elem_of_nil.
    intros [->|[->|[->|[->|[]]]]]; reflexivity. }
  unfold transform_value.
  destruct value; try (intros [= <- <-]; by left);
    (destruct (transform_value_try _ _ _ _ _ _) as [[[c [msg|]]|]|e] eqn:Htry;
     cbn [try_except bind];
     [ apply transform_value_try_error in Htry as [-> Hmsg];
       intros [= <- <-]; right;
       assert (msg ∈ error_messages target_type) as Hin
         by (unfold error_messages; set_solver);
       split; [done|]; split; [by apply Htruthy|by exists msg]
     | intros [= <- <-]; by left
     | intros [= <- <-]; right;
       split; [done|]; split; [reflexivity|];
       eexists; split; [reflexivity|]; unfold error_messages; set_solver
     | case_bool_decide; cbn [bind]; [|done];
       intros [= <- <-]; right;
       split; [done|]; split; [reflexivity|];
       eexists; split; [reflexivity|]; unfold error_messages; set_solver ]).
Qed.

Lemma transform_value_error_vocabulary_witness :
  transform_value Ref.runtime (PStr "12x") "int" ymd_then_dmy iso_date
    iso_datetime = Return (PNone, Some "invalid value for type 'int'")
  ∧ "invalid value for type 'int'" ∈ error_messages "int".
Proof.
  assert (transform_value Ref.runtime (PStr "12x") "int" ymd_then_dmy iso_date
            iso_datetime = Return (PNone, Some "invalid value for type 'int'"))
    as Hret by (vm_compute; reflexivity).
  split; [exact Hret|].
  destruct (transform_value_error_vocabulary _ _ _ _ _ _ _ _ Hret)
    as [[=]|(_ & _ & msg & [= <-] & Hin)].
  exact Hin.
Defined.

(** X3.  When no conversion of a present attribute raises,
    [transform_document] returns, and its error list holds one entry
    [attribute: message] per attribute whose conversion gave a message, in
    the order of the mapping; the other attributes leave no entry. *)
Theorem transform_document_collects_errors :
  ∀ rt document mappings date_formats date_output_format
    datetime_output_format,
    (∀ source_attr mapping,
       (source_attr, mapping) ∈ mappings →
       dict_contains source_attr document = true →
       ∃ outcome,
         transform_value rt (dict_get source_attr document) (type mapping)
           date_formats date_output_format datetime_output_format
         = Return outcome) →
    ∃ r,
      transform_document rt document mappings date_formats date_output_format
        datetime_output_format = Return r
      ∧ errors r
        = omap (attribute_error rt document date_formats date_output_format
                  datetime_output_format) mappings.
Proof.
  intros rt document mappings date_formats dof dtof Hreturns.
  destruct (loop_records_errors rt document date_formats dof dtof mappings
              (TransformResult ∅ [] []) Hreturns) as (r & Hr & Herrors).
  exists r. split; [exact Hr|exact Herrors].
Qed.

Lemma transform_document_collects_errors_witness :
  ∃ r,
    transform_document Ref.runtime document_with_two_errors users_mappings
      ymd_then_dmy iso_date iso_datetime = Return r
    ∧ errors r = ["id: invalid value for type 'int'";
                  "joined: invalid date format"].
Proof.
  destruct (transform_document_collects_errors Ref.runtime
              document_with_two_errors users_mappings ymd_then_dmy iso_date
              iso_datetime) as (r & Hr & Herrors).
  - intros source_attr mapping Hin _. revert Hin.
    unfold users_mappings. rewrite !elem_of_cons, elem_of_nil.
    intros [[= -> ->]|[[= -> ->]|[[= -> ->]|[]]]]; eexists; vm_compute; reflexivity.
  - exists r. split; [exact Hr|]. rewrite Herrors. vm_compute. reflexivity.
Defined.

(** X4.  An exception that leaves [transform_document] was raised by the
    conversion of an attribute that the document has, and is none of
    [ValueError], [TypeError] and [InvalidOperation]. *)
Theorem transform_document_raises_from_a_conversion :
  ∀ rt document mappings date_formats date_output_format
    datetime_output_format e,
    transform_document rt document mappings date_formats date_output_format
      datetime_output_format = Raise e →
    (exn_cls e ∉ [ValueError; TypeError; InvalidOperation])
    ∧ ∃ source_attr mapping,
        (source_attr, mapping) ∈ mappings
        ∧ dict_contains source_attr document = true
        ∧ transform_value rt (dict_get source_attr document) (type mapping)
            date_formats date_output_format datetime_output_format = Raise e.
Proof.
  intros rt document mappings date_formats dof dtof e. unfold transform_document.
  generalize (TransformResult ∅ [] []).
  induction mappings as [|[source_attr mapping] rest IH]; intros acc; [done|].
  rewrite loop_cons.
  destruct (dict_contains source_attr document) eqn:Hin.
  - rewrite attribute_present by done.
    destruct (transform_value _ _ _ _ _ _) as [[converted error]|e'] eqn:Hvalue;
      cbn [bind].
    + destruct (truthy_opt_str error); intros Hloop;
        destruct (IH _ Hloop) as (Hcls & a & m & Hm & Ha & Hraise);
        (split; [exact Hcls|]); exists a, m; (split; [by right|done]).
    + intros [= ->]. split; [by eapply transform_value_raises|].
      exists source_attr, mapping. split; [by left|done].
  - rewrite attribute_absent by done. cbn [bind]. intros Hloop.
    destruct (IH _ Hloop) as (Hcls & a & m & Hm & Ha & Hraise).
    split; [exact Hcls|]. exists a, m. split; [by right|done].
Qed.

Lemma transform_document_raises_from_a_conversion_witness :
  ∃ e,
    transform_document Ref.runtime document_with_infinite_id users_mappings
      ymd_then_dmy iso_date iso_datetime = Raise e
    ∧ exn_cls e ∉ [ValueError; TypeError; InvalidOperation].
Proof.
  destruct (transform_document Ref.runtime document_with_infinite_id
              users_mappings ymd_then_dmy iso_date iso_datetime)
    as [r|e] eqn:Hraise; [by vm_compute in Hraise|].
  exists e. split; [reflexivity|].
  exact (proj1 (transform_document_raises_from_a_conversion _ _ _ _ _ _ e Hraise)).
Defined.

(** X5.  The types [date] and [datetime] read a string with the same
    list of formats, the first that matches: for [datetime] the parsed
    value is written with the datetime output format, and for [date] its
    time of day is dropped, the date being written with the date output
    format as of midnight. *)
Theorem date_type_drops_the_time_of_day :
  ∀ rt value target_type date_formats date_output_format
    datetime_output_format parsed text,
    first_format rt value date_formats = Return (Some parsed) →
    (normalize_type target_type = "date" →
     strftime rt (combine_min (dt_date parsed)) date_output_format = Return text →
     transform_value rt (PStr value) target_type date_formats date_output_format
       datetime_output_format = Return (PStr text, None))
    ∧ (normalize_type target_type = "datetime" →
       strftime rt parsed datetime_output_format = Return text →
       transform_value rt (PStr value) target_type date_formats
         date_output_format datetime_output_format = Return (PStr text, None)).
Proof.
  intros rt value target_type date_formats dof dtof parsed text Hparsed.
  split; intros Htype Htext; unfold transform_value, transform_value_try;
    rewrite Htype;
    repeat match goal with
    | |- context [in_set ?x ?l] =>
        let b := eval vm_compute in (in_set x l) in
        change (in_set x l) with b; cbv iota
    | |- context [bool_decide (?x = ?y :> string)] =>
        let b := eval vm_compute in (bool_decide (x = y)) in
        change (bool_decide (x = y)) with b; cbv iota
    end.
  - unfold parse_date. rewrite Hparsed. cbn [bind fmap option_fmap option_map].
    unfold strftime_date. by rewrite Htext.
  - unfold parse_datetime. rewrite Hparsed. cbn [bind]. by rewrite Htext.
Qed.

Lemma date_type_drops_the_time_of_day_witness :
  transform_value Ref.runtime (PStr "2024-01-05T10:30:00") " Date "
    [iso_date; iso_datetime] iso_date iso_datetime
  = Return (PStr "2024-01-05", None)
  ∧ transform_value Ref.runtime (PStr "2024-01-05T10:30:00") "DATETIME"
      [iso_date; iso_datetime] iso_date iso_datetime
    = Return (PStr "2024-01-05T10:30:00", None).
Proof.
  assert (first_format Ref.runtime "2024-01-05T10:30:00" [iso_date; iso_datetime]
          = Return (Some (DateTime (Date 2024 1 5) 10 30 0 0))) as Hparsed
    by (vm_compute; reflexivity).
  split.
  - apply (proj1 (date_type_drops_the_time_of_day Ref.runtime _ " Date " _
                    iso_date iso_datetime _ "2024-01-05" Hparsed));
      vm_compute; reflexivity.
  - apply (proj2 (date_type_drops_the_time_of_day Ref.runtime _ "DATETIME" _
                    iso_date iso_datetime _ "2024-01-05T10:30:00" Hparsed));
      vm_compute; reflexivity.
Defined.

Lemma isspace_lower_char c : isspace (lower_char c) = isspace c.
Proof. destruct c as [[] [] [] [] [] [] [] []]; reflexivity. Qed.

Lemma lstrip_lower s : lstrip (lower s) = lower (lstrip s).
Proof.
  induction s as [|c s IH]; [done|].
  cbn [lower lstrip]. rewrite isspace_lower_char.
  by destruct (isspace c).
Qed.

Lemma rev_app_lower a b :
  lower (String.rev_app a b) = String.rev_app (lower a) (lower b).
Proof. revert b. induction a as [|c a IH]; intros b; [done|]. cbn. by rewrite IH. Qed.

Lemma strip_lower s : strip (lower s) = lower (strip s).
Proof.
  unfold strip, rstrip, String.rev.
  by rewrite lstrip_lower, <- (rev_app_lower _ ""), lstrip_lower, (rev_app_lower _ "").
Qed.

Lemma append_nil_r s : s +:+ "" = s.
Proof.
  induction s as [|c s IH]; [done|].
  change (String c (s +:+ "") = String c s). by f_equal.
Qed.

Lemma rev_app_rev_app a b c :
  String.rev_app (String.rev_app a b) c = String.rev_app b (a +:+ c).
Proof.
  revert b c. induction a as [|x a IH]; intros b c; [done|].
  cbn [String.rev_app]. by rewrite IH.
Qed.

Lemma rev_involutive s : String.rev (String.rev s) = s.
Proof. unfold String.rev. rewrite rev_app_rev_app. cbn. apply append_nil_r. Qed.

Lemma lstrip_idemp s : lstrip (lstrip s) = lstrip s.
Proof.
  induction s as [|c s IH]; [done|].
  cbn [lstrip]. destruct (isspace c) eqn:Hc; [done|]. cbn [lstrip]. by rewrite Hc.
Qed.

Lemma rstrip_idemp s : rstrip (rstrip s) = rstrip s.
Proof. unfold rstrip. by rewrite rev_involutive, lstrip_idemp. Qed.

Lemma append_cons c a b : String c a +:+ b = String c (a +:+ b).
Proof. reflexivity. Qed.

Lemma append_assoc a b c : (a +:+ b) +:+ c = a +:+ (b +:+ c).
Proof.
  induction a as [|x a IH]; [done|]. rewrite !append_cons. by f_equal.
Qed.

Lemma rev_app_append a b : String.rev_app a b = String.rev a +:+ b.
Proof.
  unfold String.rev. revert b. induction a as [|c a IH]; intros b; [done|].
  cbn [String.rev_app]. rewrite (IH (String c b)), (IH (String c "")).
  by rewrite append_assoc.
Qed.

Lemma rev_append a b : String.rev (a +:+ b) = String.rev b +:+ String.rev a.
Proof.
  induction a as [|c a IH].
  - by rewrite append_nil_r.
  - rewrite append_cons. unfold String.rev at 1 3. cbn [String.rev_app].
    rewrite !rev_app_append, IH. by rewrite append_assoc.
Qed.

(** A string that starts with a character that is not white space keeps
    this start when white space is stripped from its end. *)
Lemma rstrip_keeps_head c s :
  isspace c = false → ∃ s', rstrip (String c s) = String c s'.
Proof.
  intros Hc. unfold rstrip.
  change (String c s) with (String c "" +:+ s). rewrite rev_append.
  assert (∀ w, ∃ w', lstrip (w +:+ String c "") = w' +:+ String c "") as Hstrip.
  { induction w as [|x w [w' IH]].
    - exists "". change ("" +:+ String c "") with (String c "").
      cbn [lstrip]. by rewrite Hc.
    - rewrite append_cons. cbn [lstrip].
      destruct (isspace x); [by exists w'|by exists (String x w)]. }
  destruct (Hstrip (String.rev s)) as [w' Hw].
  change (String.rev (String c "")) with (String c "").
  rewrite Hw, rev_append. by eexists.
Qed.

Lemma strip_idemp s : strip (strip s) = strip s.
Proof.
  unfold strip.
  assert (lstrip (rstrip (lstrip s)) = rstrip (lstrip s)) as ->;
    [|apply rstrip_idemp].
  assert (lstrip s = "" ∨ ∃ c s', lstrip s = String c s' ∧ isspace c = false)
    as [->|(c & s' & -> & Hc)].
  { induction s as [|c s IH]; [by left|]. cbn [lstrip].
    destruct (isspace c) eqn:Hc; [exact IH|right; by exists c, s]. }
  - done.
  - destruct (rstrip_keeps_head c s' Hc) as [t ->]. cbn [lstrip]. by rewrite Hc.
Qed.

(** X6.  Normalizing a type name is idempotent and does not depend on
    the case of the name or on white space around it: a normalized name
    is its own normal form, and a name and its lower-cased or trimmed
    spelling have one normal form. *)
Theorem normalize_type_is_idempotent :
  ∀ type_value,
    normalize_type (normalize_type type_value) = normalize_type type_value
    ∧ normalize_type (lower type_value) = normalize_type type_value
    ∧ normalize_type (strip type_value) = normalize_type type_value.
Proof.
  intros type_value. unfold normalize_type. split; [|split].
  - by rewrite strip_lower, lower_idemp, strip_idemp.
  - by rewrite strip_lower, lower_idemp.
  - by rewrite strip_idemp.
Qed.

(* ===================================================================== *)
(** * More properties of table names *)
(* ===================================================================== *)

(** ["." in s], by the first character. *)
Lemma contains_dot_cons c s :
  contains "." (String c s) = bool_decide (c = "."%char) || contains "." s.
Proof.
  cbn [contains String.prefix].
  destruct (ascii_dec "." c) as [<-|Hne].
  - by destruct s.
  - by rewrite bool_decide_eq_false_2 by done.
Qed.

Lemma split_once_none s :
  split_once "." s = None ↔ contains "." s = false.
Proof.
  induction s as [|c s IH]; [done|].
  rewrite contains_dot_cons. cbn [split_once].
  case_bool_decide; cbn [orb]; [done|].
  rewrite <- IH. by destruct (split_once "." s) as [[a b]|].
Qed.

Lemma split_once_some s a b :
  split_once "." s = Some (a, b) →
  s = a +:+ "." +:+ b ∧ contains "." a = false.
Proof.
  revert a. induction s as [|c s IH]; intros a; [done|].
  cbn [split_once]. case_bool_decide as Hc.
  - intros [= <- <-]. by subst c.
  - destruct (split_once "." s) as [[a' b']|]; [|done].
    intros [= <- <-]. destruct (IH a' eq_refl) as [-> Ha']. split; [done|].
    rewrite contains_dot_cons, Ha'. by rewrite bool_decide_eq_false_2.
Qed.

Lemma split_once_join a b :
  contains "." a = false → split_once "." (a +:+ "." +:+ b) = Some (a, b).
Proof.
  induction a as [|c a IH]; [done|].
  rewrite contains_dot_cons. intros [Hc Ha]%orb_false_elim.
  change (String c a +:+ "." +:+ b) with (String c (a +:+ "." +:+ b)).
  cbn [split_once]. by rewrite Hc, (IH Ha).
Qed.

Lemma contains_dot_lower s : contains "." (lower s) = contains "." s.
Proof.
  induction s as [|c s IH]; [done|].
  cbn [lower]. rewrite !contains_dot_cons, IH. f_equal.
  apply bool_decide_ext, lower_char_dot.
Qed.

(** X7.  [split_table_name] splits at the first dot: a name with a dot is
    the schema, a dot and the table, where the schema has no dot (the table
    part keeps any further dots); joining a dot-free schema and a table and
    splitting again gives both back; a name without a dot is a table of the
    schema [public]. *)
Theorem split_table_name_round_trip :
  (∀ table_name,
     contains "." table_name = true →
     (split_table_name table_name).1 +:+ "." +:+ (split_table_name table_name).2
     = table_name
     ∧ contains "." (split_table_name table_name).1 = false)
  ∧ (∀ schema table,
       contains "." schema = false →
       split_table_name (schema +:+ "." +:+ table) = (schema, table))
  ∧ (∀ table_name,
       contains "." table_name = false →
       split_table_name table_name = ("public", table_name)).
Proof.
  split; [|split].
  - intros table_name Hdot. unfold split_table_name.
    destruct (split_once "." table_name) as [[schema table]|] eqn:Hsplit.
    + apply split_once_some in Hsplit as [-> Hschema]. by split.
    + apply split_once_none in Hsplit. congruence.
  - intros schema table Hschema. unfold split_table_name.
    by rewrite split_once_join.
  - intros table_name Hdot. unfold split_table_name.
    by rewrite (proj2 (split_once_none table_name) Hdot).
Qed.

Lemma split_table_name_round_trip_witness :
  split_table_name "sales.orders.v2" = ("sales", "orders.v2")
  ∧ split_table_name "orders" = ("public", "orders").
Proof.
  destruct split_table_name_round_trip as (_ & Hjoin & Hplain). split.
  - apply (Hjoin "sales" "orders.v2"). reflexivity.
  - apply (Hplain "orders"). reflexivity.
Defined.

Lemma split_normalize_table_name table_name :
  split_table_name (normalize_table_name table_name)
  = (lower (split_table_name table_name).1,
     lower (split_table_name table_name).2).
Proof.
  unfold normalize_table_name at 1.
  destruct (split_table_name table_name) as [schema table] eqn:Hparts.
  cbn [fst snd]. unfold split_table_name at 1.
  rewrite split_once_join; [done|].
  rewrite contains_dot_lower.
  unfold split_table_name in Hparts.
  destruct (split_once "." table_name) as [[a b]|] eqn:Hsplit.
  - injection Hparts as <- <-. by apply split_once_some in Hsplit as [_ ?].
  - by injection Hparts as <- <-.
Qed.

Lemma normalize_table_name_idemp table_name :
  normalize_table_name (normalize_table_name table_name)
  = normalize_table_name table_name.
Proof.
  unfold normalize_table_name at 1. rewrite split_normalize_table_name.
  rewrite !lower_idemp. unfold normalize_table_name.
  by destruct (split_table_name table_name).
Qed.

(** X8.  A normalized table name is schema-qualified and in normal form:
    splitting it gives the lower-cased schema and table of the name, and
    normalizing it again changes nothing. *)
Theorem normalize_table_name_is_idempotent :
  ∀ table_name,
    split_table_name (normalize_table_name table_name)
    = (lower (split_table_name table_name).1,
       lower (split_table_name table_name).2)
    ∧ normalize_table_name (normalize_table_name table_name)
      = normalize_table_name table_name.
Proof.
  intros table_name. split.
  - apply split_normalize_table_name.
  - apply normalize_table_name_idemp.
Qed.

(* ===================================================================== *)
(** * Properties of table provisioning *)
(* ===================================================================== *)

Lemma foldl_insert_lookup (type_mappings : list (string * string))
    (acc : gmap string string) key :
  foldl (λ acc kv, <[normalize_type kv.1 := kv.2]> acc) acc type_mappings !! key
  = match last_type_mapping type_mappings key with
    | Some sql_type => Some sql_type
    | None => acc !! key
    end.
Proof.
  revert acc. induction type_mappings as [|[k v] rest IH]; intros acc; [done|].
  cbn [foldl]. rewrite IH. unfold last_type_mapping. cbn [omap list_omap fst snd].
  fold (omap (λ kv : string * string,
                if bool_decide (normalize_type kv.1 = key) then Some kv.2 else None)
          rest).
  case_bool_decide as Hk.
  - rewrite last_cons. destruct (last (omap _ rest)); [done|].
    subst key. by rewrite lookup_insert_eq.
  - by rewrite lookup_insert_ne by done.
Qed.

(** X9.  The normalized type mappings give, for a normalized type name,
    the SQL type of the last entry whose key has this normal form: keys
    are compared trimmed and lower-cased, and of two keys with one normal
    form the later one decides. *)
Theorem type_mappings_lookup :
  ∀ type_mappings normalized_type,
    normalize_type_mappings type_mappings !! normalized_type
    = last_type_mapping type_mappings normalized_type.
Proof.
  intros type_mappings normalized_type. unfold normalize_type_mappings.
  rewrite foldl_insert_lookup, lookup_empty.
  by destruct (last_type_mapping _ _).
Qed.

Section TableColumnFacts.
Variable normalized_type_mappings : gmap string string.
Variable business_column_types : list (string * string).

Lemma add_column_returns acc name sql_type not_null acc' :
  tracks acc →
  _add_column acc name sql_type not_null = Return acc' →
  (name ∉ col_name <$> acc.1)
  ∧ acc'.1 = acc.1 ++ [ColumnDef name sql_type not_null]
  ∧ tracks acc'.
Proof.
  destruct acc as [columns names]. unfold tracks, _add_column. cbn [fst snd].
  intros ->. case_bool_decide as Hin; [done|]. intros [= <-]. cbn [fst snd].
  split; [by rewrite elem_of_list_to_set in Hin|]. split; [done|].
  rewrite fmap_app, list_to_set_app_L. cbn. set_solver.
Qed.

Lemma add_column_fresh acc name sql_type not_null :
  tracks acc →
  name ∉ col_name <$> acc.1 →
  _add_column acc name sql_type not_null
  = Return (acc.1 ++ [ColumnDef name sql_type not_null], acc.2 ∪ {[name]}).
Proof.
  destruct acc as [columns names]. unfold tracks, _add_column. cbn [fst snd].
  intros -> Hfresh. rewrite bool_decide_eq_false_2; [done|].
  by rewrite elem_of_list_to_set.
Qed.

Lemma add_column_raises acc name sql_type not_null e :
  _add_column acc name sql_type not_null = Raise e → exn_cls e = ConfigError.
Proof.
  destruct acc as [columns names]. unfold _add_column.
  case_bool_decide; [|done]. by intros [= <-].
Qed.

Lemma add_mapping_columns_returns entries acc acc' :
  tracks acc →
  add_mapping_columns normalized_type_mappings entries acc = Return acc' →
  ∃ mapped,
    acc'.1 = acc.1 ++ mapped
    ∧ Forall2 (is_mapped_column normalized_type_mappings) entries mapped
    ∧ tracks acc'
    ∧ (NoDup (col_name <$> acc.1) → NoDup (col_name <$> acc'.1)).
Proof.
  revert acc. induction entries as [|[source_attr mapping] rest IH]; intros acc Hacc.
  - intros [= <-]. exists []. rewrite app_nil_r. by repeat split.
  - cbn [add_mapping_columns].
    destruct (normalized_type_mappings !! _) as [sql_type|] eqn:Hsql; [|done].
    destruct (_add_column acc _ _ _) as [acc1|e] eqn:Hadd; cbn [bind]; [|done].
    apply add_column_returns in Hadd as (Hfresh & Hcols & Hacc1); [|done].
    intros Hrest. destruct (IH _ Hacc1 Hrest) as (mapped & Hcols' & Hall & Hacc' & Hnodup).
    exists (ColumnDef (column mapping) sql_type false :: mapped).
    split; [by rewrite Hcols', Hcols, <- app_assoc|].
    split; [by constructor|]. split; [done|].
    intros Hnd. apply Hnodup. rewrite Hcols, fmap_app. cbn.
    apply NoDup_app. split; [done|]. split; [|apply NoDup_singleton].
    intros x Hx ->%list_elem_of_singleton. done.
Qed.

Lemma add_business_columns_returns entries acc acc' :
  tracks acc →
  add_business_columns business_column_types entries acc = Return acc' →
  ∃ business,
    acc'.1 = acc.1 ++ business
    ∧ Forall2 (is_business_column business_column_types) entries business
    ∧ tracks acc'
    ∧ (NoDup (col_name <$> acc.1) → NoDup (col_name <$> acc'.1)).
Proof.
  revert acc. induction entries as [|[logical_name column_name] rest IH];
    intros acc Hacc.
  - intros [= <-]. exists []. rewrite app_nil_r. by repeat split.
  - cbn [add_business_columns].
    destruct (str_contains logical_name business_column_types); cbn [negb]; [|done].
    destruct (str_item logical_name business_column_types) as [sql_type|e] eqn:Hsql;
      cbn [bind]; [|done].
    destruct (_add_column acc _ _ _) as [acc1|e] eqn:Hadd; cbn [bind]; [|done].
    apply add_column_returns in Hadd as (Hfresh & Hcols & Hacc1); [|done].
    intros Hrest. destruct (IH _ Hacc1 Hrest) as (business & Hcols' & Hall & Hacc' & Hnodup).
    exists (ColumnDef column_name sql_type true :: business).
    split; [by rewrite Hcols', Hcols, <- app_assoc|].
    split; [by constructor|]. split; [done|].
    intros Hnd. apply Hnodup. rewrite Hcols, fmap_app. cbn.
    apply NoDup_app. split; [done|]. split; [|apply NoDup_singleton].
    intros x Hx ->%list_elem_of_singleton. done.
Qed.

Lemma is_mapped_column_names entries mapped :
  Forall2 (is_mapped_column normalized_type_mappings) entries mapped →
  col_name <$> mapped = column <$> entries.*2.
Proof.
  induction 1 as [|entry col entries mapped (Hname & _) _ IH]; [done|].
  cbn. by rewrite Hname, IH.
Qed.

Lemma is_business_column_names entries business :
  Forall2 (is_business_column business_column_types) entries business →
  col_name <$> business = entries.*2.
Proof.
  induction 1 as [|entry col entries business (Hname & _) _ IH]; [done|].
  cbn. by rewrite Hname, IH.
Qed.

Lemma str_item_contains key (d : list (string * string)) :
  str_contains key d = true → ∃ v, str_item key d = Return v.
Proof.
  unfold str_contains. rewrite bool_decide_eq_true.
  induction d as [|[k v] d IH]; cbn.
  - by intros ?%elem_of_nil.
  - intros [->|Hin]%elem_of_cons.
    + exists v. by rewrite bool_decide_eq_true_2.
    + case_bool_decide; [by exists v|by apply IH].
Qed.

Lemma add_mapping_columns_fresh entries acc :
  tracks acc →
  (∀ entry, entry ∈ entries →
     is_Some (normalized_type_mappings !! normalize_type (type entry.2))) →
  NoDup ((col_name <$> acc.1) ++ (column <$> entries.*2)) →
  ∃ acc', add_mapping_columns normalized_type_mappings entries acc = Return acc'.
Proof.
  revert acc. induction entries as [|[source_attr mapping] rest IH];
    intros acc Hacc Htypes Hnodup; [by eexists|].
  cbn [add_mapping_columns].
  destruct (Htypes (source_attr, mapping)) as [sql_type Hsql]; [by left|].
  cbn [snd] in Hsql. rewrite Hsql.
  cbn in Hnodup. apply NoDup_app in Hnodup as (Hnd1 & Hdisj & Hnd2).
  apply NoDup_cons in Hnd2 as [Hhead Hnd2].
  rewrite add_column_fresh; [|done|]; cbn [bind].
  - apply IH.
    + unfold tracks in *. cbn [fst snd]. rewrite Hacc, fmap_app, list_to_set_app_L.
      cbn. set_solver.
    + intros entry Hin. apply Htypes. by right.
    + cbn [fst]. rewrite fmap_app. cbn. rewrite <- app_assoc. cbn.
      apply NoDup_app. split; [done|]. split; [|by apply NoDup_cons].
      intros x Hx. by apply Hdisj.
  - intros Hin. apply (Hdisj _ Hin). by left.
Qed.

Lemma add_business_columns_fresh entries acc :
  tracks acc →
  (∀ entry, entry ∈ entries → str_contains entry.1 business_column_types = true) →
  NoDup ((col_name <$> acc.1) ++ entries.*2) →
  ∃ acc', add_business_columns business_column_types entries acc = Return acc'.
Proof.
  revert acc. induction entries as [|[logical_name column_name] rest IH];
    intros acc Hacc Htypes Hnodup; [by eexists|].
  cbn [add_business_columns].
  pose proof (Htypes (logical_name, column_name) ltac:(by left)) as Hin.
  cbn [fst] in Hin. rewrite Hin. cbn [negb].
  destruct (str_item_contains _ _ Hin) as [sql_type ->]. cbn [bind].
  cbn in Hnodup. apply NoDup_app in Hnodup as (Hnd1 & Hdisj & Hnd2).
  apply NoDup_cons in Hnd2 as [Hhead Hnd2].
  rewrite add_column_fresh; [|done|]; cbn [bind].
  - apply IH.
    + unfold tracks in *. cbn [fst snd]. rewrite Hacc, fmap_app, list_to_set_app_L.
      cbn. set_solver.
    + intros entry Hentry. apply Htypes. by right.
    + cbn [fst]. rewrite fmap_app. cbn. rewrite <- app_assoc. cbn.
      apply NoDup_app. split; [done|]. split; [|by apply NoDup_cons].
      intros x Hx. by apply Hdisj.
  - intros Hname. apply (Hdisj _ Hname). by left.
Qed.

Lemma add_mapping_columns_raises entries acc e :
  add_mapping_columns normalized_type_mappings entries acc = Raise e →
  exn_cls e = ConfigError.
Proof.
  revert acc. induction entries as [|[source_attr mapping] rest IH]; intros acc; [done|].
  cbn [add_mapping_columns].
  destruct (normalized_type_mappings !! _); [|by intros [= <-]].
  destruct (_add_column acc _ _ _) as [acc1|e1] eqn:Hadd; cbn [bind].
  - apply IH.
  - intros [= <-]. by eapply add_column_raises.
Qed.

Lemma add_business_columns_raises entries acc e :
  add_business_columns business_column_types entries acc = Raise e →
  exn_cls e = ConfigError.
Proof.
  revert acc. induction entries as [|[logical_name column_name] rest IH];
    intros acc; [done|].
  cbn [add_business_columns].
  destruct (str_contains logical_name business_column_types) eqn:Hin;
    cbn [negb]; [|by intros [= <-]].
  destruct (str_item_contains _ _ Hin) as [sql_type ->]. cbn [bind].
  destruct (_add_column acc _ _ _) as [acc1|e1] eqn:Hadd; cbn [bind].
  - apply IH.
  - intros [= <-]. by eapply add_column_raises.
Qed.

End TableColumnFacts.

(** What [build_table_columns] returns, column by column. *)
Lemma build_table_columns_returns :
  ∀ mappings raw_json_column type_mappings business_columns
    business_column_types columns,
    build_table_columns mappings raw_json_column type_mappings
      business_columns business_column_types = Return columns →
    (∃ mapped business,
       columns = mapped ++ ColumnDef raw_json_column "JSONB" true :: business
       ∧ Forall2 (is_mapped_column (normalize_type_mappings type_mappings))
           mappings mapped
       ∧ Forall2 (is_business_column business_column_types)
           business_columns business)
    ∧ col_name <$> columns
      = table_column_names mappings raw_json_column business_columns
    ∧ NoDup (col_name <$> columns).
Proof.
  intros mappings raw type_mappings bc bct columns. unfold build_table_columns.
  destruct (add_mapping_columns _ mappings _) as [acc1|e] eqn:H1; cbn [bind]; [|done].
  apply add_mapping_columns_returns in H1
    as (mapped & Hcols1 & Hmapped & Hacc1 & Hnd1); [|done].
  destruct (_add_column acc1 _ _ _) as [acc2|e] eqn:H2; cbn [bind]; [|done].
  apply add_column_returns in H2 as (Hfresh & Hcols2 & Hacc2); [|done].
  destruct (add_business_columns _ bc _) as [acc3|e] eqn:H3; cbn [bind]; [|done].
  apply add_business_columns_returns in H3
    as (business & Hcols3 & Hbusiness & Hacc3 & Hnd3); [|done].
  intros [= <-]. cbn [fst app] in Hcols1.
  assert (acc3.1 = mapped ++ ColumnDef raw "JSONB" true :: business) as Hcols.
  { rewrite Hcols3, Hcols2, Hcols1, <- app_assoc. done. }
  split; [by exists mapped, business|]. split.
  - rewrite Hcols, fmap_app, fmap_cons. unfold table_column_names. cbn [col_name].
    by rewrite (is_mapped_column_names _ _ _ Hmapped),
      (is_business_column_names _ _ _ Hbusiness).
  - apply Hnd3. rewrite Hcols2, fmap_app. cbn.
    apply NoDup_app. split; [apply Hnd1; cbn; constructor|].
    split; [|apply NoDup_singleton].
    intros x Hx ->%list_elem_of_singleton. done.
Qed.

(** X10.  The columns that [build_table_columns] returns are, in this order,
    one nullable column per mapping entry with the SQL type of its
    normalized type name, the raw JSON column as [JSONB NOT NULL], and one
    [NOT NULL] column per entry of [business_columns]; their names are
    pairwise different, so the list is never empty and never names a column
    twice. *)
Theorem build_table_columns_shape :
  ∀ mappings raw_json_column type_mappings business_columns
    business_column_types columns,
    build_table_columns mappings raw_json_column type_mappings
      business_columns business_column_types = Return columns →
    (∃ mapped business,
       columns = mapped ++ ColumnDef raw_json_column "JSONB" true :: business
       ∧ Forall2 (is_mapped_column (normalize_type_mappings type_mappings))
           mappings mapped
       ∧ Forall2 (is_business_column business_column_types)
           business_columns business)
    ∧ col_name <$> columns
      = table_column_names mappings raw_json_column business_columns
    ∧ NoDup (col_name <$> columns).
Proof.
  intros mappings raw type_mappings bc bct columns Hret.
  destruct (build_table_columns_returns _ _ _ _ _ _ Hret)
    as ((mapped & business & Hcolumns & Hmapped & Hbusiness) & Hnames & Hnodup).
  split; [by exists mapped, business|]. by split.
Qed.

Lemma build_table_columns_shape_witness :
  ∃ columns,
    build_table_columns users_mappings "raw_json"
      (type_mappings default_runtime_config)
      (business_columns default_audit_config)
      (business_column_types default_audit_config) = Return columns
    ∧ col_name <$> columns
      = ["id"; "name"; "joined"; "raw_json"; "ingested_at";
         "source_collection"; "status"]
    ∧ NoDup (col_name <$> columns).
Proof.
  destruct (build_table_columns users_mappings "raw_json"
              (type_mappings default_runtime_config)
              (business_columns default_audit_config)
              (business_column_types default_audit_config))
    as [columns|e] eqn:Hret; [|by vm_compute in Hret].
  destruct (build_table_columns_shape _ _ _ _ _ columns Hret)
    as (_ & Hnames & Hnodup).
  exists columns. split; [reflexivity|]. split; [exact Hnames|exact Hnodup].
Defined.

(** X11.  [build_table_columns] returns exactly when every mapping type has
    an entry in the normalized type mappings, every logical name of
    [business_columns] has an entry in [business_column_types], and the
    names of the mapped columns, the raw JSON column and the business
    columns are pairwise different; in every other case it raises a
    [ConfigError]. *)
Theorem build_table_columns_returns_iff :
  ∀ mappings raw_json_column type_mappings business_columns
    business_column_types,
    ((∃ columns,
        build_table_columns mappings raw_json_column type_mappings
          business_columns business_column_types = Return columns)
     ↔ (∀ entry, entry ∈ mappings →
          is_Some (normalize_type_mappings type_mappings
                     !! normalize_type (type entry.2)))
       ∧ (∀ entry, entry ∈ business_columns →
            str_contains entry.1 business_column_types = true)
       ∧ NoDup (table_column_names mappings raw_json_column business_columns))
    ∧ (∀ e,
         build_table_columns mappings raw_json_column type_mappings
           business_columns business_column_types = Raise e →
         exn_cls e = ConfigError).
Proof.
  intros mappings raw type_mappings bc bct. split; [split|].
  - intros [columns Hret].
    destruct (build_table_columns_returns _ _ _ _ _ _ Hret)
      as ((mapped & business & _ & Hmapped & Hbusiness) & Hnames & Hnodup).
    split; [|split].
    + intros entry Hin.
      destruct (proj1 (list_elem_of_lookup _ _) Hin) as [i Hi].
      destruct (Forall2_lookup_l _ _ _ _ _ Hmapped Hi) as (col & _ & _ & Hsql & _).
      by eexists.
    + intros entry Hin.
      destruct (proj1 (list_elem_of_lookup _ _) Hin) as [i Hi].
      destruct (Forall2_lookup_l _ _ _ _ _ Hbusiness Hi) as (col & _ & _ & Hsql & _).
      unfold str_contains. rewrite bool_decide_eq_true.
      clear -Hsql. induction bct as [|[k v] bct IH]; [done|].
      cbn in *. case_bool_decide; [subst; by left|right; by apply IH].
    + by rewrite <- Hnames.
  - intros (Htypes & Hbusiness & Hnodup). unfold build_table_columns.
    unfold table_column_names in Hnodup.
    destruct (add_mapping_columns_fresh (normalize_type_mappings type_mappings)
                mappings ([], ∅)) as [acc1 H1]; [done|done| |].
    { cbn. by apply NoDup_app in Hnodup as (? & _ & _). }
    rewrite H1. cbn [bind].
    destruct (add_mapping_columns_returns (normalize_type_mappings type_mappings)
                mappings ([], ∅) acc1)
      as (mapped & Hcols1 & Hmapped & Hacc1 & _); [done|exact H1|].
    cbn [fst app] in Hcols1.
    pose proof (is_mapped_column_names _ _ _ Hmapped) as Hnames1.
    apply NoDup_app in Hnodup as (Hnd1 & Hdisj & Hnd2).
    apply NoDup_cons in Hnd2 as [Hraw Hnd2].
    rewrite add_column_fresh; [|done|]; cbn [bind].
    + destruct (add_business_columns_fresh bct bc
                  (acc1.1 ++ [ColumnDef raw "JSONB" true], acc1.2 ∪ {[raw]}))
        as [acc3 H3]; [| |..].
      * unfold tracks in *. cbn [fst snd]. rewrite Hacc1, fmap_app, list_to_set_app_L.
        cbn. set_solver.
      * exact Hbusiness.
      * cbn [fst]. rewrite fmap_app, Hcols1, Hnames1. cbn. rewrite <- app_assoc. cbn.
        apply NoDup_app. split; [done|]. split; [|by apply NoDup_cons].
        intros x Hx. by apply Hdisj.
      * rewrite H3. cbn [bind]. by eexists.
    + rewrite Hcols1, Hnames1. intros Hin. apply (Hdisj _ Hin). by left.
  - intros e. unfold build_table_columns.
    destruct (add_mapping_columns _ mappings _) as [acc1|e1] eqn:H1; cbn [bind];
      [|intros [= <-]; by eapply add_mapping_columns_raises].
    destruct (_add_column acc1 _ _ _) as [acc2|e2] eqn:H2; cbn [bind];
      [|intros [= <-]; by eapply add_column_raises].
    destruct (add_business_columns _ bc _) as [acc3|e3] eqn:H3; cbn [bind];
      [done|intros [= <-]; by eapply add_business_columns_raises].
Qed.

(* ===================================================================== *)
(** * Properties of the validation of the mapping types *)
(* ===================================================================== *)

Lemma validate_collection_types_returns normalized_type_mappings
    collection_name entries :
  validate_collection_types normalized_type_mappings collection_name entries
  = Return tt
  ↔ ∀ entry, entry ∈ entries →
      normalize_type (type entry.2) ∈ SUPPORTED_TYPES
      ∧ is_Some (normalized_type_mappings !! normalize_type (type entry.2)).
Proof.
  induction entries as [|[source_attr mapping] rest IH]; cbn [validate_collection_types].
  - split; [|done]. intros _ entry Hin. by apply elem_of_nil in Hin.
  - unfold in_set. case_bool_decide as Hsupported; cbn [negb].
    + destruct (normalized_type_mappings !! _) as [sql_type|] eqn:Hsql.
      * rewrite IH. split.
        -- intros Hrest entry [->|Hin]%elem_of_cons; [|by apply Hrest].
           cbn [snd]. split; [done|by eexists].
        -- intros Hall entry Hin. apply Hall. by right.
      * split; [done|]. intros Hall.
        destruct (Hall (source_attr, mapping)) as [_ [sql_type Hsome]]; [by left|].
        cbn [snd] in Hsome. congruence.
    + split; [done|]. intros Hall.
      destruct (Hall (source_attr, mapping)) as [Hin _]; [by left|]. done.
Qed.

Lemma validate_collection_types_raises normalized_type_mappings
    collection_name entries e :
  validate_collection_types normalized_type_mappings collection_name entries
  = Raise e →
  exn_cls e = ConfigError.
Proof.
  induction entries as [|[source_attr mapping] rest IH]; cbn [validate_collection_types];
    [done|].
  destruct (negb _); [by intros [= <-]|].
  destruct (normalized_type_mappings !! _); [done|by intros [= <-]].
Qed.

(** X12.  [validate_mapping_types] returns exactly when, in every
    collection, every mapping type is a supported type and has an entry in
    the type mappings, both compared in normal form (trimmed and
    lower-cased); in every other case it raises a [ConfigError]. *)
Theorem validate_mapping_types_returns_iff :
  ∀ mapping_config type_mappings,
    (validate_mapping_types mapping_config type_mappings = Return tt
     ↔ ∀ collection, collection ∈ mapping_config →
         ∀ entry, entry ∈ mappings collection.2 →
           normalize_type (type entry.2) ∈ SUPPORTED_TYPES
           ∧ is_Some (normalize_type_mappings type_mappings
                        !! normalize_type (type entry.2)))
    ∧ (∀ e, validate_mapping_types mapping_config type_mappings = Raise e →
            exn_cls e = ConfigError).
Proof.
  intros mapping_config type_mappings. unfold validate_mapping_types.
  generalize (normalize_type_mappings type_mappings). intros ntm.
  induction mapping_config as [|[collection_name collection_config] rest [IH1 IH2]];
    cbn [validate_collections_types].
  - split; [|done]. split; [|done]. intros _ collection Hin.
    by apply elem_of_nil in Hin.
  - destruct (validate_collection_types ntm collection_name
                (mappings collection_config)) as [[]|e1] eqn:Hhead; cbn [bind].
    + rewrite validate_collection_types_returns in Hhead. split; [|exact IH2].
      rewrite IH1. split.
      * intros Hrest collection [->|Hin]%elem_of_cons; [exact Hhead|by apply Hrest].
      * intros Hall collection Hin. apply Hall. by right.
    + split.
      * split; [done|]. intros Hall.
        assert (validate_collection_types ntm collection_name
                  (mappings collection_config) = Return tt) as Hok.
        { apply validate_collection_types_returns.
          apply (Hall (collection_name, collection_config)). by left. }
        congruence.
      * intros e [= <-]. by eapply validate_collection_types_raises.
Qed.

(** A supported type does not leave the [try] block of [transform_value]
    without a [return]. *)
Lemma supported_type_is_dispatched rt value normalized_type date_formats
    date_output_format datetime_output_format :
  normalized_type ∈ SUPPORTED_TYPES →
  transform_value_try rt value normalized_type date_formats
    date_output_format datetime_output_format ≠ Return None.
Proof.
  unfold SUPPORTED_TYPES. rewrite !elem_of_cons, elem_of_nil.
  intros Hin. unfold transform_value_try.
  repeat (destruct Hin as [->|Hin]; [
    cbn [in_set bool_decide]; 
    repeat match goal with
    | |- context [in_set ?x ?l] =>
        let b := eval vm_compute in (in_set x l) in
        change (in_set x l) with b; cbv iota
    | |- context [bool_decide (?x = ?y :> string)] =>
        let b := eval vm_compute in (bool_decide (x = y)) in
        change (bool_decide (x = y)) with b; cbv iota
    end;
    repeat match goal with
    | |- context [bind ?x _] => destruct x as [[]|]; cbn [bind]
    end; done |]).
  done.
Qed.

Lemma validated_entry mapping_config type_mappings collection entry :
  validate_mapping_types mapping_config type_mappings = Return tt →
  collection ∈ mapping_config →
  entry ∈ mappings collection.2 →
  normalize_type (type entry.2) ∈ SUPPORTED_TYPES
  ∧ is_Some (normalize_type_mappings type_mappings
               !! normalize_type (type entry.2)).
Proof.
  unfold validate_mapping_types.
  generalize (normalize_type_mappings type_mappings). intros ntm.
  induction mapping_config as [|[collection_name collection_config] rest IH];
    cbn [validate_collections_types].
  - by intros _ ?%elem_of_nil.
  - destruct (validate_collection_types ntm collection_name
                (mappings collection_config)) as [[]|e1] eqn:Hhead; cbn [bind];
      [|done].
    rewrite validate_collection_types_returns in Hhead.
    intros Hrest [->|Hin]%elem_of_cons Hentry; [by apply Hhead|by apply IH].
Qed.

(** X13.  After [validate_mapping_types] has returned, no conversion by
    [transform_value] for a mapped type ends with the error "unsupported
    target type": every mapped type is dispatched to one of the
    conversions. *)
Theorem validated_types_are_dispatched :
  ∀ rt mapping_config type_mappings collection entry value date_formats
    date_output_format datetime_output_format converted error,
    validate_mapping_types mapping_config type_mappings = Return tt →
    collection ∈ mapping_config →
    entry ∈ mappings collection.2 →
    transform_value rt value (type entry.2) date_formats date_output_format
      datetime_output_format = Return (converted, error) →
    error ≠ Some ("unsupported target type '" +:+ type entry.2 +:+ "'").
Proof.
  intros rt mapping_config type_mappings collection entry value date_formats
    dof dtof converted error Hvalid Hcollection Hentry.
  destruct (validated_entry _ _ _ _ Hvalid Hcollection Hentry) as [Hsupported _].
  pose proof (supported_type_is_dispatched rt value _ date_formats dof dtof
                Hsupported) as Hdispatch.
  unfold transform_value.
  destruct value; try (by intros [= <- <-]);
    (destruct (transform_value_try _ _ _ _ _ _) as [[[c [msg|]]|]|e] eqn:Htry;
     cbn [try_except bind];
     [ apply transform_value_try_error in Htry as [_ Hmsg];
       intros [= <- <-]; revert Hmsg; rewrite !elem_of_cons, elem_of_nil;
       by intros [->|[->|[]]]
     | by intros [= <- <-]
     | done
     | case_bool_decide; cbn [bind]; [|done]; by intros [= <- <-] ]).
Qed.

Lemma validated_types_are_dispatched_witness :
  validate_mapping_types users_mapping_config
    (type_mappings default_runtime_config) = Return tt
  ∧ ∀ converted error,
      transform_value Ref.runtime (PStr "12x") "int" ymd_then_dmy iso_date
        iso_datetime = Return (converted, error) →
      error ≠ Some "unsupported target type 'int'".
Proof.
  assert (validate_mapping_types users_mapping_config
            (type_mappings default_runtime_config) = Return tt) as Hvalid
    by (vm_compute; reflexivity).
  split; [exact Hvalid|]. intros converted error.
  apply (validated_types_are_dispatched Ref.runtime users_mapping_config
           (type_mappings default_runtime_config) ("users", users_collection)
           ("id", Mapping "id" "int") (PStr "12x") ymd_then_dmy iso_date
           iso_datetime converted error Hvalid).
  - unfold users_mapping_config. set_solver.
  - cbn. unfold users_mappings. set_solver.
Defined.

(* ===================================================================== *)
(** * Properties of the input check *)
(* ===================================================================== *)

Lemma check_documents_embed collection_name index documents :
  check_documents collection_name index (PDict <$> documents) = inr documents.
Proof.
  revert index. induction documents as [|document documents IH]; intros index;
    [done|].
  cbn. by rewrite IH.
Qed.

Lemma check_documents_inr collection_name index values documents :
  check_documents collection_name index values = inr documents →
  values = PDict <$> documents.
Proof.
  revert index documents.
  induction values as [|value values IH]; intros index documents.
  - by intros [= <-].
  - cbn [check_documents]. destruct value; try done.
    destruct (check_documents collection_name (S index) values) as [|checked] eqn:Hrest;
      [done|].
    intros [= <-]. cbn. by rewrite (IH _ _ Hrest).
Qed.

Lemma check_collections_inr items data :
  check_collections items = inr data →
  items = (λ kv, (kv.1, PList (PDict <$> kv.2))) <$> data.
Proof.
  revert data. induction items as [|[collection_name value] items IH]; intros data.
  - by intros [= <-].
  - cbn [check_collections]. destruct value; try done.
    destruct (check_documents collection_name 0 items0) as [|checked] eqn:Hdocs;
      [done|].
    destruct (check_collections items) as [|rest] eqn:Hrest; [done|].
    intros [= <-]. cbn. by rewrite (check_documents_inr _ _ _ _ Hdocs), (IH _ eq_refl).
Qed.

(** X14.  [load_input_json] accepts exactly the objects whose values are
    lists of objects, and returns them unchanged: an input of collections
    of documents is read back as it is, and what is returned for any value
    is that value. *)
Theorem load_input_json_round_trip :
  (∀ data, load_input_json (input_object data) = InputData data)
  ∧ (∀ value data,
       load_input_json value = InputData data → value = input_object data).
Proof.
  split.
  - intros data. unfold load_input_json, input_object.
    assert (check_collections ((λ kv, (kv.1, PList (PDict <$> kv.2))) <$> data)
            = inr data) as ->; [|done].
    induction data as [|[collection_name documents] data IH]; [done|].
    cbn. by rewrite check_documents_embed, IH.
  - intros value data. unfold load_input_json, input_object.
    destruct value; try done.
    destruct (check_collections items) as [|checked] eqn:Hitems; [done|].
    intros [= <-]. by rewrite (check_collections_inr _ _ Hitems).
Qed.

Lemma load_input_json_round_trip_witness :
  load_input_json
    (PDict [("users", PList [PDict document_without_name]); ("orders", PList [])])
  = InputData [("users", [document_without_name]); ("orders", [])]
  ∧ PDict [("users", PList [PDict document_with_null_name])]
    = input_object [("users", [document_with_null_name])].
Proof.
  destruct load_input_json_round_trip as [Hread Hsame]. split.
  - apply (Hread [("users", [document_without_name]); ("orders", [])]).
  - apply Hsame. vm_compute. reflexivity.
Defined.

(* ===================================================================== *)
(** * More properties of [ensure_database] *)
(* ===================================================================== *)

Ltac ensure_database_cases srv db_config :=
  unfold ensure_database;
  fold (probe_params db_config); fold (admin_params db_config);
  unfold seq, catch_class, catch, finally, psycopg2_connect, connection_close,
    ask, pure, throw;
  destruct (auto_create db_config) eqn:Hon; cbn [negb];
  [ destruct (connect srv (probe_params db_config)) as [[]|[cls message]] eqn:Hprobe;
    cbn [exn_cls exn_msg];
    [ | destruct (decide (cls = OperationalError)) as [->|Hcls];
        [ rewrite bool_decide_eq_true_2 by done;
          destruct (contains "does not exist" message) eqn:Hmessage; cbn [negb];
          [ destruct (connect srv (admin_params db_config)) as [[]|e1] eqn:Hadmin;
            [ destruct (select_database srv (name db_config)) as [[]|e2] eqn:Hselect;
              [ | destruct (create_database srv (name db_config)) as [[]|e3] eqn:Hcreate | ]
            | ]
          | ]
        | rewrite bool_decide_eq_false_2 by done ] ]
  | ].

(** X15.  [ensure_database] leaks no connection: in the events that it adds
    to the trace, the connections that the server granted are as many as
    the closings, whether it returns or raises; and it asks for the
    database to be created at most once, and only when the probe failed
    because the database does not exist and [pg_database] does not list
    it. *)
Theorem ensure_database_closes_what_it_opens :
  ∀ srv db_config trace,
    ∃ events,
      (ensure_database srv db_config trace).2 = trace ++ events
      ∧ length (filter (λ ev, is_granted srv ev = true) events)
        = length (filter (λ ev, is_close ev = true) events)
      ∧ (∀ datname, CreateDatabase datname ∈ events →
           datname = name db_config
           ∧ auto_create db_config = true
           ∧ select_database srv (name db_config) = Return false
           ∧ ∃ message,
               connect srv (probe_params db_config)
                 = Raise (Exn OperationalError message)
               ∧ contains "does not exist" message = true)
      ∧ length (filter (λ ev, is_create_database ev = true) events) ≤ 1.
Proof.
  intros srv db_config trace.
  ensure_database_cases srv db_config;
    cbn [bind fst snd exn_cls exn_msg];
    repeat match goal with
           | |- context [bool_decide (?x = ?x)] => rewrite bool_decide_eq_true_2 by done
           end;
    cbn [bind fst snd exn_cls exn_msg];
    rewrite <- ?app_assoc; cbn [app];
    (eexists; split; [first [reflexivity | symmetry; apply app_nil_r]|]).
  all: rewrite ?filter_cons, ?filter_nil; cbn [is_granted is_close is_create_database];
    rewrite ?Hprobe, ?Hadmin.
  all: repeat case_decide; try done.
  all: cbn [length].
  all: (split; [done|]); (split; [|lia]).
  all: intros datname; rewrite ?elem_of_cons, ?elem_of_nil.
  all: try naive_solver.
Qed.



(** X16.  What leaves [ensure_database] is a [LoadError] that says whether
    connecting or creating the database failed, or else the exception of
    the probe itself when that is not an [OperationalError]; and when
    [ensure_database] returns with auto-create on, the probe has connected,
    or [pg_database] lists the database, or the database has been
    created. *)
Theorem ensure_database_outcomes :
  ∀ srv db_config trace,
    match (ensure_database srv db_config trace).1 with
    | Raise e =>
        auto_create db_config = true
        ∧ ((∃ message,
              connect srv (probe_params db_config)
                = Raise (Exn OperationalError message)
              ∧ contains "does not exist" message = false
              ∧ e = Exn LoadError ("Failed to connect to PostgreSQL: " +:+ message))
           ∨ (∃ cause,
                e = Exn LoadError
                      ("Failed to create database '" +:+ name db_config
                       +:+ "': " +:+ exn_msg cause)
                ∧ (connect srv (admin_params db_config) = Raise cause
                   ∨ select_database srv (name db_config) = Raise cause
                   ∨ create_database srv (name db_config) = Raise cause))
           ∨ (connect srv (probe_params db_config) = Raise e
              ∧ exn_cls e ≠ OperationalError))
    | Return _ =>
        auto_create db_config = false
        ∨ connect srv (probe_params db_config) = Return tt
        ∨ select_database srv (name db_config) = Return true
        ∨ create_database srv (name db_config) = Return tt
    end.
Proof.
  intros srv db_config trace.
  ensure_database_cases srv db_config;
    cbn [bind fst snd exn_cls exn_msg];
    repeat match goal with
           | |- context [bool_decide (?x = ?x)] => rewrite bool_decide_eq_true_2 by done
           end;
    cbn [bind fst snd exn_cls exn_msg];
    try (split; [done|]); eauto 10.
Qed.

(* ===================================================================== *)
(** * Properties of the gateway and of the rows *)
(* ===================================================================== *)

(** X17.  A table that [create_table] has created is found by
    [table_exists] under the same name, when the server accepts both
    statements; for a name with other schema and table parts the answer
    stays what the catalog said before. *)
Theorem created_table_is_found :
  ∀ fault table_name columns st,
    columns ≠ [] →
    fault (length (sent st)) = None →
    fault (S (length (sent st))) = None →
    (create_table fault table_name columns ;;; table_exists fault table_name) st
    = (Return true,
       State (tables st ∪ {[split_table_name table_name]})
         (sent st ++ [CreateTable (split_table_name table_name).1
                        (split_table_name table_name).2 columns;
                      SelectTable (split_table_name table_name).1
                        (split_table_name table_name).2])
         (ticks st) (report st))
    ∧ ∀ other,
        split_table_name other ≠ split_table_name table_name →
        ((create_table fault table_name columns ;;; table_exists fault other) st).1
        = Return (bool_decide (split_table_name other ∈ tables st)).
Proof.
  intros fault table_name columns st Hcolumns Hfirst Hsecond.
  destruct columns as [|column columns]; [done|].
  unfold seq, create_table, table_exists.
  destruct (split_table_name table_name) as [schema table] eqn:Hsplit.
  unfold execute at 1. rewrite Hfirst. cbn [effect tables sent ticks report fst snd].
  split.
  - unfold seq, execute, get, pure. cbn [tables sent ticks report].
    rewrite length_sent_snoc_list, Hsecond. cbn [effect tables sent ticks report].
    rewrite <- app_assoc. f_equal. f_equal. apply bool_decide_eq_true_2. set_solver.
  - intros other Hother. destruct (split_table_name other) as [schema' table'].
    cbv iota beta. unfold seq, execute, get, pure. rewrite Hfirst.
    cbn [effect tables sent ticks report].
    rewrite length_sent_snoc_list, Hsecond.
    cbn [effect tables sent ticks report fst].
    f_equal. apply bool_decide_ext. set_solver.
Qed.

Lemma created_table_is_found_witness :
  ((create_table no_fault "Sales.Orders" [ColumnDef "id" "INTEGER" false] ;;;
    table_exists no_fault "Sales.Orders") empty_database).1 = Return true
  ∧ ((create_table no_fault "Sales.Orders" [ColumnDef "id" "INTEGER" false] ;;;
      table_exists no_fault "sales.orders") empty_database).1 = Return false.
Proof.
  destruct (created_table_is_found no_fault "Sales.Orders"
              [ColumnDef "id" "INTEGER" false] empty_database)
    as [Hfound Hother]; [done|reflexivity|reflexivity|].
  split.
  - by rewrite Hfound.
  - rewrite (Hother "sales.orders") by (vm_compute; discriminate).
    vm_compute. reflexivity.
Defined.

(** X18.  In the row of a business insert, the three audit fields win
    over the raw JSON column, and the raw JSON column wins over the mapped
    columns: the status column holds the business status, the raw JSON
    column holds the document unless an audit field has its name, and
    every other column holds what the transformation gave. *)
Theorem business_row_precedence :
  ∀ audit_config now collection_name status fields raw_json_column document
    (transformed : row),
    build_business_audit_fields audit_config now collection_name status
      = Return fields →
    let values := fields ∪ <[raw_json_column := PDict document]> transformed in
    (∃ ingested_at source_collection status_column,
       str_item "ingested_at" (business_columns audit_config) = Return ingested_at
       ∧ str_item "source_collection" (business_columns audit_config)
           = Return source_collection
       ∧ str_item "status" (business_columns audit_config) = Return status_column
       ∧ dom fields = {[ingested_at; source_collection; status_column]}
       ∧ values !! status_column = Some (PStr status))
    ∧ (raw_json_column ∉ dom fields →
       values !! raw_json_column = Some (PDict document))
    ∧ (∀ column, column ∉ dom fields → column ≠ raw_json_column →
         values !! column = transformed !! column)
    ∧ dom values = dom fields ∪ {[raw_json_column]} ∪ dom transformed.
Proof.
  intros audit_config now collection_name status fields raw document transformed.
  unfold build_business_audit_fields.
  destruct (str_item "ingested_at" _) as [c1|] eqn:H1; cbn [bind]; [|done].
  destruct (str_item "source_collection" _) as [c2|] eqn:H2; cbn [bind]; [|done].
  destruct (str_item "status" _) as [c3|] eqn:H3; cbn [bind]; [|done].
  intros [= <-]. cbv zeta. split; [|split; [|split]].
  - exists c1, c2, c3. repeat (split; [done|]). split.
    + rewrite !dom_insert_L, dom_empty_L. set_solver.
    + rewrite lookup_union, lookup_insert_eq. by destruct (_ !! c3).
  - intros Hraw. apply not_elem_of_dom in Hraw.
    by rewrite lookup_union, Hraw, lookup_insert_eq.
  - intros column Hcolumn Hne. apply not_elem_of_dom in Hcolumn.
    rewrite lookup_union, Hcolumn, lookup_insert_ne by done.
    by destruct (transformed !! column).
  - rewrite dom_union_L, dom_insert_L. set_solver.
Qed.

Lemma business_row_precedence_witness :
  ∃ fields,
    build_business_audit_fields default_audit_config (seconds_clock 0) "users"
      "success" = Return fields
    ∧ (fields ∪ <["status" := PDict [("status", PStr "open")]]>
                  {["status" := PStr "open"]}) !! "status"
      = Some (PStr "success").
Proof.
  destruct (build_business_audit_fields default_audit_config (seconds_clock 0)
              "users" "success") as [fields|e] eqn:Hfields;
    [|by vm_compute in Hfields].
  exists fields. split; [reflexivity|].
  destruct (business_row_precedence default_audit_config (seconds_clock 0)
              "users" "success" fields "status" [("status", PStr "open")]
              {["status" := PStr "open"]} Hfields)
    as ((c1 & c2 & c3 & _ & _ & Hstatus & _ & Hvalue) & _).
  assert (c3 = "status") as -> by (vm_compute in Hstatus; congruence).
  exact Hvalue.
Defined.

(* ===================================================================== *)
(** * Properties of the report *)
(* ===================================================================== *)

Lemma sum_values_increment key counts :
  sum_values (increment key counts) = S (sum_values counts).
Proof.
  unfold increment, sum_values.
  assert (∀ (m : gmap string nat) k n,
            m !! k = None →
            map_fold (λ _ n total, n + total) 0 (<[k := n]> m)
            = n + map_fold (λ _ n total, n + total) 0 m) as Hinsert.
  { intros m k n Hk. apply (map_fold_insert_L (λ _ n total, n + total)); [|done].
    intros. lia. }
  destruct (counts !! key) as [n|] eqn:Hkey; cbn [default].
  - rewrite <- (insert_delete_id counts key n Hkey) at 2.
    rewrite <- (insert_delete_eq counts).
    rewrite !Hinsert by apply lookup_delete_eq. reflexivity.
  - by rewrite Hinsert.
Qed.

Lemma total_docs_record_document collection_name had_errors insert_failed r :
  total_docs (record_document collection_name had_errors insert_failed r)
  = S (total_docs r).
Proof.
  unfold total_docs, total_processed, total_failures, record_document.
  destruct insert_failed; cbn [processed_counts insert_failures];
    rewrite sum_values_increment; lia.
Qed.

Lemma total_docs_record_missing_columns object_name missing r :
  total_docs (record_missing_columns object_name missing r) = total_docs r.
Proof. by destruct missing. Qed.

Lemma errors_below_processed_step collection_name had_errors insert_failed r :
  total_errors r ≤ total_processed r →
  total_errors (record_document collection_name had_errors insert_failed r)
  ≤ total_processed (record_document collection_name had_errors insert_failed r).
Proof.
  unfold total_errors, total_processed, record_document.
  destruct insert_failed, had_errors; cbn [processed_counts error_counts];
    rewrite ?sum_values_increment; lia.
Qed.

(** X19.  In a report that a run builds with [record_document], every
    recorded document is counted exactly once, as processed or as an
    insert failure, and the documents with errors are among the processed
    ones: the summary's total is the number of recorded documents, its
    number of successful documents is the processed ones less those with
    errors without the cut at zero, and the total is the sum of the
    successful documents, those with errors and the insert failures. *)
Theorem summary_counts_every_document_once :
  ∀ calls,
    let r := record_documents calls empty_report in
    total_docs r = length calls
    ∧ total_failures r = length (filter (λ call, call.2 = true) calls)
    ∧ total_errors r
      = length (filter (λ call, call.2 = false ∧ call.1.2 = true) calls)
    ∧ successful_docs r
      = (Z.of_nat (total_processed r) - Z.of_nat (total_errors r))%Z
    ∧ Z.of_nat (total_docs r)
      = (successful_docs r + Z.of_nat (total_errors r)
         + Z.of_nat (total_failures r))%Z.
Proof.
  intros calls.
  assert (∀ r0,
            let r := record_documents calls r0 in
            total_docs r = total_docs r0 + length calls
            ∧ total_failures r = total_failures r0
                + length (filter (λ call, call.2 = true) calls)
            ∧ total_errors r = total_errors r0
                + length (filter (λ call, call.2 = false ∧ call.1.2 = true) calls)
            ∧ (total_errors r0 ≤ total_processed r0 →
               total_errors r ≤ total_processed r)) as Hgeneral.
  { induction calls as [|[[collection_name had_errors] insert_failed] calls IH];
      intros r0; cbn zeta.
    - cbn. repeat split; lia.
    - unfold record_documents. cbn [foldl fst snd].
      fold (record_documents calls
              (record_document collection_name had_errors insert_failed r0)).
      destruct (IH (record_document collection_name had_errors insert_failed r0))
        as (Hdocs & Hfail & Herr & Hle).
      split; [rewrite Hdocs, total_docs_record_document; cbn [length]; lia|].
      split; [|split].
      + rewrite Hfail, filter_cons. cbn [fst snd].
        unfold total_failures, record_document.
        destruct insert_failed; cbn [insert_failures];
          rewrite ?sum_values_increment; case_decide; try done; cbn [length]; lia.
      + rewrite Herr, filter_cons. cbn [fst snd].
        unfold total_errors, record_document.
        destruct insert_failed, had_errors; cbn [error_counts];
          rewrite ?sum_values_increment; case_decide as Hc;
          try (destruct Hc; done); try (exfalso; apply Hc; done);
          cbn [length]; lia.
      + intros Hr0. by apply Hle, errors_below_processed_step. }
  destruct (Hgeneral empty_report) as (Hdocs & Hfail & Herr & Hle).
  cbn zeta in *.
  assert (total_errors empty_report = 0) as He by reflexivity.
  assert (total_processed empty_report = 0) as Hp by reflexivity.
  assert (total_failures empty_report = 0) as Hf by reflexivity.
  assert (total_docs empty_report = 0) as Hd by reflexivity.
  rewrite He, Hd, Hf in *. specialize (Hle ltac:(lia)).
  split; [lia|]. split; [lia|]. split; [lia|].
  unfold successful_docs, total_docs in *. lia.
Qed.

(** X20.  A report built with [record_missing_columns] counts the calls
    that name at least one column, and keeps for every object the union of
    the columns named for it: a column is listed for an object exactly
    when some call for that object named it. *)
Theorem missing_columns_accumulate :
  ∀ calls,
    let r := record_missing_calls calls empty_report in
    missing_columns_count r = length (filter (λ call, call.2 ≠ []) calls)
    ∧ ∀ object_name column,
        column ∈ default ∅ (missing_columns_by_object r !! object_name)
        ↔ ∃ call, call ∈ calls ∧ call.1 = object_name ∧ column ∈ call.2.
Proof.
  intros calls.
  assert (∀ r0,
            let r := record_missing_calls calls r0 in
            missing_columns_count r
            = missing_columns_count r0 + length (filter (λ call, call.2 ≠ []) calls)
            ∧ ∀ object_name column,
                column ∈ default ∅ (missing_columns_by_object r !! object_name)
                ↔ column ∈ default ∅ (missing_columns_by_object r0 !! object_name)
                  ∨ ∃ call, call ∈ calls ∧ call.1 = object_name ∧ column ∈ call.2)
    as Hgeneral.
  { induction calls as [|[object_name missing] calls IH]; intros r0; cbn zeta.
    - cbn. split; [lia|]. intros obj column. split; [by left|].
      intros [?|(call & Hin & _)]; [done|]. by apply elem_of_nil in Hin.
    - unfold record_missing_calls. cbn [foldl fst snd].
      fold (record_missing_calls calls (record_missing_columns object_name missing r0)).
      destruct (IH (record_missing_columns object_name missing r0)) as [Hcount Hsets].
      split.
      + rewrite Hcount, filter_cons. cbn [snd].
        destruct missing as [|column missing]; cbn [record_missing_columns].
        * by rewrite decide_False by (intros H; by apply H).
        * rewrite decide_True by done. cbn [missing_columns_count length]. lia.
      + intros obj column. rewrite Hsets. clear Hsets Hcount IH.
        assert (column ∈ default ∅
                  (missing_columns_by_object
                     (record_missing_columns object_name missing r0) !! obj)
                ↔ column ∈ default ∅ (missing_columns_by_object r0 !! obj)
                  ∨ (object_name = obj ∧ column ∈ missing)) as ->.
        { destruct missing as [|c missing]; cbn [record_missing_columns].
          - split; [by left|]. intros [?|[_ Hin]]; [done|]. by apply elem_of_nil in Hin.
          - cbn [missing_columns_by_object].
            destruct (decide (object_name = obj)) as [->|Hne].
            + rewrite lookup_insert_eq. simpl. set_solver.
            + rewrite lookup_insert_ne by done. naive_solver. }
        split.
        * intros [[?|[<- Hin]]|(call & Hin & Hobj & Hcol)].
          -- by left.
          -- right. exists (object_name, missing). split; [by left|done].
          -- right. exists call. split; [by right|done].
        * intros [?|(call & [->|Hin]%elem_of_cons & Hobj & Hcol)].
          -- by left; left.
          -- left; right. done.
          -- right. by exists call. }
  destruct (Hgeneral empty_report) as [Hcount Hsets]. cbn zeta in *.
  split; [exact Hcount|].
  intros obj column. rewrite Hsets. cbn. rewrite lookup_empty. cbn.
  split; [intros [Hin|?]; [by apply elem_of_empty in Hin|done]|by right].
Qed.

(* ===================================================================== *)
(** * More properties of the document loop *)
(* ===================================================================== *)

Lemma business_fields_available audit_config now collection_name status :
  has_business_columns audit_config →
  ∃ fields,
    build_business_audit_fields audit_config now collection_name status
    = Return fields.
Proof.
  intros Hkeys. unfold build_business_audit_fields.
  destruct (str_item_contains "ingested_at" (business_columns audit_config))
    as [c1 ->]; [apply Hkeys; set_solver|].
  destruct (str_item_contains "source_collection" (business_columns audit_config))
    as [c2 ->]; [apply Hkeys; set_solver|].
  destruct (str_item_contains "status" (business_columns audit_config))
    as [c3 ->]; [apply Hkeys; set_solver|].
  by eexists.
Qed.

Section DocumentLoopFacts.
Variable rt : runtime.
Variable fault : nat → option exn.
Variable clock : nat → datetime.
Variable runtime_config : runtime_config.
Variable audit_config : audit_config.
Variable collection_name : string.
Variable collection_config : collection_config.
Variable object_status : string.
Variable table_exists : bool.

Local Abbreviation document_step :=
  (process_document rt fault clock runtime_config audit_config collection_name
     collection_config object_status table_exists).

Lemma process_document_counts document st :
  has_business_columns audit_config →
  (∃ r, transform_document rt document (mappings collection_config)
          (date_formats runtime_config) (date_output_format runtime_config)
          (datetime_output_format runtime_config) = Return r) →
  ∃ outcome st',
    document_step document st = (outcome, st')
    ∧ tables st' = tables st
    ∧ match outcome with
      | Return _ => total_docs (report st') = S (total_docs (report st))
      | Raise e =>
          rollback_failed fault st' e
          ∧ total_docs (report st') = total_docs (report st)
      end.
Proof.
  intros Hkeys [r Hr]. destruct table_exists.
  - destruct (business_fields_available audit_config (clock (ticks st))
                collection_name (business_status_of audit_config (errors r)) Hkeys)
      as [fields Hfields].
    rewrite (process_document_existing_table rt fault clock runtime_config
               audit_config collection_name collection_config object_status
               document r Hr st fields Hfields).
    cbn zeta.
    repeat match goal with
           | |- context [fault ?n] => destruct (fault n) eqn:?
           end;
      eexists _, _; (split; [reflexivity|]); unfold advance;
      cbn [report tables sent compose]; (split; [done|]);
      rewrite ?total_docs_record_document, total_docs_record_missing_columns;
      first [done|split; [rollback_has_failed|done]].
  - rewrite (process_document_missing_table rt fault clock runtime_config
               audit_config collection_name collection_config object_status
               document r Hr st).
    cbn zeta.
    repeat match goal with
           | |- context [fault ?n] => destruct (fault n) eqn:?
           end;
      eexists _, _; (split; [reflexivity|]); unfold advance;
      cbn [report tables sent compose]; (split; [done|]);
      rewrite ?total_docs_record_document, total_docs_record_missing_columns;
      first [done|split; [rollback_has_failed|done]].
Qed.

Lemma document_loop_counts documents st :
  has_business_columns audit_config →
  (∀ document, document ∈ documents →
     ∃ r, transform_document rt document (mappings collection_config)
            (date_formats runtime_config) (date_output_format runtime_config)
            (datetime_output_format runtime_config) = Return r) →
  ∃ outcome st',
    for_each documents document_step st = (outcome, st')
    ∧ tables st' = tables st
    ∧ match outcome with
      | Return _ =>
          total_docs (report st') = total_docs (report st) + length documents
      | Raise e =>
          rollback_failed fault st' e
          ∧ total_docs (report st') < total_docs (report st) + length documents
      end.
Proof.
  intros Hkeys. revert st.
  induction documents as [|document documents IH]; intros st Hall.
  - exists (Return tt), st. split; [reflexivity|]. cbn. split; [done|lia].
  - destruct (process_document_counts document st Hkeys)
      as (outcome1 & st1 & Hst1 & Htab1 & Hout1).
    { apply Hall. by left. }
    cbn [for_each]. unfold seq at 1. rewrite Hst1.
    destruct outcome1 as [[]|e].
    + destruct (IH st1) as (outcome & st' & Hst' & Htab' & Hout).
      { intros d Hd. apply Hall. by right. }
      exists outcome, st'. split; [exact Hst'|].
      split; [congruence|]. cbn [length].
      destruct outcome; [lia|].
      destruct Hout as [Hfailed Hdocs]. split; [exact Hfailed|lia].
    + exists (Raise e), st1. split; [reflexivity|]. split; [exact Htab1|].
      destruct Hout1 as [Hfailed Hdocs]. split; [exact Hfailed|].
      cbn [length]. lia.
Qed.

End DocumentLoopFacts.

(** X21.  When every transformation returns and the audit section has its
    three business columns, the document loop of a collection absorbs the
    failures of inserts and commits: it raises only the exception of a
    roll back that failed, which then is the last statement sent.  When
    the loop returns, each document is counted exactly once in the report,
    as processed or as an insert failure; when it raises, fewer documents
    are counted.  No table is created or dropped. *)
Theorem document_loop_raises_only_a_failed_rollback :
  ∀ rt fault clock runtime_config audit_config collection_name
    collection_config object_status table_exists documents st,
    has_business_columns audit_config →
    (∀ document, document ∈ documents →
       ∃ r, transform_document rt document (mappings collection_config)
              (date_formats runtime_config) (date_output_format runtime_config)
              (datetime_output_format runtime_config) = Return r) →
    ∃ outcome st',
      for_each documents
        (process_document rt fault clock runtime_config audit_config
           collection_name collection_config object_status table_exists) st
      = (outcome, st')
      ∧ tables st' = tables st
      ∧ match outcome with
        | Return _ =>
            total_docs (report st') = total_docs (report st) + length documents
        | Raise e =>
            rollback_failed fault st' e
            ∧ total_docs (report st') < total_docs (report st) + length documents
        end.
Proof.
  intros. by apply document_loop_counts.
Qed.

Lemma document_loop_raises_only_a_failed_rollback_witness :
  (∃ outcome st',
     for_each [document_without_name; document_with_null_name]
       (process_document Ref.runtime audit_inserts_fail seconds_clock
          default_runtime_config default_audit_config "users" users_collection
          "ALREADY_EXISTS" true) users_database
     = (outcome, st')
     ∧ outcome = Return tt
     ∧ total_docs (report st') = 2)
  ∧ (∃ e st',
       for_each [document_without_name; document_with_null_name]
         (process_document Ref.runtime failing_server seconds_clock
            default_runtime_config default_audit_config "users"
            users_collection "ALREADY_EXISTS" true) users_database
       = (Raise e, st')
       ∧ rollback_failed failing_server st' e
       ∧ total_docs (report st') < 2).
Proof.
  assert (has_business_columns default_audit_config) as Hkeys.
  { intros key. rewrite !elem_of_cons, elem_of_nil.
    intros [->|[->|[->|[]]]]; vm_compute; reflexivity. }
  assert (∀ document,
            document ∈ [document_without_name; document_with_null_name] →
            ∃ r, transform_document Ref.runtime document
                   (mappings users_collection)
                   (date_formats default_runtime_config)
                   (date_output_format default_runtime_config)
                   (datetime_output_format default_runtime_config) = Return r)
    as Hdocuments.
  { intros document. rewrite !elem_of_cons, elem_of_nil.
    intros [->|[->|[]]]; eexists; vm_compute; reflexivity. }
  split.
  - destruct (document_loop_raises_only_a_failed_rollback Ref.runtime
                audit_inserts_fail seconds_clock default_runtime_config
                default_audit_config "users" users_collection "ALREADY_EXISTS"
                true [document_without_name; document_with_null_name]
                users_database Hkeys Hdocuments)
      as (outcome & st' & Hrun & _ & Hout).
    assert (outcome = Return tt) as Hreturns.
    { pose proof (f_equal fst Hrun) as Houtcome.
      vm_compute in Houtcome. congruence. }
    exists outcome, st'. split; [exact Hrun|]. split; [exact Hreturns|].
    rewrite Hreturns in Hout. rewrite Hout. vm_compute. reflexivity.
  - destruct (document_loop_raises_only_a_failed_rollback Ref.runtime
                failing_server seconds_clock default_runtime_config
                default_audit_config "users" users_collection "ALREADY_EXISTS"
                true [document_without_name; document_with_null_name]
                users_database Hkeys Hdocuments)
      as (outcome & st' & Hrun & _ & Hout).
    destruct outcome as [[]|e].
    + pose proof (f_equal fst Hrun) as Houtcome.
      vm_compute in Houtcome. discriminate Houtcome.
    + exists e, st'. split; [exact Hrun|]. destruct Hout as [Hfailed Hdocs].
      split; [exact Hfailed|]. revert Hdocs. vm_compute. lia.
Defined.

(* ===================================================================== *)
(** * Properties of the database block *)
(* ===================================================================== *)

Section MissingTableFacts.
Variable fault : nat → option exn.
Variable clock : nat → datetime.
Variable audit_config : audit_config.
Variable mapping_config : list (string * collection_config).

Local Abbreviation missing_step :=
  (audit_missing_table fault clock audit_config mapping_config).
Local Abbreviation missing_status :=
  (osv_missing (object_status_values_of audit_config)).
Local Abbreviation reported_name table :=
  (default table (table_lookup mapping_config !! table)).

(** The audit of one missing table: an insert into the audit table, then
    a commit, or a roll back after the statement that failed.  The step
    raises only the exception of a roll back that failed. *)
Lemma audit_missing_table_runs table st :
  ∃ outcome values after,
    missing_step table st
    = (outcome,
       advance st (audit_insert audit_config values :: after) 1
         (record_object_status (reported_name table) missing_status))
    ∧ Forall (λ stmt, is_insert stmt = false ∧ is_ddl stmt = false) after
    ∧ ∀ e, outcome = Raise e →
        rollback_failed fault
          (advance st (audit_insert audit_config values :: after) 1
             (record_object_status (reported_name table) missing_status)) e.
Proof.
  unfold audit_missing_table, seq at 1, with_report, modify.
  unfold seq at 1, now. cbn [ticks sent tables report].
  set (values := build_audit_row _ _ _ _ _ _ _ _).
  assert (values ≠ ∅) as Hne by apply audit_row_nonempty.
  unfold catch, seq, commit.
  rewrite (insert_row_sends fault) by done.
  unfold rollback, execute, advance, audit_insert.
  cbn [sent tables ticks report effect].
  destruct (fault (length (sent st))) eqn:Hfirst;
    cbn [sent tables ticks report effect];
    rewrite length_sent_snoc_list;
    destruct (fault (S (length (sent st)))) eqn:Hsecond;
    cbn [sent tables ticks report effect];
    rewrite ?length_app; cbn [length]; rewrite ?Nat.add_1_r;
    repeat match goal with
           | |- context [fault ?n] => destruct (fault n) eqn:?
           end;
    cbn [sent tables ticks report effect];
    eexists _, values, _; rewrite <- ?app_assoc; cbn [app];
    (split; [reflexivity|]);
    (split; [repeat first [apply List.Forall_nil
                          |apply List.Forall_cons; [by split|]]|]);
    first [by intros ? [=] | intros ? [= <-]; rollback_has_failed].
Qed.

Lemma missing_tables_loop names st :
  ∃ outcome st' new,
    for_each names missing_step st = (outcome, st')
    ∧ sent st' = sent st ++ new
    ∧ tables st' = tables st
    ∧ Forall (λ stmt, is_ddl stmt = false) new
    ∧ total_docs (report st') = total_docs (report st)
    ∧ length (filter (λ stmt, is_insert stmt = true) new) ≤ length names
    ∧ match outcome with
      | Return _ =>
          ticks st' = length names + ticks st
          ∧ length (filter (λ stmt, is_insert stmt = true) new) = length names
          ∧ (∀ table, table ∈ names →
               object_statuses (report st') !! reported_name table
               = Some missing_status)
          ∧ (∀ object_name,
               object_name ∉ (λ table, reported_name table) <$> names →
               object_statuses (report st') !! object_name
               = object_statuses (report st) !! object_name)
      | Raise e => rollback_failed fault st' e
      end.
Proof.
  revert st. induction names as [|table names IH]; intros st.
  - exists (Return tt), st, []. rewrite app_nil_r. repeat split; try done.
    by intros table ?%elem_of_nil.
  - destruct (audit_missing_table_runs table st)
      as (outcome1 & values & after & Hstep & Hafter & Hfailed).
    assert (filter (λ stmt, is_insert stmt = true) after = []) as Hnone.
    { clear -Hafter. induction Hafter as [|stmt after [Hins _] _ IH]; [done|].
      rewrite filter_cons, decide_False by congruence. exact IH. }
    assert (Forall (λ stmt, is_ddl stmt = false)
              (audit_insert audit_config values :: after)) as Hplain.
    { constructor; [done|].
      eapply Forall_impl; [exact Hafter|]. by intros stmt [_ ?]. }
    cbn [for_each]. unfold seq at 1. rewrite Hstep.
    destruct outcome1 as [[]|e].
    + destruct (IH (advance st (audit_insert audit_config values :: after) 1
                      (record_object_status (reported_name table) missing_status)))
        as (outcome & st' & new & Hrun & Hsent & Htables & Hddl & Hdocs & Hmost
            & Hout).
      exists outcome, st', ((audit_insert audit_config values :: after) ++ new).
      split; [exact Hrun|]. unfold advance in *.
      cbn [sent tables ticks report] in *.
      split; [by rewrite Hsent, <- app_assoc|]. split; [done|].
      split; [by apply Forall_app|]. split; [by rewrite Hdocs|].
      assert (length (filter (λ stmt, is_insert stmt = true)
                        ((audit_insert audit_config values :: after) ++ new))
              = S (length (filter (λ stmt, is_insert stmt = true) new)))
        as Hinserts.
      { rewrite filter_app, length_app, filter_cons.
        cbn [audit_insert is_insert]. rewrite decide_True by done.
        by rewrite Hnone. }
      rewrite Hinserts. cbn [length]. split; [lia|].
      destruct outcome; [|exact Hout].
      destruct Hout as (Hticks & Hcount & Hstatus & Hother).
      split; [lia|]. split; [lia|]. split.
      * intros table0 [->|Hin]%elem_of_cons; [|by apply Hstatus].
        destruct (decide (reported_name table
                          ∈ (λ table, reported_name table) <$> names))
          as [Hlater|Hlater].
        -- apply list_elem_of_fmap in Hlater as (table' & Heq & Hin').
           rewrite Heq. by apply Hstatus.
        -- rewrite (Hother _ Hlater). cbn [object_statuses record_object_status].
           apply lookup_insert_eq.
      * intros object_name Hname. rewrite fmap_cons, not_elem_of_cons in Hname.
        destruct Hname as [Hne Hname].
        rewrite (Hother _ Hname). cbn [object_statuses record_object_status].
        by rewrite lookup_insert_ne.
    + eexists (Raise e), _, (audit_insert audit_config values :: after).
      split; [reflexivity|]. unfold advance. cbn [sent tables ticks report].
      split; [done|]. split; [done|]. split; [exact Hplain|].
      split; [done|]. split; [|by apply Hfailed].
      rewrite filter_cons. cbn [audit_insert is_insert].
      rewrite decide_True by done. rewrite Hnone. cbn [length]. lia.
Qed.

End MissingTableFacts.

Lemma sorted_permutation names : sorted names ≡ₚ elements names.
Proof. apply merge_sort_Permutation. Qed.

Lemma length_sorted names : length (sorted names) = size names.
Proof. by rewrite sorted_permutation. Qed.

Lemma elem_of_sorted name names : name ∈ sorted names ↔ name ∈ names.
Proof. by rewrite sorted_permutation, elem_of_elements. Qed.

(** X22.  The loop over the tables that the schema source declares and
    the input does not feed absorbs the failures of the audit inserts and
    of the commits: it raises only the exception of a roll back that
    failed, which then is the last statement sent.  It sends no DDL and at
    most one insert per table, changes no table and counts no document.
    When it returns, it has sent exactly one audit insert per table and
    has recorded the object status [missing] under each table's reported
    name. *)
Theorem missing_tables_are_audited_once :
  ∀ fault clock audit_config mapping_config names st,
    ∃ outcome st' new,
      for_each (sorted names)
        (audit_missing_table fault clock audit_config mapping_config) st
      = (outcome, st')
      ∧ sent st' = sent st ++ new
      ∧ Forall (λ stmt, is_ddl stmt = false) new
      ∧ length (filter (λ stmt, is_insert stmt = true) new) ≤ size names
      ∧ tables st' = tables st
      ∧ total_docs (report st') = total_docs (report st)
      ∧ match outcome with
        | Return _ =>
            length (filter (λ stmt, is_insert stmt = true) new) = size names
            ∧ ∀ table, table ∈ names →
                object_statuses (report st')
                  !! default table (table_lookup mapping_config !! table)
                = Some (osv_missing (object_status_values_of audit_config))
        | Raise e => rollback_failed fault st' e
        end.
Proof.
  intros fault clock audit_config mapping_config names st.
  destruct (missing_tables_loop fault clock audit_config mapping_config
              (sorted names) st)
    as (outcome & st' & new & Hrun & Hsent & Htables & Hddl & Hdocs & Hmost
        & Hout).
  exists outcome, st', new. rewrite length_sorted in Hmost.
  repeat (split; [done|]).
  destruct outcome; [|exact Hout].
  destruct Hout as (_ & Hcount & Hstatus & _).
  rewrite length_sorted in Hcount. split; [exact Hcount|].
  intros table Hin. apply Hstatus. by apply elem_of_sorted.
Qed.

Section HealthyServer.
Variable fault : nat → option exn.
Hypothesis Hhealthy : ∀ n, fault n = None.

Lemma execute_healthy stmt st :
  execute fault stmt st
  = (Return tt,
     State (effect stmt (tables st)) (sent st ++ [stmt]) (ticks st) (report st)).
Proof. unfold execute. by rewrite Hhealthy. Qed.

Lemma table_exists_healthy table_name st :
  table_exists fault table_name st
  = (Return (bool_decide (split_table_name table_name ∈ tables st)),
     State (tables st)
       (sent st ++ [SelectTable (split_table_name table_name).1
                      (split_table_name table_name).2])
       (ticks st) (report st)).
Proof.
  unfold table_exists. destruct (split_table_name table_name) as [schema table].
  unfold seq. rewrite execute_healthy. done.
Qed.

Lemma create_table_if_missing_healthy table_name columns st :
  split_table_name table_name ∈ tables st ∨ columns ≠ [] →
  create_table_if_missing fault table_name columns st
  = (Return tt,
     State (tables st ∪ {[split_table_name table_name]})
       (sent st
        ++ SelectTable (split_table_name table_name).1
             (split_table_name table_name).2
           :: (if bool_decide (split_table_name table_name ∈ tables st) then []
               else [CreateTable (split_table_name table_name).1
                       (split_table_name table_name).2 columns]))
       (ticks st) (report st)).
Proof.
  intros Hok. unfold create_table_if_missing, seq.
  rewrite table_exists_healthy. case_bool_decide as Hin; cbn [negb].
  - unfold pure. cbn [tables sent ticks report]. f_equal. f_equal.
    apply leibniz_equiv. set_solver.
  - destruct Hok as [?|Hcolumns]; [done|]. unfold create_table.
    destruct columns as [|column columns]; [done|].
    destruct (split_table_name table_name) as [schema table].
    rewrite execute_healthy. cbn [tables sent ticks report effect fst snd].
    by rewrite <- app_assoc.
Qed.

End HealthyServer.

Section AuditTablesFacts.
Variable fault : nat → option exn.
Hypothesis Hhealthy : ∀ n, fault n = None.
Variable audit_config : audit_config.
Variable audit_columns_items audit_column_types : list (string * string).

Local Abbreviation ensure :=
  (_ensure_audit_tables fault audit_config audit_columns_items
     audit_column_types).
Local Abbreviation typed_columns :=
  (_build_audit_table_columns audit_columns_items audit_column_types).

Lemma ensure_audit_tables_healthy st :
  target_schema audit_config ≠ EmptyString →
  split_table_name (audit_table audit_config) ∈ tables st ∨ typed_columns ≠ [] →
  ∃ new,
    ensure st
    = (Return tt,
       State (tables st ∪ list_to_set (audit_tables audit_config))
         (sent st ++ new) (ticks st) (report st))
    ∧ Forall (λ stmt, is_insert stmt = false) new
    ∧ (∀ stmt table, stmt ∈ new → creates_table stmt table →
         table ∈ audit_tables audit_config ∧ table ∉ tables st).
Proof.
  intros Hschema Haudit. unfold _ensure_audit_tables, create_schema.
  cbn [truthy]. rewrite bool_decide_eq_false_2 by done. cbn [negb].
  unfold report_tables at 1. cbn [for_each fst snd]. unfold seq, pure, commit.
  rewrite (execute_healthy fault Hhealthy).
  rewrite (create_table_if_missing_healthy fault Hhealthy) by exact Haudit.
  rewrite (create_table_if_missing_healthy fault Hhealthy) by (by right).
  rewrite (create_table_if_missing_healthy fault Hhealthy) by (by right).
  rewrite (execute_healthy fault Hhealthy).
  cbn [tables sent ticks report effect].
  set (A := split_table_name (audit_table audit_config)).
  set (R1 := split_table_name (target_schema audit_config +:+ ".missing_attributes_report")).
  set (R2 := split_table_name (target_schema audit_config +:+ ".missing_collections_report")).
  eexists. split; [|split].
  - f_equal. f_equal; [|rewrite <- !app_assoc; reflexivity].
    unfold audit_tables, report_tables. cbn [fmap list_fmap fst list_to_set].
    fold A R1 R2. apply leibniz_equiv. set_solver.
  - cbn [app].
    repeat first [ apply Forall_nil_2 | apply Forall_cons; split; [reflexivity|]
                 | case_bool_decide | apply Forall_app; split ].
  - intros stmt table Hin [columns ->].
    assert (A ∈ audit_tables audit_config ∧ R1 ∈ audit_tables audit_config
            ∧ R2 ∈ audit_tables audit_config) as (HA & HR1 & HR2).
    { unfold audit_tables, report_tables. cbn [fmap list_fmap fst]. fold A R1 R2.
      set_solver. }
    repeat case_bool_decide; cbn [app] in Hin;
      repeat (apply elem_of_cons in Hin as [Hin|Hin]; [try discriminate Hin|]);
      try (by apply elem_of_nil in Hin);
      injection Hin as Hfst Hsnd _;
      assert (table = (table.1, table.2)) as Htable by (by destruct table);
      rewrite Hfst, Hsnd, <- surjective_pairing in Htable; subst table;
      (split; [done|]); clear -H H0 H1; set_solver.
Qed.

Lemma ensure_audit_tables_without_columns st :
  target_schema audit_config ≠ EmptyString →
  split_table_name (audit_table audit_config) ∉ tables st →
  typed_columns = [] →
  ensure st
  = (Raise (Exn LoadError "Cannot create table without columns."),
     State (tables st)
       (sent st ++ [CreateSchema (target_schema audit_config);
                    SelectTable (split_table_name (audit_table audit_config)).1
                      (split_table_name (audit_table audit_config)).2])
       (ticks st) (report st)).
Proof.
  intros Hschema Habsent Hcolumns. unfold _ensure_audit_tables, create_schema.
  cbn [truthy]. rewrite bool_decide_eq_false_2 by done. cbn [negb].
  unfold seq at 1. rewrite (execute_healthy fault Hhealthy).
  unfold seq at 1. unfold create_table_if_missing at 1. unfold seq at 1.
  rewrite (table_exists_healthy fault Hhealthy).
  cbn [tables sent ticks report effect].
  rewrite bool_decide_eq_false_2 by done. cbn [negb].
  rewrite Hcolumns. unfold create_table, throw. by rewrite <- app_assoc.
Qed.

End AuditTablesFacts.

(** X23.  On a server that answers every statement, and with a target
    schema that is not empty, [_ensure_audit_tables] returns when the audit
    table exists or at least one audit column has a type: afterwards the
    catalog has the audit table and the two report tables, no row has been
    inserted, and a table is created only when it is one of the three and
    the catalog did not have it.  When the audit table is absent and no
    audit column has a type, it raises the load error of [create_table]
    and creates nothing. *)
Theorem ensure_audit_tables_creates_what_is_missing :
  ∀ fault audit_config audit_columns_items audit_column_types st,
    (∀ n, fault n = None) →
    target_schema audit_config ≠ EmptyString →
    let run :=
      _ensure_audit_tables fault audit_config audit_columns_items
        audit_column_types st in
    let typed_columns :=
      _build_audit_table_columns audit_columns_items audit_column_types in
    (split_table_name (audit_table audit_config) ∈ tables st
     ∨ typed_columns ≠ [] →
     ∃ new,
       run = (Return tt,
              State (tables st ∪ list_to_set (audit_tables audit_config))
                (sent st ++ new) (ticks st) (report st))
       ∧ Forall (λ stmt, is_insert stmt = false) new
       ∧ ∀ stmt table, stmt ∈ new → creates_table stmt table →
           table ∈ audit_tables audit_config ∧ table ∉ tables st)
    ∧ (split_table_name (audit_table audit_config) ∉ tables st →
       typed_columns = [] →
       run.1 = Raise (Exn LoadError "Cannot create table without columns.")
       ∧ tables run.2 = tables st).
Proof.
  intros fault audit_config items types st Hhealthy Hschema run typed_columns.
  subst run typed_columns. split.
  - intros Haudit. by apply ensure_audit_tables_healthy.
  - intros Habsent Hcolumns.
    by rewrite (ensure_audit_tables_without_columns fault Hhealthy audit_config
                  items types st Hschema Habsent Hcolumns).
Qed.

Lemma ensure_audit_tables_creates_what_is_missing_witness :
  ∃ new,
    _ensure_audit_tables no_fault default_audit_config default_audit_columns
      default_audit_column_types empty_database
    = (Return tt,
       State (tables empty_database
              ∪ list_to_set (audit_tables default_audit_config))
         (sent empty_database ++ new) (ticks empty_database)
         (report empty_database))
    ∧ Forall (λ stmt, is_insert stmt = false) new.
Proof.
  destruct (ensure_audit_tables_creates_what_is_missing no_fault
              default_audit_config default_audit_columns
              default_audit_column_types empty_database)
    as [Hcreates _].
  - intros n. reflexivity.
  - vm_compute. discriminate.
  - destruct Hcreates as (new & Hrun & Hinserts & _).
    + right. vm_compute. discriminate.
    + exists new. split; [exact Hrun|exact Hinserts].
Defined.

(** X24.  What the database block of [run] does with the outcome of its
    body.  When the body returns, the loader's exit commits; when the
    body raises, it rolls back.  An exception that leaves the block is a
    [LoadError]: the exception of the body, or the one of the commit or of
    the roll back when that statement fails, passed on as it is when it is
    a [LoadError] and wrapped into a [LoadError] with the same message
    otherwise. *)
Theorem database_block_raises_only_load_error :
  ∀ rt fault clock runtime_config audit_config audit_columns_items
    audit_column_types mapping_config schema_tables input_data st,
    let body :=
      loader_block rt fault clock runtime_config audit_config
        audit_columns_items audit_column_types mapping_config schema_tables
        input_data st in
    let run :=
      database_block rt fault clock runtime_config audit_config
        audit_columns_items audit_column_types mapping_config schema_tables
        input_data st in
    match body.1 with
    | Return _ =>
        sent run.2 = sent body.2 ++ [Commit]
        ∧ run.1 = match fault (length (sent body.2)) with
                  | None => Return tt
                  | Some cause => Raise (as_load_error cause)
                  end
    | Raise exc =>
        sent run.2 = sent body.2 ++ [Rollback]
        ∧ run.1 = match fault (length (sent body.2)) with
                  | None => Raise (as_load_error exc)
                  | Some cause => Raise (as_load_error cause)
                  end
    end
    ∧ tables run.2 = tables body.2
    ∧ report run.2 = report body.2
    ∧ (∀ e, run.1 = Raise e → exn_cls e = LoadError)
    ∧ (∀ exc, exn_cls (as_load_error exc) = LoadError
              ∧ exn_msg (as_load_error exc) = exn_msg exc
              ∧ (exn_cls exc = LoadError → as_load_error exc = exc)).
Proof.
  intros rt fault clock runtime_config audit_config items types mapping_config
    schema_tables input_data st body run.
  assert (∀ exc, exn_cls (as_load_error exc) = LoadError
                 ∧ exn_msg (as_load_error exc) = exn_msg exc
                 ∧ (exn_cls exc = LoadError → as_load_error exc = exc))
    as Hwrap.
  { intros exc. unfold as_load_error. case_bool_decide; by repeat split. }
  assert (∀ exc (st1 : state),
            (if bool_decide (exn_cls exc = LoadError)
             then (throw exc : action state unit)
             else throw (Exn LoadError (exn_msg exc))) st1
            = (Raise (as_load_error exc), st1)) as Hhandler.
  { intros exc st1. unfold as_load_error, throw. by case_bool_decide. }
  subst run. unfold database_block.
  fold (loader_block rt fault clock runtime_config audit_config items types
          mapping_config schema_tables input_data).
  unfold catch, seq, commit, rollback, execute, throw in *.
  fold body. destruct body as [[[]|exc] st1]; cbn [fst snd].
  - destruct (fault (length (sent st1))) as [cause|] eqn:Hfault;
      rewrite ?Hhandler; cbn [fst snd sent tables report effect];
      (split; [by split|]); (split; [done|]); (split; [done|]);
      (split; [|exact Hwrap]); intros e [= <-]; apply Hwrap.
  - destruct (fault (length (sent st1))) as [cause|] eqn:Hfault;
      rewrite ?Hhandler; cbn [fst snd sent tables report effect];
      (split; [by split|]); (split; [done|]); (split; [done|]);
      (split; [|exact Hwrap]); intros e [= <-]; apply Hwrap.
Qed.

Section HealthyRun.
Variable rt : runtime.
Variable fault : nat → option exn.
Variable clock : nat → datetime.
Variable runtime_config : runtime_config.
Variable audit_config : audit_config.
Variable mapping_config : list (string * collection_config).
Variable schema_tables_no_audit : gset string.
Hypothesis Hhealthy : ∀ n, fault n = None.
Hypothesis Hbusiness : has_business_columns audit_config.

Lemma provision_table_healthy collection_config st :
  (split_table_name (target_table collection_config)).1 ≠ EmptyString →
  (∃ table_columns,
     build_table_columns (mappings collection_config)
       (raw_json_column collection_config) (type_mappings runtime_config)
       (business_columns audit_config) (business_column_types audit_config)
     = Return table_columns) →
  ∃ outcome st',
    provision_table fault runtime_config audit_config schema_tables_no_audit
      collection_config st = (Return outcome, st')
    ∧ total_docs (report st') = total_docs (report st)
    ∧ tables st ⊆ tables st'.
Proof.
  intros Hschema [table_columns Hcolumns].
  destruct (decide (split_table_name (target_table collection_config) ∈ tables st))
    as [Hexists|Habsent].
  - rewrite provision_existing by done. eexists _, _. split; [reflexivity|].
    unfold advance. cbn [report tables]. by split.
  - destruct (decide (normalize_table_name (target_table collection_config)
                      ∈ schema_tables_no_audit)) as [Hdeclared|Hnew].
    + rewrite provision_missing by done. eexists _, _. split; [reflexivity|].
      unfold advance. cbn [report tables]. by split.
    + rewrite (provision_new fault runtime_config audit_config
                 schema_tables_no_audit collection_config st table_columns)
        by done.
      eexists _, _. split; [reflexivity|]. cbn [report tables].
      split; [done|set_solver].
Qed.

Lemma process_collection_healthy collection_name documents st :
  (∀ collection_config,
     get_collection_mapping mapping_config collection_name = Some collection_config →
     loadable rt runtime_config audit_config collection_config documents) →
  ∃ st',
    process_collection rt fault clock runtime_config audit_config mapping_config
      schema_tables_no_audit collection_name documents st = (Return tt, st')
    ∧ total_docs (report st')
      = total_docs (report st)
        + match get_collection_mapping mapping_config collection_name with
          | Some _ => length documents
          | None => 0
          end
    ∧ tables st ⊆ tables st'.
Proof.
  intros Hloadable. unfold process_collection.
  destruct (get_collection_mapping mapping_config collection_name)
    as [collection_config|].
  - destruct (Hloadable collection_config eq_refl) as (Hschema & Hcolumns & Hdocs).
    destruct (provision_table_healthy collection_config st Hschema Hcolumns)
      as ([object_status table_exists] & st1 & Hprovision & Hdocs1 & Htables1).
    unfold seq. rewrite Hprovision. cbn [fst snd].
    destruct (document_loop_counts rt fault clock runtime_config audit_config
                collection_name collection_config object_status table_exists
                documents st1 Hbusiness Hdocs)
      as (outcome & st' & Hloop & Htables' & Hout).
    destruct outcome as [[]|e].
    + exists st'. split; [exact Hloop|]. split; [lia|]. by rewrite Htables'.
    + destruct Hout as [[_ Hfault] _]. by rewrite Hhealthy in Hfault.
  - eexists. split; [reflexivity|]. cbn [report tables]. split; [|done].
    unfold total_docs, total_processed, total_failures, add_unmapped_collection.
    cbn. lia.
Qed.

Lemma collections_loop_healthy input_data st :
  (∀ collection_name documents collection_config,
     (collection_name, documents) ∈ input_data →
     get_collection_mapping mapping_config collection_name = Some collection_config →
     loadable rt runtime_config audit_config collection_config documents) →
  ∃ st',
    for_each input_data
      (λ kv, process_collection rt fault clock runtime_config audit_config
               mapping_config schema_tables_no_audit kv.1 kv.2) st
    = (Return tt, st')
    ∧ total_docs (report st')
      = total_docs (report st) + mapped_documents mapping_config input_data
    ∧ tables st ⊆ tables st'.
Proof.
  revert st. induction input_data as [|[collection_name documents] input_data IH];
    intros st Hloadable.
  - exists st. split; [done|]. unfold mapped_documents. cbn. split; [lia|done].
  - destruct (process_collection_healthy collection_name documents st)
      as (st1 & Hstep & Hdocs1 & Htables1).
    { intros collection_config. apply Hloadable. by left. }
    destruct (IH st1) as (st' & Hloop & Hdocs' & Htables').
    { intros name docs cfg Hin. apply Hloadable. by right. }
    exists st'. cbn [for_each fst snd]. unfold seq at 1. rewrite Hstep.
    split; [exact Hloop|]. unfold mapped_documents in *. cbn [fmap list_fmap sum_list fst snd].
    unfold id. split; [by rewrite Hdocs', Hdocs1, Nat.add_assoc|set_solver].
Qed.

End HealthyRun.

Section HealthyBlock.
Variable rt : runtime.
Variable fault : nat → option exn.
Variable clock : nat → datetime.
Variable runtime_config : runtime_config.
Variable audit_config : audit_config.
Variable audit_columns_items audit_column_types : list (string * string).
Variable mapping_config : list (string * collection_config).
Variable schema_tables : gset string.
Hypothesis Hhealthy : ∀ n, fault n = None.
Hypothesis Hbusiness : has_business_columns audit_config.
Hypothesis Hschema : target_schema audit_config ≠ EmptyString.

Lemma database_block_healthy input_data st :
  split_table_name (audit_table audit_config) ∈ tables st
  ∨ _build_audit_table_columns audit_columns_items audit_column_types ≠ [] →
  (∀ collection_name documents collection_config,
     (collection_name, documents) ∈ input_data →
     get_collection_mapping mapping_config collection_name = Some collection_config →
     loadable rt runtime_config audit_config collection_config documents) →
  ∃ st',
    database_block rt fault clock runtime_config audit_config
      audit_columns_items audit_column_types mapping_config schema_tables
      input_data st = (Return tt, st')
    ∧ total_docs (report st')
      = total_docs (report st) + mapped_documents mapping_config input_data
    ∧ tables st ∪ list_to_set (audit_tables audit_config) ⊆ tables st'
    ∧ last (sent st') = Some Commit.
Proof.
  intros Haudit Hloadable.
  destruct (ensure_audit_tables_healthy fault Hhealthy audit_config
              audit_columns_items audit_column_types st Hschema Haudit)
    as (new & Hensure & _ & _).
  set (st1 := State (tables st ∪ list_to_set (audit_tables audit_config))
                (sent st ++ new) (ticks st) (report st)) in *.
  pose proof (table_exists_healthy fault Hhealthy (audit_table audit_config) st1)
    as Hcheck.
  rewrite bool_decide_eq_true_2 in Hcheck
    by (subst st1; cbn [tables]; unfold audit_tables; set_solver).
  set (st2 := State (tables st1) _ (ticks st1) (report st1)) in Hcheck.
  destruct (missing_tables_loop fault clock audit_config mapping_config
              (sorted (missing_input_tables audit_config mapping_config
                         schema_tables input_data)) st2)
    as (outcome3 & st3 & new3 & Hmissing & _ & Htables3 & _ & Hdocs3 & _
        & Hout3).
  assert (outcome3 = Return tt) as ->.
  { destruct outcome3 as [[]|e]; [done|].
    destruct Hout3 as [_ Hfault]. by rewrite Hhealthy in Hfault. }
  destruct (collections_loop_healthy rt fault clock runtime_config audit_config
              mapping_config
              (schema_tables_without_audit audit_config schema_tables)
              Hhealthy Hbusiness input_data st3 Hloadable)
    as (st4 & Hloop & Hdocs4 & Htables4).
  exists (State (tables st4) (sent st4 ++ [Commit]) (ticks st4) (report st4)).
  split; [|split; [|split]].
  - unfold database_block, loader_block, catch, seq.
    rewrite Hensure, Hcheck. cbn [negb].
    unfold pure at 1. rewrite Hmissing, Hloop.
    unfold commit. by rewrite (execute_healthy fault Hhealthy).
  - cbn [report]. rewrite Hdocs4, Hdocs3. done.
  - cbn [tables]. rewrite <- Htables4, Htables3. done.
  - apply last_snoc.
Qed.

End HealthyBlock.

(** X25.  On a server that answers every statement, [run] returns its
    report when the target schema of the audit tables is not empty, the
    audit table exists or has a typed column, the audit section has its
    three business columns, and every input collection with a mapping is
    loadable (the schema of its table is not empty, [build_table_columns]
    returns, every document transforms): the report counts every document
    of the mapped collections exactly once, the catalog keeps its tables
    and has the three audit tables, and the last statement is a commit. *)
Theorem healthy_run_counts_every_document :
  ∀ rt fault clock runtime_config audit_config audit_columns_items
    audit_column_types mapping_config schema_tables input_data st,
    (∀ n, fault n = None) →
    target_schema audit_config ≠ EmptyString →
    split_table_name (audit_table audit_config) ∈ tables st
    ∨ _build_audit_table_columns audit_columns_items audit_column_types ≠ [] →
    has_business_columns audit_config →
    (∀ collection_name documents collection_config,
       (collection_name, documents) ∈ input_data →
       get_collection_mapping mapping_config collection_name
         = Some collection_config →
       loadable rt runtime_config audit_config collection_config documents) →
    ∃ st',
      run_loaded rt fault clock runtime_config audit_config
        audit_columns_items audit_column_types mapping_config schema_tables
        input_data st = (Return (report st'), st')
      ∧ total_docs (report st') = mapped_documents mapping_config input_data
      ∧ tables st ∪ list_to_set (audit_tables audit_config) ⊆ tables st'
      ∧ last (sent st') = Some Commit.
Proof.
  intros rt fault clock runtime_config audit_config items types mapping_config
    schema_tables input_data st Hhealthy Hschema Haudit Hbusiness Hloadable.
  unfold run_loaded, seq at 1, modify.
  unfold seq at 1, with_report, modify. cbn [tables sent ticks report].
  unfold seq at 1. cbn [tables sent ticks report].
  unfold seq at 1, now. cbn [tables sent ticks report].
  unfold seq at 1. cbn [tables sent ticks report].
  match goal with
  | |- context [(database_block _ _ _ _ _ _ _ _ _ _ ;;; _) ?s] => set (st0 := s)
  end.
  destruct (database_block_healthy rt fault clock runtime_config audit_config
              items types mapping_config schema_tables Hhealthy Hbusiness
              Hschema input_data st0)
    as (st' & Hblock & Hdocs & Htables & Hlast); [exact Haudit|exact Hloadable|].
  exists st'. unfold seq, get, pure. rewrite Hblock.
  split; [done|]. split; [|split; [exact Htables|exact Hlast]].
  rewrite Hdocs. reflexivity.
Qed.

Lemma healthy_run_counts_every_document_witness :
  ∃ st',
    run_loaded Ref.runtime no_fault seconds_clock default_runtime_config
      default_audit_config default_audit_columns default_audit_column_types
      users_mapping_config {["public.orders"]}
      [("users", [document_without_name; document_with_null_name]);
       ("stray", [[("id", PInt 9)]])] empty_database
    = (Return (report st'), st')
    ∧ total_docs (report st') = 2
    ∧ last (sent st') = Some Commit.
Proof.
  destruct (healthy_run_counts_every_document Ref.runtime no_fault seconds_clock
              default_runtime_config default_audit_config default_audit_columns
              default_audit_column_types users_mapping_config {["public.orders"]}
              [("users", [document_without_name; document_with_null_name]);
               ("stray", [[("id", PInt 9)]])] empty_database)
    as (st' & Hrun & Hdocs & _ & Hlast).
  - intros n. reflexivity.
  - vm_compute. discriminate.
  - right. vm_compute. discriminate.
  - intros key. rewrite !elem_of_cons, elem_of_nil.
    intros [->|[->|[->|[]]]]; vm_compute; reflexivity.
  - intros collection_name documents collection_config.
    rewrite !elem_of_cons, elem_of_nil.
    intros [[= -> ->]|[[= -> ->]|[]]];
      [|intros Hmapping; by vm_compute in Hmapping].
    intros [= <-]. split; [vm_compute; discriminate|]. split.
    + eexists. vm_compute. reflexivity.
    + intros document. rewrite !elem_of_cons, elem_of_nil.
      intros [->|[->|[]]]; eexists; vm_compute; reflexivity.
  - exists st'. split; [exact Hrun|]. split; [|exact Hlast].
    rewrite Hdocs. vm_compute. reflexivity.
Defined.

(* ===================================================================== *)
(** * Properties of the schema source *)
(* ===================================================================== *)

Lemma length_lower s : String.length (lower s) = String.length s.
Proof. induction s as [|c s IH]; [done|]. cbn. by rewrite IH. Qed.

Lemma lower_append a b : lower (a +:+ b) = lower a +:+ lower b.
Proof.
  induction a as [|c a IH]; [done|]. rewrite append_cons. cbn [lower].
  by rewrite IH.
Qed.

Lemma length_append a b :
  String.length (a +:+ b) = String.length a + String.length b.
Proof.
  induction a as [|c a IH]; [done|].
  change (S (String.length (a +:+ b)) = S (String.length a + String.length b)).
  by rewrite IH.
Qed.

Lemma lower_nil s : lower s = EmptyString ↔ s = EmptyString.
Proof. by destruct s. Qed.

Lemma keyword_lower word s : keyword word (lower s) = lower <$> keyword word s.
Proof.
  revert s. induction word as [|k word IH]; intros [|c s]; try done.
  cbn [keyword lower]. rewrite lower_char_idemp.
  case_bool_decide; [apply IH|done].
Qed.

Lemma spaces_lower s : spaces (lower s) = lower <$> spaces s.
Proof.
  destruct s as [|c s]; [done|]. cbn [spaces lower].
  rewrite isspace_lower_char. destruct (isspace c); [|done].
  cbn. by rewrite lstrip_lower.
Qed.

Lemma lower_char_paren c : lower_char c = "("%char ↔ c = "("%char.
Proof.
  destruct c as [[] [] [] [] [] [] [] []]; vm_compute; split; congruence.
Qed.

Lemma name_char_lower c : name_char (lower_char c) = name_char c.
Proof.
  unfold name_char. rewrite isspace_lower_char.
  f_equal. f_equal. apply bool_decide_ext, lower_char_paren.
Qed.

Lemma name_run_lower s :
  name_run (lower s) = (lower (name_run s).1, lower (name_run s).2).
Proof.
  induction s as [|c s IH]; [done|].
  cbn [name_run lower]. rewrite name_char_lower.
  destruct (name_char c); [|done].
  rewrite IH. by destruct (name_run s).
Qed.

Lemma match_create_table_lower s :
  match_create_table (lower s)
  = (λ found, (lower found.1, lower found.2)) <$> match_create_table s.
Proof.
  unfold match_create_table.
  repeat (rewrite keyword_lower;
          match goal with |- context [keyword ?w ?x] =>
            destruct (keyword w x) as [?|]; [|done]
          end; cbn [fmap option_fmap option_map mbind option_bind];
          rewrite spaces_lower;
          match goal with |- context [spaces ?x] =>
            destruct (spaces x) as [?|]; [|done]
          end; cbn [fmap option_fmap option_map mbind option_bind]).
  rewrite name_run_lower.
  match goal with |- context [name_run ?x] =>
    destruct (name_run x) as [name rest]
  end.
  cbn [fst snd].
  rewrite (bool_decide_ext _ _ (lower_nil name)).
  by case_bool_decide.
Qed.

Lemma findall_from_lower skip s :
  findall_from skip (lower s) = lower <$> findall_from skip s.
Proof.
  revert skip. induction s as [|c s IH]; intros skip; [done|].
  change (lower (String c s)) with (String (lower_char c) (lower s)).
  cbn [findall_from]. destruct skip as [|skip]; [|apply IH].
  change (String (lower_char c) (lower s)) with (lower (String c s)).
  rewrite match_create_table_lower.
  destruct (match_create_table (String c s)) as [[name rest]|];
    cbn [fmap option_fmap option_map fst snd]; [|apply IH].
  rewrite !length_lower, IH. done.
Qed.

(** ** The matches, one after the other *)

Lemma keyword_suffix word s rest :
  keyword word s = Some rest →
  ∃ taken, s = taken +:+ rest ∧ String.length taken = String.length word.
Proof.
  revert s. induction word as [|k word IH]; intros s.
  - intros [= <-]. by exists EmptyString.
  - destruct s as [|c s]; [done|]. cbn [keyword].
    case_bool_decide; [|done]. intros Hrest.
    destruct (IH _ Hrest) as (taken & -> & Hlen).
    exists (String c taken). cbn. by rewrite Hlen.
Qed.

Lemma lstrip_suffix s : ∃ taken, s = taken +:+ lstrip s.
Proof.
  induction s as [|c s [taken IH]]; [by exists EmptyString|].
  cbn [lstrip]. destruct (isspace c).
  - exists (String c taken). by rewrite append_cons, <- IH.
  - by exists EmptyString.
Qed.

Lemma spaces_suffix s rest :
  spaces s = Some rest → ∃ taken, s = taken +:+ rest.
Proof.
  destruct s as [|c s]; [done|]. cbn [spaces].
  destruct (isspace c); [|done]. intros [= <-].
  destruct (lstrip_suffix s) as [taken Htaken].
  exists (String c taken). by rewrite append_cons, <- Htaken.
Qed.

Lemma name_run_suffix s : s = (name_run s).1 +:+ (name_run s).2.
Proof.
  induction s as [|c s IH]; [done|].
  cbn [name_run]. destruct (name_char c); [|done].
  destruct (name_run s) as [name rest]. cbn [fst snd] in *.
  by rewrite append_cons, <- IH.
Qed.

Lemma name_run_chars s c :
  c ∈ chars (name_run s).1 → name_char c = true.
Proof.
  induction s as [|x s IH]; [by intros ?%elem_of_nil|].
  cbn [name_run]. destruct (name_char x) eqn:Hx; [|by intros ?%elem_of_nil].
  destruct (name_run s) as [name rest]. cbn [fst chars list_ascii_of_string] in *.
  intros [->|Hc]%elem_of_cons; [done|]. by apply IH.
Qed.

(** A match takes one character at least, and what follows it is the end
    of the string it started in. *)
Lemma match_create_table_suffix c s name rest :
  match_create_table (String c s) = Some (name, rest) →
  ∃ taken, s = taken +:+ rest.
Proof.
  unfold match_create_table.
  destruct (keyword "CREATE" (String c s)) as [s1|] eqn:H1; [|done].
  change (keyword "CREATE" (String c s))
    with (if bool_decide (lower_char c = lower_char "C")
          then keyword "REATE" s else None) in H1.
  case_bool_decide; [|done].
  apply keyword_suffix in H1 as (taken1 & -> & _).
  cbn [mbind option_bind].
  repeat match goal with
  | |- context [spaces ?x] =>
      let H := fresh in
      destruct (spaces x) as [?|] eqn:H; [|done];
      apply spaces_suffix in H as [? ->]; cbn [mbind option_bind]
  | |- context [keyword ?w ?x] =>
      let H := fresh in
      destruct (keyword w x) as [?|] eqn:H; [|done];
      apply keyword_suffix in H as (? & -> & _); cbn [mbind option_bind]
  end.
  match goal with |- context [name_run ?x] =>
    pose proof (name_run_suffix x) as Hrun;
    destruct (name_run x) as [name' rest']
  end.
  case_bool_decide; [done|]. intros [= <- <-]. cbn [fst snd] in Hrun.
  rewrite Hrun. rewrite <- !append_assoc. by eexists.
Qed.

Lemma match_create_table_name s name rest :
  match_create_table s = Some (name, rest) → is_table_name name.
Proof.
  unfold match_create_table.
  repeat match goal with
  | |- context [spaces ?x] =>
      destruct (spaces x) as [?|]; [|done]; cbn [mbind option_bind]
  | |- context [keyword ?w ?x] =>
      destruct (keyword w x) as [?|]; [|done]; cbn [mbind option_bind]
  end.
  match goal with |- context [name_run ?x] =>
    pose proof (name_run_chars x) as Hrun;
    destruct (name_run x) as [name' rest']
  end.
  case_bool_decide; [done|]. intros [= <- <-]. by split.
Qed.

Lemma findall_from_skip taken rest :
  findall_from (String.length taken) (taken +:+ rest) = findall_from 0 rest.
Proof. induction taken as [|c taken IH]; [done|]. exact IH. Qed.

(** [findall] goes on behind a match, and one character further where
    there is none. *)
Lemma findall_match s name rest :
  match_create_table s = Some (name, rest) →
  findall s = name :: findall rest.
Proof.
  intros Hmatch. destruct s as [|c s]; [done|].
  unfold findall. cbn [findall_from]. rewrite Hmatch.
  destruct (match_create_table_suffix _ _ _ _ Hmatch) as [taken ->].
  rewrite length_append, Nat.add_sub. by rewrite findall_from_skip.
Qed.

Lemma findall_no_match c s :
  match_create_table (String c s) = None →
  findall (String c s) = findall s.
Proof. intros Hmatch. unfold findall. cbn [findall_from]. by rewrite Hmatch. Qed.

Lemma findall_from_names skip s name :
  name ∈ findall_from skip s → is_table_name name.
Proof.
  revert skip. induction s as [|c s IH]; intros skip; [by intros ?%elem_of_nil|].
  cbn [findall_from]. destruct skip as [|skip]; [|apply IH].
  destruct (match_create_table (String c s)) as [[name' rest]|] eqn:Hmatch;
    [|apply IH].
  intros [->|Hin]%elem_of_cons; [|by eapply IH].
  by eapply match_create_table_name.
Qed.

(** ** The tables of the schema source are normalized names *)

Lemma chars_append a b : chars (a +:+ b) = chars a ++ chars b.
Proof.
  induction a as [|c a IH]; [done|].
  rewrite append_cons. unfold chars in *. cbn [list_ascii_of_string app].
  by rewrite IH.
Qed.

Lemma chars_lower s : chars (lower s) = lower_char <$> chars s.
Proof.
  induction s as [|c s IH]; [done|].
  unfold chars in *. cbn [lower list_ascii_of_string fmap list_fmap].
  by rewrite IH.
Qed.

Lemma contains_dot_append a b :
  contains "." (a +:+ b) = contains "." a || contains "." b.
Proof.
  induction a as [|c a IH]; [done|].
  rewrite append_cons, !contains_dot_cons, IH. by rewrite orb_assoc.
Qed.

Lemma normalize_table_name_dot table_name :
  contains "." (normalize_table_name table_name) = true.
Proof.
  unfold normalize_table_name.
  destruct (split_table_name table_name) as [schema table].
  rewrite !contains_dot_append. cbn. by rewrite orb_true_r.
Qed.

Lemma normalize_table_name_lower_case table_name :
  lower (normalize_table_name table_name) = normalize_table_name table_name.
Proof.
  unfold normalize_table_name.
  destruct (split_table_name table_name) as [schema table].
  by rewrite !lower_append, !lower_idemp.
Qed.

Lemma split_table_name_chars table_name c :
  c ∈ chars (split_table_name table_name).1
      ++ chars (split_table_name table_name).2 →
  c ∈ chars "public" ∨ c ∈ chars table_name.
Proof.
  unfold split_table_name.
  destruct (split_once "." table_name) as [[schema table]|] eqn:Hsplit;
    cbn [fst snd].
  - apply split_once_some in Hsplit as [-> _].
    rewrite !chars_append, !elem_of_app. tauto.
  - rewrite elem_of_app. tauto.
Qed.

Lemma normalize_table_name_chars table_name :
  is_table_name table_name → is_table_name (normalize_table_name table_name).
Proof.
  intros [_ Hchars]. split.
  - intros Hnil. pose proof (normalize_table_name_dot table_name) as Hdot.
    by rewrite Hnil in Hdot.
  - intros c. unfold normalize_table_name.
    pose proof (split_table_name_chars table_name) as Hparts.
    destruct (split_table_name table_name) as [schema table].
    cbn [fst snd] in Hparts.
    rewrite !chars_append, !chars_lower, !elem_of_app.
    assert (∀ x, x ∈ chars schema ++ chars table → name_char (lower_char x) = true)
      as Hlow.
    { intros x [Hx|Hx]%Hparts; rewrite name_char_lower; [|by apply Hchars].
      revert Hx. unfold chars. cbn [list_ascii_of_string].
      rewrite !elem_of_cons, elem_of_nil.
      intros [->|[->|[->|[->|[->|[->|[]]]]]]]; reflexivity. }
    intros [(x & -> & Hx)%list_elem_of_fmap
           |[Hdot|(x & -> & Hx)%list_elem_of_fmap]].
    + apply Hlow, elem_of_app. by left.
    + revert Hdot. unfold chars. cbn [list_ascii_of_string].
      rewrite elem_of_cons, elem_of_nil. by intros [->|[]].
    + apply Hlow, elem_of_app. by right.
Qed.

(** X26.  For a schema text of ASCII characters, the tables that
    [load_schema_tables] reads do not depend on the case of the text: the
    words of the pattern match in any case, and the names are
    lower-cased. *)
Theorem load_schema_tables_ignores_case :
  ∀ schema_path content,
    is_ascii content = true →
    load_schema_tables schema_path (Some (lower content))
    = load_schema_tables schema_path (Some content).
Proof.
  intros schema_path content _. unfold load_schema_tables, findall.
  rewrite findall_from_lower, <- list_fmap_compose.
  do 2 f_equal. apply list_fmap_ext. intros _ name _.
  apply normalize_table_name_lower.
Qed.

Lemma load_schema_tables_ignores_case_witness :
  load_schema_tables "schema.sql"
    (Some (lower "Create Table If Not Exists ETL.Users (id TEXT);"))
  = load_schema_tables "schema.sql"
      (Some "Create Table If Not Exists ETL.Users (id TEXT);").
Proof.
  apply (load_schema_tables_ignores_case "schema.sql"
           "Create Table If Not Exists ETL.Users (id TEXT);").
  reflexivity.
Defined.

(** X27.  Every table that [load_schema_tables] returns is a normalized
    name: normalizing it changes nothing, it is schema-qualified and
    lower-cased, and it holds no white space and no opening
    parenthesis. *)
Theorem schema_tables_are_normalized :
  ∀ schema_path content tables table,
    load_schema_tables schema_path (Some content) = Return tables →
    table ∈ tables →
    normalize_table_name table = table
    ∧ contains "." table = true
    ∧ lower table = table
    ∧ is_table_name table.
Proof.
  intros schema_path content tables table [= <-].
  rewrite elem_of_list_to_set, list_elem_of_fmap.
  intros (name & -> & Hname%findall_from_names).
  split; [apply normalize_table_name_idemp|].
  split; [apply normalize_table_name_dot|].
  split; [apply normalize_table_name_lower_case|].
  by apply normalize_table_name_chars.
Qed.

Lemma schema_tables_are_normalized_witness :
  normalize_table_name "etl.users" = "etl.users"
  ∧ contains "." "etl.users" = true
  ∧ lower "etl.users" = "etl.users"
  ∧ is_table_name "etl.users".
Proof.
  apply (schema_tables_are_normalized "schema.sql"
           "create table if not exists ETL.Users (id TEXT);"
           {["etl.users"]} "etl.users").
  - vm_compute. reflexivity.
  - set_solver.
Defined.

(** ** Every declaration of the schema source is found *)

Lemma keyword_same word s : keyword word (word +:+ s) = Some s.
Proof.
  induction word as [|k word IH]; [done|].
  rewrite append_cons. cbn [keyword]. by rewrite bool_decide_eq_true_2.
Qed.

Lemma lstrip_name name s :
  is_table_name name → lstrip (name +:+ s) = name +:+ s.
Proof.
  intros [Hnil Hchars]. destruct name as [|c name]; [done|].
  rewrite append_cons. cbn [lstrip].
  assert (name_char c = true) as Hc by (apply Hchars; left).
  unfold name_char in Hc. by destruct (isspace c).
Qed.

Lemma name_run_name name c s :
  (∀ x, x ∈ chars name → name_char x = true) →
  name_char c = false →
  name_run (name +:+ String c s) = (name, String c s).
Proof.
  intros Hchars Hc. induction name as [|x name IH].
  - change (name_run (String c s) = (EmptyString, String c s)).
    cbn [name_run]. by rewrite Hc.
  - rewrite append_cons. cbn [name_run].
    rewrite (Hchars x) by left. rewrite IH; [done|].
    intros y Hy. apply Hchars. by right.
Qed.

Lemma match_create_table_statement name rest :
  is_table_name name →
  match_create_table
    ("CREATE TABLE IF NOT EXISTS " +:+ name +:+ String " " rest)
  = Some (name, String " " rest).
Proof.
  intros Hname.
  change ("CREATE TABLE IF NOT EXISTS " +:+ name +:+ String " " rest)
    with ("CREATE" +:+ String " " ("TABLE" +:+ String " " ("IF" +:+ String " "
            ("NOT" +:+ String " " ("EXISTS" +:+ String " "
               (name +:+ String " " rest)))))).
  unfold match_create_table.
  rewrite keyword_same. cbn [mbind option_bind].
  change (spaces (String " " ?s)) with (Some (lstrip s)).
  cbn [mbind option_bind].
  change (lstrip ("TABLE" +:+ ?s)) with ("TABLE" +:+ s).
  rewrite keyword_same. cbn [mbind option_bind].
  change (spaces (String " " ?s)) with (Some (lstrip s)).
  cbn [mbind option_bind].
  change (lstrip ("IF" +:+ ?s)) with ("IF" +:+ s).
  rewrite keyword_same. cbn [mbind option_bind].
  change (spaces (String " " ?s)) with (Some (lstrip s)).
  cbn [mbind option_bind].
  change (lstrip ("NOT" +:+ ?s)) with ("NOT" +:+ s).
  rewrite keyword_same. cbn [mbind option_bind].
  change (spaces (String " " ?s)) with (Some (lstrip s)).
  cbn [mbind option_bind].
  change (lstrip ("EXISTS" +:+ ?s)) with ("EXISTS" +:+ s).
  rewrite keyword_same. cbn [mbind option_bind].
  change (spaces (String " " ?s)) with (Some (lstrip s)).
  cbn [mbind option_bind].
  rewrite lstrip_name by done.
  rewrite name_run_name; [|apply Hname|done].
  destruct Hname as [Hnil _]. by rewrite bool_decide_eq_false_2.
Qed.

Lemma keyword_local word x sep v r :
  (∀ k, k ∈ chars word → lower_char sep ≠ lower_char k) →
  keyword word (x +:+ String sep v) = Some r →
  ∃ x', keyword word x = Some x' ∧ r = x' +:+ String sep v.
Proof.
  revert x. induction word as [|k word IH]; intros x Hsep.
  - intros [= <-]. by exists x.
  - destruct x as [|c x].
    + change (keyword (String k word) (String sep v) = Some r → ∃ x',
                keyword (String k word) EmptyString = Some x'
                ∧ r = x' +:+ String sep v).
      cbn [keyword].
      rewrite bool_decide_eq_false_2; [done|]. apply Hsep. left.
    + rewrite append_cons. cbn [keyword]. case_bool_decide; [|done].
      apply IH. intros k' Hk'. apply Hsep. by right.
Qed.

Lemma lstrip_local x sep v :
  isspace sep = false → lstrip (x +:+ String sep v) = lstrip x +:+ String sep v.
Proof.
  intros Hsep. induction x as [|c x IH].
  - change (lstrip (String sep v) = String sep v).
    cbn [lstrip]. by rewrite Hsep.
  - rewrite append_cons. cbn [lstrip]. by destruct (isspace c).
Qed.

Lemma spaces_local x sep v r :
  isspace sep = false →
  spaces (x +:+ String sep v) = Some r →
  ∃ x', spaces x = Some x' ∧ r = x' +:+ String sep v.
Proof.
  intros Hsep. destruct x as [|c x].
  - change (spaces (String sep v) = Some r → ∃ x',
              spaces EmptyString = Some x' ∧ r = x' +:+ String sep v).
    cbn [spaces]. by rewrite Hsep.
  - rewrite append_cons. cbn [spaces]. destruct (isspace c); [|done].
    intros [= <-]. eexists. split; [done|]. by apply lstrip_local.
Qed.

Lemma semicolon_in_no_word word :
  word = "CREATE" ∨ word = "TABLE" →
  ∀ k, k ∈ chars word → lower_char ";" ≠ lower_char k.
Proof.
  intros [->| ->] k; unfold chars; cbn [list_ascii_of_string];
    rewrite !elem_of_cons, elem_of_nil; intros Hk;
    repeat (destruct Hk as [->|Hk]; [by vm_compute|]); done.
Qed.

(** No match starts in a text that does not mention [CREATE TABLE] and
    that a semicolon follows. *)
Lemma match_create_table_local c body v :
  create_table_at (String c body) = false →
  match_create_table (String c body +:+ String ";" v) = None.
Proof.
  unfold create_table_at, match_create_table. intros Hat.
  destruct (keyword "CREATE" (String c body +:+ String ";" v)) as [s1|] eqn:H1;
    [|done].
  apply keyword_local in H1 as (x1 & H1 & ->);
    [|apply semicolon_in_no_word; by left].
  rewrite H1 in Hat. cbn [mbind option_bind] in *.
  destruct (spaces (x1 +:+ String ";" v)) as [s2|] eqn:H2; [|done].
  apply spaces_local in H2 as (x2 & H2 & ->); [|done].
  rewrite H2 in Hat. cbn [mbind option_bind] in *.
  destruct (keyword "TABLE" (x2 +:+ String ";" v)) as [s3|] eqn:H3; [|done].
  apply keyword_local in H3 as (x3 & H3 & ->);
    [|apply semicolon_in_no_word; by right].
  by rewrite H3 in Hat.
Qed.

Lemma findall_body body v :
  mentions_create_table body = false →
  findall (body +:+ String ";" v) = findall (String ";" v).
Proof.
  induction body as [|c body IH]; [done|].
  cbn [mentions_create_table]. intros [Hat Hrest]%orb_false_elim.
  rewrite <- (IH Hrest).
  pose proof (match_create_table_local c body v Hat) as Hnone.
  rewrite append_cons in *. by apply findall_no_match.
Qed.

Lemma findall_schema_source statements :
  (∀ name body, (name, body) ∈ statements →
     is_table_name name ∧ mentions_create_table body = false) →
  findall (schema_source statements) = statements.*1.
Proof.
  induction statements as [|[name body] statements IH]; intros Hall; [done|].
  destruct (Hall name body) as [Hname Hbody]; [left|].
  cbn [schema_source foldr fmap list_fmap fst snd].
  fold (schema_source statements).
  unfold create_table_statement. rewrite !append_assoc.
  change (" (" +:+ ?s) with (String " " (String "(" s)).
  rewrite (findall_match _ name _ (match_create_table_statement _ _ Hname)).
  f_equal.
  rewrite findall_no_match by reflexivity.
  rewrite findall_no_match by reflexivity.
  change (";" +:+ ?s) with (String ";" s).
  change (String "010" "" +:+ ?s) with (String "010" s).
  rewrite findall_body by done.
  rewrite findall_no_match by reflexivity.
  rewrite findall_no_match by reflexivity.
  apply IH. intros name' body' Hin. apply Hall. by right.
Qed.

(** X28.  A schema source that is a sequence of declarations, each a line
    [CREATE TABLE IF NOT EXISTS <name> (<body>;] with a name without white
    space and parenthesis and a body that nowhere holds [CREATE], white
    space and [TABLE], declares exactly the normalized names of its
    declarations: [findall] gives the names in their order, one per
    declaration. *)
Theorem declared_tables_are_found :
  ∀ schema_path statements,
    (∀ name body, (name, body) ∈ statements →
       is_table_name name ∧ mentions_create_table body = false) →
    findall (schema_source statements) = statements.*1
    ∧ load_schema_tables schema_path (Some (schema_source statements))
      = Return (list_to_set (normalize_table_name <$> statements.*1)).
Proof.
  intros schema_path statements Hall.
  pose proof (findall_schema_source statements Hall) as Hfound.
  split; [done|]. unfold load_schema_tables. by rewrite Hfound.
Qed.

Lemma is_table_name_checked name :
  name ≠ EmptyString → forallb name_char (chars name) = true →
  is_table_name name.
Proof.
  intros Hnil Hall. split; [done|]. intros c Hc.
  rewrite forallb_forall in Hall. by apply Hall, list_elem_of_In.
Qed.

Lemma declared_tables_are_found_witness :
  let statements :=
    [("etl.Users", "id TEXT, created_at TIMESTAMP)");
     ("orders", "id TEXT); CREATE INDEX IF NOT EXISTS by_id ON orders (id)")] in
  findall (schema_source statements) = ["etl.Users"; "orders"]
  ∧ load_schema_tables "schema.sql" (Some (schema_source statements))
    = Return (list_to_set ["etl.users"; "public.orders"]).
Proof.
  intros statements.
  apply (declared_tables_are_found "schema.sql" statements).
  intros name body. subst statements.
  rewrite !elem_of_cons, elem_of_nil.
  intros [[= -> ->]|[[= -> ->]|[]]];
    (split; [by apply is_table_name_checked|reflexivity]).
Defined.

(* ===================================================================== *)
(** * Table names in the orchestrator *)
(* ===================================================================== *)

Lemma elem_of_input_tables mapping_config input_data table :
  table ∈ input_tables mapping_config input_data
  ↔ ∃ collection_name documents collection_config,
      (collection_name, documents) ∈ input_data
      ∧ get_collection_mapping mapping_config collection_name
        = Some collection_config
      ∧ normalize_table_name (target_table collection_config) = table.
Proof.
  unfold input_tables. rewrite elem_of_list_to_set, list_elem_of_omap.
  split.
  - intros ([collection_name documents] & Hin & Hsome). cbn [fst] in Hsome.
    destruct (get_collection_mapping mapping_config collection_name)
      as [collection_config|] eqn:Hmapping; [|done].
    injection Hsome as <-. by exists collection_name, documents, collection_config.
  - intros (collection_name & documents & collection_config & Hin & Hmapping
            & <-).
    exists (collection_name, documents). split; [exact Hin|].
    cbn [fst]. by rewrite Hmapping.
Qed.

Lemma elem_of_schema_tables schema_path content schema_tables table :
  load_schema_tables schema_path (Some content) = Return schema_tables →
  table ∈ schema_tables
  ↔ ∃ name, name ∈ findall content ∧ normalize_table_name name = table.
Proof.
  intros [= <-]. rewrite elem_of_list_to_set, list_elem_of_fmap.
  split; intros (name & ? & ?); by exists name.
Qed.

(** C9, as the code has it.  [normalize_table_name] lower-cases the schema
    and the table part and takes the schema [public] for a name without a
    dot, so ASCII names that differ in case only have one normal form.
    The orchestrator compares under this normalization where it matches
    the mappings with the schema source: a target table counts as declared
    when its normal form is the normal form of a name of the schema source
    (outside the audit schema), and a declared table is missing from the
    input when no input collection has a target table with that normal
    form.  [table_exists] does not normalize: it takes the same default
    schema, and answers whether the catalog has the schema and the table
    exactly as they are written in the name. *)
Theorem table_names_normalize_but_lookup_is_exact :
  (∀ table_name,
     split_table_name (normalize_table_name table_name)
     = (lower (split_table_name table_name).1,
        lower (split_table_name table_name).2)
     ∧ (contains "." table_name = false →
        split_table_name table_name = ("public", table_name)
        ∧ normalize_table_name table_name = "public." +:+ lower table_name))
  ∧ (∀ name1 name2,
       is_ascii name1 = true → is_ascii name2 = true →
       lower name1 = lower name2 →
       normalize_table_name name1 = normalize_table_name name2)
  ∧ (∀ audit_config schema_path content schema_tables target_table,
       load_schema_tables schema_path (Some content) = Return schema_tables →
       normalize_table_name target_table
       ∈ schema_tables_without_audit audit_config schema_tables
       ↔ keeps_schema_table audit_config (normalize_table_name target_table)
         = true
         ∧ ∃ name, name ∈ findall content
                   ∧ normalize_table_name name
                     = normalize_table_name target_table)
  ∧ (∀ audit_config mapping_config schema_path content schema_tables
       input_data table,
       load_schema_tables schema_path (Some content) = Return schema_tables →
       table ∈ missing_input_tables audit_config mapping_config schema_tables
                 input_data
       ↔ keeps_schema_table audit_config table = true
         ∧ (∃ name, name ∈ findall content ∧ normalize_table_name name = table)
         ∧ ∀ collection_name documents collection_config,
             (collection_name, documents) ∈ input_data →
             get_collection_mapping mapping_config collection_name
             = Some collection_config →
             normalize_table_name (target_table collection_config) ≠ table)
  ∧ (∀ fault table_name st,
       fault (length (sent st)) = None →
       (table_exists fault table_name st).1
       = Return (bool_decide (split_table_name table_name ∈ tables st))).
Proof.
  split; [|split; [|split; [|split]]].
  - intros table_name. split; [apply split_normalize_table_name|].
    intros Hdot%split_once_none.
    unfold normalize_table_name, split_table_name. by rewrite Hdot.
  - intros name1 name2 _ _ Hlower.
    by rewrite <- (normalize_table_name_lower name1), Hlower,
      normalize_table_name_lower.
  - intros audit_config schema_path content schema_tables target_table Hload.
    unfold schema_tables_without_audit.
    rewrite elem_of_filter, (elem_of_schema_tables _ _ _ _ Hload). tauto.
  - intros audit_config mapping_config schema_path content schema_tables
      input_data table Hload.
    unfold missing_input_tables, schema_tables_without_audit.
    rewrite elem_of_difference, elem_of_filter,
      (elem_of_schema_tables _ _ _ _ Hload), elem_of_input_tables.
    split.
    + intros [[Hkeeps Hname] Hnone]. split; [exact Hkeeps|].
      split; [exact Hname|].
      intros collection_name documents collection_config Hin Hmapping Heq.
      apply Hnone. by exists collection_name, documents, collection_config.
    + intros (Hkeeps & Hname & Hnone). split; [by split|].
      intros (collection_name & documents & collection_config & Hin & Hmapping
              & Heq).
      by eapply Hnone.
  - intros fault table_name st Hok. unfold table_exists.
    destruct (split_table_name table_name) as [schema table].
    unfold seq, execute, get, pure. by rewrite Hok.
Qed.

Lemma table_names_normalize_but_lookup_is_exact_witness :
  (split_table_name "Orders" = ("public", "Orders")
   ∧ normalize_table_name "Orders" = "public.orders")
  ∧ normalize_table_name "Public.Users" = normalize_table_name "PUBLIC.users"
  ∧ normalize_table_name "USERS"
    ∈ schema_tables_without_audit default_audit_config {["public.users"]}
  ∧ (table_exists no_fault "Public.Users" users_database).1 = Return false.
Proof.
  destruct table_names_normalize_but_lookup_is_exact
    as (Hnormal & Hcase & Hdeclared & _ & Hexact).
  split; [|split; [|split]].
  - apply (Hnormal "Orders"). reflexivity.
  - apply Hcase; reflexivity.
  - apply (Hdeclared default_audit_config "schema.sql"
             "CREATE TABLE IF NOT EXISTS Public.Users (id INTEGER);"
             {["public.users"]} "USERS").
    + vm_compute. reflexivity.
    + split; [vm_compute; reflexivity|].
      exists "Public.Users". split; [|vm_compute; reflexivity].
      assert (findall "CREATE TABLE IF NOT EXISTS Public.Users (id INTEGER);"
              = ["Public.Users"]) as -> by (vm_compute; reflexivity).
      by left.
  - rewrite (Hexact no_fault "Public.Users" users_database) by reflexivity.
    vm_compute. reflexivity.
Defined.

(* ===================================================================== *)
(** * The audit rows of the document loop *)
(* ===================================================================== *)

Section AuditOnceFacts.
Variable rt : runtime.
Variable fault : nat → option exn.
Variable clock : nat → datetime.
Variable runtime_config : runtime_config.
Variable audit_config : audit_config.
Variable collection_name : string.
Variable collection_config : collection_config.
Variable object_status : string.
Variable table_exists : bool.

Local Abbreviation block_of :=
  (document_statements rt clock runtime_config audit_config collection_name
     collection_config object_status table_exists).

Lemma document_loop_blocks documents st :
  has_business_columns audit_config →
  (∀ document, document ∈ documents →
     ∃ r, transform_document rt document (mappings collection_config)
            (date_formats runtime_config) (date_output_format runtime_config)
            (datetime_output_format runtime_config) = Return r) →
  ∃ outcome st' blocks,
    for_each documents
      (process_document rt fault clock runtime_config audit_config
         collection_name collection_config object_status table_exists) st
    = (outcome, st')
    ∧ sent st' = sent st ++ concat blocks
    ∧ match outcome with
      | Return _ => Forall2 block_of documents blocks
      | Raise e =>
          rollback_failed fault st' e
          ∧ ∃ complete partial,
              blocks = complete ++ [partial]
              ∧ Forall2 block_of (take (length complete) documents) complete
      end.
Proof.
  intros Hkeys. revert st.
  induction documents as [|document documents IH]; intros st Hall.
  - exists (Return tt), st, []. split; [reflexivity|]. cbn.
    rewrite app_nil_r. split; [done|constructor].
  - destruct (Hall document) as [r Hr]; [by left|].
    destruct (process_document_audits_once rt fault clock runtime_config
                audit_config collection_name collection_config object_status
                document r Hr table_exists st)
      as (outcome1 & st1 & new & Hst1 & Hsent1 & _ & Hfailed & Hshape).
    { intros _. by apply business_fields_available. }
    cbn [for_each]. unfold seq at 1. rewrite Hst1.
    destruct outcome1 as [[]|e].
    + assert (block_of document new) as Hblock.
      { destruct Hshape
          as [(before & reading & status & after & -> & Hafter & Hbefore
               & Hkinds & Hcount)
             |(values & e & _ & _ & [=])].
        by exists r, before, reading, status, after. }
      destruct (IH st1) as (outcome & st' & blocks & Hst' & Hsent' & Hout).
      { intros d Hd. apply Hall. by right. }
      exists outcome, st', (new :: blocks). split; [exact Hst'|].
      split; [rewrite Hsent', Hsent1; cbn [concat]; by rewrite <- app_assoc|].
      destruct outcome as [[]|e]; [by constructor|].
      destruct Hout as (Hlast & complete & partial & -> & Hcomplete).
      split; [exact Hlast|].
      exists (new :: complete), partial. split; [done|].
      cbn [length take]. by constructor.
    + exists (Raise e), st1, [new]. split; [reflexivity|].
      split; [cbn [concat]; by rewrite app_nil_r|].
      split; [by apply Hfailed|].
      exists [], new. split; [done|]. cbn [length take]. constructor.
Qed.

End AuditOnceFacts.

(** X29.  When every transformation returns and the audit section has its
    three business columns, the document loop of a collection absorbs the
    failures of inserts and commits, and audits every document once, in
    the order of the documents: the statements it sends are one block per
    document, which holds the insert of the document's audit row, behind
    at most one business insert and its roll back (none when the table is
    missing), and before nothing but a commit or a roll back.  The loop
    raises only the exception of a roll back that failed: that roll back
    is the last statement sent, and the blocks before the last one are
    those of the documents before the one it stopped at. *)
Theorem document_loop_audits_every_document :
  ∀ rt fault clock runtime_config audit_config collection_name
    collection_config object_status table_exists documents st,
    has_business_columns audit_config →
    (∀ document, document ∈ documents →
       ∃ r, transform_document rt document (mappings collection_config)
              (date_formats runtime_config) (date_output_format runtime_config)
              (datetime_output_format runtime_config) = Return r) →
    ∃ outcome st' blocks,
      for_each documents
        (process_document rt fault clock runtime_config audit_config
           collection_name collection_config object_status table_exists) st
      = (outcome, st')
      ∧ sent st' = sent st ++ concat blocks
      ∧ match outcome with
        | Return _ =>
            Forall2
              (document_statements rt clock runtime_config audit_config
                 collection_name collection_config object_status table_exists)
              documents blocks
        | Raise e =>
            rollback_failed fault st' e
            ∧ ∃ complete partial,
                blocks = complete ++ [partial]
                ∧ Forall2
                    (document_statements rt clock runtime_config audit_config
                       collection_name collection_config object_status
                       table_exists)
                    (take (length complete) documents) complete
        end.
Proof.
  intros. by apply document_loop_blocks.
Qed.

Lemma document_loop_audits_every_document_witness :
  ∃ st' blocks,
    for_each [document_without_name; document_with_null_name]
      (process_document Ref.runtime audit_inserts_fail seconds_clock
         default_runtime_config default_audit_config "users" users_collection
         "ALREADY_EXISTS" true) users_database
    = (Return tt, st')
    ∧ sent st' = sent users_database ++ concat blocks
    ∧ Forall2
        (document_statements Ref.runtime seconds_clock default_runtime_config
           default_audit_config "users" users_collection "ALREADY_EXISTS" true)
        [document_without_name; document_with_null_name] blocks.
Proof.
  destruct (document_loop_audits_every_document Ref.runtime audit_inserts_fail
              seconds_clock default_runtime_config default_audit_config "users"
              users_collection "ALREADY_EXISTS" true
              [document_without_name; document_with_null_name] users_database)
    as (outcome & st' & blocks & Hrun & Hsent & Hout).
  - intros key. rewrite !elem_of_cons, elem_of_nil.
    intros [->|[->|[->|[]]]]; vm_compute; reflexivity.
  - intros document. rewrite !elem_of_cons, elem_of_nil.
    intros [->|[->|[]]]; eexists; vm_compute; reflexivity.
  - destruct outcome as [[]|e].
    + exists st', blocks. split; [exact Hrun|]. split; [exact Hsent|exact Hout].
    + pose proof (f_equal fst Hrun) as Houtcome.
      vm_compute in Houtcome. discriminate Houtcome.
Defined.
